(** * introspect-backend: the analysis, speech and summary handlers

    A shallow embedding of [src/endpoints/analysis.ts] and of the three
    routes of [src/index.ts], with the properties of the specification
    stated and proved (or refuted) over it.

    Conventions of the model.
    - A JavaScript string is a [string]: a sequence of 8-bit code units,
      read as the Latin-1 range of UTF-16.  [toLowerCase], [trim] and the
      regular expression class [\s] are exact on that range.
    - A JavaScript number is a binary64 float, [spec_float] with
      precision 53 and maximal exponent 1024.
    - A handler is a computation in the monad [M]: it threads the log of
      upstream calls and may throw.  Console output is left out, but
      not the conversion of what is printed: a logged template literal
      converts its substitutions to strings, and throws when one does
      not convert.
    - A response body made by [JSON.stringify(v)] is kept as the value
      [v]; so is the body of a [fetch]. *)

From Stdlib Require Import Bool Arith ZArith List Ascii String Lia.
From Stdlib.Strings Require Import Byte.
From Stdlib Require Import SpecFloat DecimalString.
Import ListNotations.

Local Open Scope string_scope.
Local Open Scope list_scope.

(* ================================================================== *)
(** * Strings *)
(* ================================================================== *)

Module JsString.

(** Code unit of a character. *)
Definition code (c : ascii) : nat := nat_of_ascii c.

(** [String.prototype.toLowerCase] on one Latin-1 code unit: A-Z and
    the accented capitals U+00C0..U+00DE (the sign U+00D7 apart) move
    up by 32. *)
Definition lower_char (c : ascii) : ascii :=
  let n := code c in
  if (((65 <=? n) && (n <=? 90))
      || ((192 <=? n) && (n <=? 222) && negb (n =? 215)))%nat
  then ascii_of_nat (n + 32) else c.

Fixpoint toLowerCase (s : string) : string :=
  match s with
  | EmptyString => EmptyString
  | String c s' => String (lower_char c) (toLowerCase s')
  end.

(** White space and line terminators of ECMAScript below U+0100:
    TAB, LF, VT, FF, CR, SP and NBSP.  This is the set removed by
    [trim] and matched by [\s]. *)
Definition is_space (c : ascii) : bool :=
  let n := code c in
  (((9 <=? n) && (n <=? 13)) || (n =? 32) || (n =? 160))%nat.

Definition is_empty (s : string) : bool :=
  match s with EmptyString => true | String _ _ => false end.

Fixpoint trimStart (s : string) : string :=
  match s with
  | EmptyString => EmptyString
  | String c s' => if is_space c then trimStart s' else s
  end.

Fixpoint trimEnd (s : string) : string :=
  match s with
  | EmptyString => EmptyString
  | String c s' =>
      let t := trimEnd s' in
      if is_space c && is_empty t then EmptyString else String c t
  end.

Definition trim (s : string) : string := trimEnd (trimStart s).

(** [s.includes(sub)]. *)
Fixpoint includes (s sub : string) : bool :=
  if prefix sub s then true
  else match s with
       | EmptyString => false
       | String _ s' => includes s' sub
       end.

(** [s.split(sep)[0]] for a separator that matches one character: the
    text before the first separator, the whole text when there is
    none.  The array returned by [split] is never empty. *)
Fixpoint split_head (sep : ascii -> bool) (s : string) : string :=
  match s with
  | EmptyString => EmptyString
  | String c s' => if sep c then EmptyString else String c (split_head sep s')
  end.

(** [s.split(sep)] as a whole, for a one-character separator. *)
Fixpoint split (sep : ascii -> bool) (s : string) : list string :=
  match s with
  | EmptyString => [EmptyString]
  | String c s' =>
      if sep c then EmptyString :: split sep s'
      else match split sep s' with
           | [] => [String c EmptyString]
           | p :: ps => String c p :: ps
           end
  end.

(** [parts.join(sep)]. *)
Definition join (sep : string) (parts : list string) : string :=
  String.concat sep parts.

Definition is_dot (c : ascii) : bool := Ascii.eqb c ".".
Definition is_comma (c : ascii) : bool := Ascii.eqb c ",".

(** The class [[.,\s]]. *)
Definition is_word_end (c : ascii) : bool :=
  is_dot c || is_comma c || is_space c.

(** [arr.includes(x)] for an array of strings. *)
Definition mem (x : string) (l : list string) : bool :=
  existsb (String.eqb x) l.

(** The double quote, for literals that contain one. *)
Definition dq : string := String (ascii_of_nat 34) EmptyString.

End JsString.

Import JsString.

(* ================================================================== *)
(** * Expression extraction *)
(* ================================================================== *)

(** The list handed to the model in both prompts of [buildVisionPrompt]. *)
Definition promptVocabulary : list string :=
  [ "happy"; "sad"; "angry"; "anxious"; "worried"; "confused"; "neutral";
    "calm"; "stressed"; "surprised"; "fearful"; "disgusted"; "content";
    "frustrated"; "concerned"; "excited" ].

(** [emotionKeywords] of [extractExpression]. *)
Definition emotionKeywords : list string :=
  [ "happy"; "sad"; "angry"; "anxious"; "worried"; "confused";
    "neutral"; "calm"; "stressed"; "surprised"; "surprise"; "fearful";
    "disgusted"; "content"; "frustrated"; "concerned"; "excited";
    "disappointed"; "scared"; "afraid"; "cheerful"; "joyful" ].

(** The two [for (const emotion of emotionKeywords)] loops. *)
Definition scan (text : string) : option string :=
  find (fun emotion => includes text emotion) emotionKeywords.

Definition extractExpression (analysisText : string) : string :=
  let lowerText := trim (toLowerCase analysisText) in
  let firstWord := split_head is_word_end lowerText in
  if mem firstWord emotionKeywords then firstWord
  else
    let firstSentence := split_head is_dot lowerText in
    match scan firstSentence with
    | Some emotion => emotion
    | None =>
        match scan lowerText with
        | Some emotion => emotion
        | None => "neutral"
        end
    end.

(** [k] is the first entry of [l], in list order, that occurs in [text]. *)
Definition first_occurring (l : list string) (text k : string) : Prop :=
  exists before after,
    l = before ++ k :: after /\
    includes text k = true /\
    forall k', In k' before -> includes text k' = false.

(** No entry of [l] occurs in [text]. *)
Definition none_occurring (l : list string) (text : string) : Prop :=
  forall k, In k l -> includes text k = false.

(* ================================================================== *)
(** * Base64 *)
(* ================================================================== *)

Module Base64.

(** The alphabet of RFC 4648, section 4, which [btoa] uses. *)
Definition alphabet : string :=
  "ABCDEFGHIJKLMNOPQRSTUVWXYZabcdefghijklmnopqrstuvwxyz0123456789+/".

(** A group of six bits, the most significant first. *)
Definition sextet : Type := (bool * bool * bool * bool * bool * bool)%type.

Definition bit (b : bool) : nat := if b then 1 else 0.

Definition sextet_index (s : sextet) : nat :=
  let '(b5, b4, b3, b2, b1, b0) := s in
  32 * bit b5 + 16 * bit b4 + 8 * bit b3 + 4 * bit b2 + 2 * bit b1 + bit b0.

Definition sextet_of_index (n : nat) : sextet :=
  (Nat.testbit n 5, Nat.testbit n 4, Nat.testbit n 3,
   Nat.testbit n 2, Nat.testbit n 1, Nat.testbit n 0).

Definition pad : ascii := "=".

Definition digit (s : sextet) : ascii :=
  match String.get (sextet_index s) alphabet with
  | Some c => c
  | None => pad
  end.

Fixpoint position (c : ascii) (s : string) : option nat :=
  match s with
  | EmptyString => None
  | String d s' =>
      if Ascii.eqb c d then Some 0 else option_map S (position c s')
  end.

Definition digit_value (c : ascii) : option sextet :=
  option_map sextet_of_index (position c alphabet).

Definition is_pad (c : ascii) : bool := Ascii.eqb c pad.

(** The three octets of a full group of four digits. *)
Definition octet1 (s1 s2 : sextet) : ascii :=
  let '(a7, a6, a5, a4, a3, a2) := s1 in
  let '(a1, a0, _, _, _, _) := s2 in
  Ascii a0 a1 a2 a3 a4 a5 a6 a7.

Definition octet2 (s2 s3 : sextet) : ascii :=
  let '(_, _, b7, b6, b5, b4) := s2 in
  let '(b3, b2, b1, b0, _, _) := s3 in
  Ascii b0 b1 b2 b3 b4 b5 b6 b7.

Definition octet3 (s3 s4 : sextet) : ascii :=
  let '(_, _, _, _, c7, c6) := s3 in
  let '(c5, c4, c3, c2, c1, c0) := s4 in
  Ascii c0 c1 c2 c3 c4 c5 c6 c7.

(** [btoa]: the argument is a binary string, one character per octet.
    Every character of the model is below 256, so the
    InvalidCharacterError of [btoa] cannot arise. *)
Fixpoint btoa (binary : string) : string :=
  match binary with
  | EmptyString => EmptyString
  | String (Ascii a0 a1 a2 a3 a4 a5 a6 a7) EmptyString =>
      String (digit (a7, a6, a5, a4, a3, a2))
        (String (digit (a1, a0, false, false, false, false))
           (String pad (String pad EmptyString)))
  | String (Ascii a0 a1 a2 a3 a4 a5 a6 a7)
      (String (Ascii b0 b1 b2 b3 b4 b5 b6 b7) EmptyString) =>
      String (digit (a7, a6, a5, a4, a3, a2))
        (String (digit (a1, a0, b7, b6, b5, b4))
           (String (digit (b3, b2, b1, b0, false, false))
              (String pad EmptyString)))
  | String (Ascii a0 a1 a2 a3 a4 a5 a6 a7)
      (String (Ascii b0 b1 b2 b3 b4 b5 b6 b7)
         (String (Ascii c0 c1 c2 c3 c4 c5 c6 c7) rest)) =>
      String (digit (a7, a6, a5, a4, a3, a2))
        (String (digit (a1, a0, b7, b6, b5, b4))
           (String (digit (b3, b2, b1, b0, c7, c6))
              (String (digit (c5, c4, c3, c2, c1, c0)) (btoa rest))))
  end.

(** Decoding after RFC 4648: groups of four digits, the last one
    possibly padded. *)
Fixpoint decode (s : string) : option (list byte) :=
  match s with
  | EmptyString => Some []
  | String c1 (String c2 (String c3 (String c4 rest))) =>
      match digit_value c1, digit_value c2 with
      | Some s1, Some s2 =>
          if is_pad c3 then
            if is_pad c4 && is_empty rest
            then Some [byte_of_ascii (octet1 s1 s2)] else None
          else
            match digit_value c3 with
            | None => None
            | Some s3 =>
                if is_pad c4 then
                  if is_empty rest
                  then Some [byte_of_ascii (octet1 s1 s2);
                             byte_of_ascii (octet2 s2 s3)]
                  else None
                else
                  match digit_value c4 with
                  | None => None
                  | Some s4 =>
                      option_map
                        (fun tl => byte_of_ascii (octet1 s1 s2)
                                   :: byte_of_ascii (octet2 s2 s3)
                                   :: byte_of_ascii (octet3 s3 s4) :: tl)
                        (decode rest)
                  end
            end
      | _, _ => None
      end
  | _ => None
  end.

(** The octets of a binary string. *)
Definition octets (s : string) : list byte :=
  map byte_of_ascii (list_ascii_of_string s).

End Base64.

(** [String.fromCharCode] on an element of a [Uint8Array]. *)
Definition fromCharCode (b : byte) : string :=
  String (ascii_of_byte b) EmptyString.

(** The loop appends one character per byte to [binary]; the result is
    [btoa(binary)]. *)
Definition arrayBufferToBase64 (buffer : list byte) : string :=
  let binary :=
    fold_left (fun binary b => (binary ++ fromCharCode b)%string)
      buffer EmptyString in
  Base64.btoa binary.

(* ================================================================== *)
(** * JavaScript values *)
(* ================================================================== *)

Module Js.

(** ** Numbers: binary64 *)

Definition number : Type := spec_float.
Definition prec : Z := 53.
Definition emax : Z := 1024.

Definition num_add : number -> number -> number := SFadd prec emax.
Definition num_div : number -> number -> number := SFdiv prec emax.
Definition num_of_Z (z : Z) : number := binary_normalize prec emax z 0 false.
Definition num_of_nat (n : nat) : number := num_of_Z (Z.of_nat n).

Definition zero : number := S754_zero false.
Definition NaN : number := S754_nan.
Definition infinity : number := S754_infinity false.
Definition neg_infinity : number := S754_infinity true.

Definition is_nan (x : number) : bool :=
  match x with S754_nan => true | _ => false end.

Definition is_zero (x : number) : bool :=
  match x with S754_zero _ => true | _ => false end.

(** [x < y] and [x <= y] on numbers. *)
Definition num_lt : number -> number -> bool := SFltb.
Definition num_le : number -> number -> bool := SFleb.

(** ** Values *)

(** What [JSON.parse] returns, and [undefined], which reading an
    absent property gives. *)
#[local] Unset Elimination Schemes.
Inductive value : Type :=
| VUndef
| VNull
| VBool (b : bool)
| VNum (x : number)
| VStr (s : string)
| VArr (items : list value)
| VObj (fields : list (string * value)).
#[local] Set Elimination Schemes.

(** ** Exceptions *)

Inductive exn : Type :=
| TypeError (msg : string)
| SyntaxError (msg : string)
| RangeError (msg : string)
| Error (msg : string).

(** [error.message].  Every exception of the model is an instance of
    [Error], so [error instanceof Error] holds in each [catch]. *)
Definition message (e : exn) : string :=
  match e with
  | TypeError m | SyntaxError m | RangeError m | Error m => m
  end.

Inductive outcome (A : Type) : Type :=
| Ret (a : A)
| Throw (e : exn).
Arguments Ret {A} a.
Arguments Throw {A} e.

(** ** What is taken from the engine

    [Number::toString], [StringToNumber], [JSON.parse] and the text of
    [error.stack] are not modelled; the handlers are parametric in
    them, and in two things each engine decides for itself: the message
    of the TypeError thrown when [callee], an expression of the source,
    is called and is not a function; and the number of arguments a call
    can spread, beyond which it throws a RangeError. *)
Class Runtime : Type := {
  num_to_string : number -> string;
  string_to_number : string -> number;
  json_parse : string -> outcome value;
  stack : exn -> string;
  not_callable : string -> string;
  max_arguments : nat
}.

(** ** Truthiness, [||] and nullish values *)

Definition truthy (v : value) : bool :=
  match v with
  | VUndef | VNull => false
  | VBool b => b
  | VNum x => negb (is_zero x || is_nan x)
  | VStr s => negb (is_empty s)
  | VArr _ | VObj _ => true
  end.

Definition or_else (a b : value) : value := if truthy a then a else b.

Definition nullish (v : value) : bool :=
  match v with VUndef | VNull => true | _ => false end.

Definition is_array (v : value) : bool :=
  match v with VArr _ => true | _ => false end.

(** ** Property access *)

Fixpoint lookup (k : string) (fields : list (string * value)) : option value :=
  match fields with
  | [] => None
  | (k', v) :: rest => if String.eqb k k' then Some v else lookup k rest
  end.

Definition kind (v : value) : string :=
  match v with VNull => "null" | _ => "undefined" end.

(** The TypeError of V8 on a property read from [undefined] or [null]. *)
Definition cannot_read (v : value) (k : string) : exn :=
  TypeError ("Cannot read properties of " ++ kind v
             ++ " (reading '" ++ k ++ "')").

(** [v.k] for a data property [k] that no prototype defines, and for
    [length].  The methods of the prototypes are the [call_] functions
    below. *)
Definition get_prop (v : value) (k : string) : outcome value :=
  match v with
  | VUndef | VNull => Throw (cannot_read v k)
  | VObj fields =>
      Ret (match lookup k fields with Some x => x | None => VUndef end)
  | VArr items =>
      Ret (if String.eqb k "length" then VNum (num_of_nat (List.length items))
           else VUndef)
  | VStr s =>
      Ret (if String.eqb k "length" then VNum (num_of_nat (String.length s))
           else VUndef)
  | VBool _ | VNum _ => Ret VUndef
  end.

Definition index_key (i : nat) : string :=
  NilZero.string_of_uint (Nat.to_uint i).

(** [v[i]] for an integer index. *)
Definition get_index (v : value) (i : nat) : outcome value :=
  match v with
  | VUndef | VNull => Throw (cannot_read v (index_key i))
  | VObj fields =>
      Ret (match lookup (index_key i) fields with
           | Some x => x
           | None => VUndef
           end)
  | VArr items => Ret (nth i items VUndef)
  | VStr s =>
      Ret (match String.get i s with
           | Some c => VStr (String c EmptyString)
           | None => VUndef
           end)
  | VBool _ | VNum _ => Ret VUndef
  end.

(** [v?.k] and [v?.[i]]. *)
Definition get_prop_opt (v : value) (k : string) : outcome value :=
  if nullish v then Ret VUndef else get_prop v k.

Definition get_index_opt (v : value) (i : nat) : outcome value :=
  if nullish v then Ret VUndef else get_index v i.

(** ** Conversions *)

Section Conversions.
Context {rt : Runtime}.

(** The TypeError of a call of [callee], which is not a function. *)
Definition not_a_function (callee : string) : exn :=
  TypeError (not_callable callee).

(** [OrdinaryToPrimitive] calls the methods [toString] and [valueOf] of
    an object, in the order of the hint.  What [JSON.parse] returns
    inherits both, from [Object.prototype] or [Array.prototype], unless
    it is an object with an own property of that name, whose value is
    then no function.  The inherited [valueOf] gives the object back;
    so an object converts, through the inherited [toString], exactly
    when it has no own property [toString], under each hint.  An array
    is joined: its elements other than [null] and [undefined] are
    converted in turn. *)
Fixpoint convertible (v : value) : bool :=
  match v with
  | VObj fields =>
      match lookup "toString" fields with Some _ => false | None => true end
  | VArr items => forallb convertible items
  | _ => true
  end.

(** The TypeError of V8 for a value that does not convert. *)
Definition cannot_convert : exn :=
  TypeError "Cannot convert object to primitive value".

(** The string of a value that converts. *)
Fixpoint string_of (v : value) : string :=
  match v with
  | VUndef => "undefined"
  | VNull => "null"
  | VBool b => if b then "true" else "false"
  | VNum x => num_to_string x
  | VStr s => s
  | VArr items =>
      (fix join_items (l : list value) : string :=
         match l with
         | [] => EmptyString
         | x :: rest =>
             let sx := match x with
                       | VUndef | VNull => EmptyString
                       | _ => string_of x
                       end in
             match rest with
             | [] => sx
             | _ :: _ => (sx ++ "," ++ join_items rest)%string
             end
         end) items
  | VObj _ => "[object Object]"
  end.

(** [ToString], as a template literal applies it to a substitution. *)
Definition to_string (v : value) : outcome string :=
  if convertible v then Ret (string_of v) else Throw cannot_convert.

(** A template literal converts its substitutions from left to right;
    this is what remains of one whose text is only logged. *)
Fixpoint convert_all (vs : list value) : outcome unit :=
  match vs with
  | [] => Ret tt
  | v :: rest =>
      match to_string v with
      | Ret _ => convert_all rest
      | Throw e => Throw e
      end
  end.

(** The primitive of a value that converts: arrays and objects go
    through [toString]. *)
Definition primitive_of (v : value) : value :=
  match v with
  | VArr _ | VObj _ => VStr (string_of v)
  | _ => v
  end.

(** [ToPrimitive]. *)
Definition to_primitive (v : value) : outcome value :=
  if convertible v then Ret (primitive_of v) else Throw cannot_convert.

(** The number of a value that converts. *)
Definition number_of (v : value) : number :=
  match primitive_of v with
  | VUndef => NaN
  | VNull => zero
  | VBool b => if b then num_of_Z 1 else zero
  | VNum x => x
  | VStr s => string_to_number s
  | VArr _ | VObj _ => NaN
  end.

(** [ToNumber]. *)
Definition to_number (v : value) : outcome number :=
  if convertible v then Ret (number_of v) else Throw cannot_convert.

Definition is_string (v : value) : bool :=
  match v with VStr _ => true | _ => false end.

(** The sum of two primitives: a concatenation when one is a string. *)
Definition plus (pa pb : value) : value :=
  if is_string pa || is_string pb
  then VStr (string_of pa ++ string_of pb)
  else VNum (num_add (number_of pa) (number_of pb)).

(** The operator [+]: the left operand is converted first. *)
Definition add (a b : value) : outcome value :=
  match to_primitive a with
  | Throw e => Throw e
  | Ret pa =>
      match to_primitive b with
      | Throw e => Throw e
      | Ret pb => Ret (plus pa pb)
      end
  end.

(** [a / n] with a numeric right operand. *)
Definition divide (a : value) (n : number) : outcome number :=
  match to_number a with
  | Ret x => Ret (num_div x n)
  | Throw e => Throw e
  end.

(** [a > 0]. *)
Definition gt_zero (a : value) : outcome bool :=
  match to_number a with
  | Ret x => Ret (num_lt zero x)
  | Throw e => Throw e
  end.

(** [Math.max] and [Math.min] over numbers. *)
Definition max_step (highest x : number) : number :=
  if is_nan highest || is_nan x then NaN
  else match x, highest with
       | S754_zero false, S754_zero true => x
       | _, _ => if num_lt highest x then x else highest
       end.

Definition min_step (lowest x : number) : number :=
  if is_nan lowest || is_nan x then NaN
  else match x, lowest with
       | S754_zero true, S754_zero false => x
       | _, _ => if num_lt x lowest then x else lowest
       end.

(** The RangeError of V8 for a call that spreads too many arguments. *)
Definition too_many_arguments : exn :=
  RangeError "Maximum call stack size exceeded".

(** [f(...args)] for [f] one of [Math.max] and [Math.min]: the call
    fails when it spreads more arguments than the engine takes;
    otherwise the arguments are converted to numbers from left to right
    and folded by [step] from [start]. *)
Definition spread_fold (step : number -> number -> number) (start : number)
  (args : list value) : outcome number :=
  if (max_arguments <? List.length args)%nat then Throw too_many_arguments
  else if forallb convertible args
       then Ret (fold_left step (map number_of args) start)
       else Throw cannot_convert.

Definition math_max (args : list value) : outcome number :=
  spread_fold max_step neg_infinity args.

Definition math_min (args : list value) : outcome number :=
  spread_fold min_step infinity args.

(** ** [Number.prototype.toFixed] *)

Definition digits_of (n : Z) : string :=
  NilZero.string_of_uint (N.to_uint (Z.to_N n)).

Fixpoint zeros (k : nat) : string :=
  match k with O => EmptyString | S k' => String "0" (zeros k') end.

(** Steps 10 and 11 of the algorithm: the digits of [n] with a point
    before the last [f] of them. *)
Definition place_point (n : Z) (f : nat) : string :=
  let m := digits_of n in
  match f with
  | O => m
  | S _ =>
      let m := if (String.length m <=? f)%nat
               then (zeros (f + 1 - String.length m) ++ m)%string
               else m in
      let k := String.length m in
      (substring 0 (k - f) m ++ "." ++ substring (k - f) f m)%string
  end.

(** The integer [n] for which [n / 10^f] is closest to [m * 2^e],
    the larger one on a tie. *)
Definition nearest_scaled (m : positive) (e : Z) (f : nat) : Z :=
  let scaled := (Zpos m * 10 ^ Z.of_nat f)%Z in
  if (0 <=? e)%Z then (scaled * 2 ^ e)%Z
  else ((2 * scaled + 2 ^ (- e)) / 2 ^ (- e + 1))%Z.

(** [m * 2^e >= 10^21]. *)
Definition at_least_1e21 (m : positive) (e : Z) : bool :=
  if (0 <=? e)%Z then (10 ^ 21 <=? Zpos m * 2 ^ e)%Z
  else (10 ^ 21 * 2 ^ (- e) <=? Zpos m)%Z.

Definition toFixed (x : number) (f : nat) : string :=
  match x with
  | S754_nan | S754_infinity _ => num_to_string x
  | S754_zero _ => place_point 0 f
  | S754_finite s m e =>
      ((if s then "-" else "")
       ++ (if at_least_1e21 m e then num_to_string (SFabs x)
           else place_point (nearest_scaled m e f) f))%string
  end.

(** [v.toFixed(f)], written [callee] in the source: a method of numbers
    only. *)
Definition call_toFixed (callee : string) (v : value) (f : nat)
  : outcome string :=
  match v with
  | VNum x => Ret (toFixed x f)
  | VUndef | VNull => Throw (cannot_read v "toFixed")
  | _ => Throw (not_a_function callee)
  end.

(** [v?.toFixed(f)]. *)
Definition call_toFixed_opt (callee : string) (v : value) (f : nat)
  : outcome value :=
  if nullish v then Ret VUndef
  else match call_toFixed callee v f with
       | Ret s => Ret (VStr s)
       | Throw e => Throw e
       end.


(** ** String methods called on values *)

Fixpoint drop_prefix (p s : string) : option string :=
  match p, s with
  | EmptyString, _ => Some s
  | String a p', String b s' =>
      if Ascii.eqb a b then drop_prefix p' s' else None
  | String _ _, EmptyString => None
  end.

Definition is_lower_letter (c : ascii) : bool :=
  ((97 <=? code c) && (code c <=? 122))%nat.

Fixpoint drop_while (p : ascii -> bool) (s : string) : string :=
  match s with
  | EmptyString => EmptyString
  | String c s' => if p c then drop_while p s' else s
  end.

(** [s.replace(/^data:image\/[a-z]+;base64,/, '')].  No letter is a
    semicolon, so the greedy match of the letters is the only one. *)
Definition strip_data_url (s : string) : string :=
  match drop_prefix "data:image/" s with
  | None => s
  | Some after_slash =>
      let after_letters := drop_while is_lower_letter after_slash in
      if (String.length after_letters <? String.length after_slash)%nat
      then match drop_prefix ";base64," after_letters with
           | Some data => data
           | None => s
           end
      else s
  end.

(** [v.replace(...)] and [v.trim()], written [callee] in the source:
    methods of strings only; the receiver is never nullish where the
    handlers call them. *)
Definition call_replace_data_url (callee : string) (v : value)
  : outcome string :=
  match v with
  | VStr s => Ret (strip_data_url s)
  | VUndef | VNull => Throw (cannot_read v "replace")
  | _ => Throw (not_a_function callee)
  end.

Definition call_trim (callee : string) (v : value) : outcome string :=
  match v with
  | VStr s => Ret (trim s)
  | VUndef | VNull => Throw (cannot_read v "trim")
  | _ => Throw (not_a_function callee)
  end.

End Conversions.

End Js.

Import Js.

(* ================================================================== *)
(** * Effects: upstream calls and exceptions *)
(* ================================================================== *)

Module Net.

(** The arguments of one [fetch].  [fr_body] is the object handed to
    [JSON.stringify]. *)
Record FetchRequest : Type := {
  fr_url : string;
  fr_method : string;
  fr_headers : list (string * value);
  fr_body : value
}.

(** What the handlers read of an upstream response: [ok], [status],
    [statusText], the result of [text()] and of [arrayBuffer()]. *)
Record FetchResponse : Type := {
  resp_ok : bool;
  resp_status : nat;
  resp_statusText : string;
  resp_text : string;
  resp_arrayBuffer : list byte
}.

(** A [fetch] resolves with a response or rejects. *)
Inductive fetch_outcome : Type :=
| Rejected (reason : exn)
| Resolved (r : FetchResponse).

(** The upstream services answer the [n]-th call of a request
    handling as [net n] says; [log] holds the calls made so far. *)
Record world : Type := {
  net : nat -> FetchRequest -> fetch_outcome;
  log : list FetchRequest
}.

Definition M (A : Type) : Type := world -> outcome A * world.

Definition ret {A} (a : A) : M A := fun w => (Ret a, w).

Definition throw {A} (e : exn) : M A := fun w => (Throw e, w).

Definition lift {A} (o : outcome A) : M A := fun w => (o, w).

Definition bind {A B} (m : M A) (k : A -> M B) : M B :=
  fun w =>
    match m w with
    | (Ret a, w') => k a w'
    | (Throw e, w') => (Throw e, w')
    end.

(** [try { m } catch (e) { handler e }]. *)
Definition try_catch {A} (m : M A) (handler : exn -> M A) : M A :=
  fun w =>
    match m w with
    | (Ret a, w') => (Ret a, w')
    | (Throw e, w') => handler e w'
    end.

Definition fetch (req : FetchRequest) : M FetchResponse :=
  fun w =>
    (match net w (List.length (log w)) req with
     | Rejected reason => Throw reason
     | Resolved r => Ret r
     end,
     {| net := net w; log := log w ++ [req] |}).

(** The HTTP response a handler returns.  [Json v] is a body made by
    [JSON.stringify(v)]; [headers] is the object given as [headers] in
    the init of the response. *)
Inductive payload : Type :=
| Json (v : value)
| Binary (bytes : list byte).

Record Response : Type := {
  status : nat;
  headers : list (string * string);
  body : payload
}.

End Net.

Import Net.

Declare Scope js_scope.
Delimit Scope js_scope with js.
Notation "x <- m ;; k" := (bind m (fun x => k))
  (at level 61, m at next level, right associativity) : js_scope.
Local Open Scope js_scope.

(* ================================================================== *)
(** * The handlers of [endpoints/analysis.ts] *)
(* ================================================================== *)

(** [request.json()] and the [contentMode] parameter of the URL. *)
Record Request : Type := {
  req_json : outcome value;
  req_contentMode : option string
}.

(** The two credentials of [env]: strings, [VUndef] when one is not
    configured. *)
Record Env : Type := {
  GEMINI_API_KEY : value;
  ELEVENLABS_API_KEY : value
}.

(** [{ ...corsHeaders, 'Content-Type': contentType }]: the object the
    handlers give as [headers] to [new Response].  It is an object
    literal, whose property names are compared as they are written;
    what the [Headers] of the response make of it, where names are
    compared without their case, is not modelled. *)
Fixpoint set_header (k v : string) (hs : list (string * string))
  : list (string * string) :=
  match hs with
  | [] => [(k, v)]
  | (k', v') :: rest =>
      if String.eqb k k' then (k, v) :: rest else (k', v') :: set_header k v rest
  end.

(** [new Response(JSON.stringify(v), { status, headers })]. *)
Definition json_response (code : nat) (corsHeaders : list (string * string))
  (v : value) : Response :=
  {| status := code;
     headers := set_header "Content-Type" "application/json" corsHeaders;
     body := Json v |}.

(** What [analyzeWithGemini] returns: [{success: false, error, details}]
    or [{success: true, analysis, expression}]. *)
Inductive AnalysisResult : Type :=
| Failure (error : string) (details : option string)
| Success (analysis expression : string).

(** A decimal fraction as the literal denotes it: the binary64 nearest
    to [a / b]. *)
Definition num_ratio (a b : Z) : number := num_div (num_of_Z a) (num_of_Z b).

Definition nat_to_string (n : nat) : string :=
  NilZero.string_of_uint (Nat.to_uint n).

Definition gemini_url : string :=
  "https://generativelanguage.googleapis.com/v1beta/models/gemini-2.0-flash:generateContent?key=".

Definition default_voice : string := "pNInz6obpgDQGcFmaJgB".

Section Handlers.
Context {rt : Runtime}.

Definition vocabulary_line : string :=
  "1. Start with ONLY ONE emotion word from this list: happy, sad, angry, anxious, worried, confused, neutral, calm, stressed, surprised, fearful, disgusted, content, frustrated, concerned, excited
".

(** The parameters [heartRate] and [breathRate] are declared numbers.
    The one caller of [analyzeWithGemini] has converted both to strings
    on line 31 before it calls: the conversions of this template do not
    throw, and the prompt shows the strings of the readings. *)
Definition buildVisionPrompt (heartRate breathRate : value)
  (contentMode : string) : string :=
  let metrics :=
    ("Heart rate: " ++ string_of heartRate ++ " bpm, Breathing rate: "
     ++ string_of breathRate ++ " breaths/min")%string in
  if String.eqb contentMode "facts" then
    ("You are an emotion analysis assistant for neurodivergent individuals. 
Analyze the person's facial expression in the image along with these biometric readings: "
     ++ metrics ++ ".

CRITICAL INSTRUCTIONS:
" ++ vocabulary_line ++
"2. After the emotion word, add a period, then write ONE very short sentence (max 10 words) with a factual observation

Format: [Emotion]. [Short observation.]

Example: " ++ dq ++ "Anxious. Heart rate elevated, showing signs of stress." ++ dq ++ "
Example: " ++ dq ++ "Calm. Steady breathing indicates relaxation." ++ dq ++ "
Example: " ++ dq ++ "Surprised. Eyes wide, slight elevation in metrics." ++ dq ++ "

Keep it extremely concise.")%string
  else
    ("You are an empathy coach for neurodivergent individuals. 
Analyze the person's facial expression in the image along with these biometric readings: "
     ++ metrics ++ ".

CRITICAL INSTRUCTIONS:
" ++ vocabulary_line ++
"2. After the emotion word, add a period, then write ONE very short actionable suggestion (max 10 words)

Format: [Emotion]. [Short suggestion.]

Example: " ++ dq ++ "Anxious. Slow down and check in with them." ++ dq ++ "
Example: " ++ dq ++ "Happy. Continue current approach, they're comfortable." ++ dq ++ "
Example: " ++ dq ++ "Confused. Clarify or rephrase your last statement." ++ dq ++ "

Keep it extremely concise.")%string.

(** [geminiData.candidates[0]?.content?.parts?.[0]?.text], once
    [geminiData.candidates] is known to be truthy. *)
Definition candidate_text (candidates : value) : outcome value :=
  match get_index candidates 0 with
  | Throw e => Throw e
  | Ret c0 =>
      match get_prop_opt c0 "content" with
      | Throw e => Throw e
      | Ret content =>
          match get_prop_opt content "parts" with
          | Throw e => Throw e
          | Ret parts =>
              match get_index_opt parts 0 with
              | Throw e => Throw e
              | Ret p0 => get_prop_opt p0 "text"
              end
          end
      end
  end.

(** The text of a model response, or [None] when the guard
    [!geminiData.candidates || !...text] rejects it. *)
Definition response_text (geminiData : value) : outcome (option value) :=
  match get_prop geminiData "candidates" with
  | Throw e => Throw e
  | Ret candidates =>
      if negb (truthy candidates) then Ret None
      else match candidate_text candidates with
           | Throw e => Throw e
           | Ret text => Ret (if truthy text then Some text else None)
           end
  end.

(** The key is a string, or [undefined] when it is not configured: its
    conversion in the template of the URL does not throw. *)
Definition gemini_request (env : Env) (parts : list value)
  (temperature : number) (maxOutputTokens : Z) : FetchRequest :=
  {| fr_url := (gemini_url ++ string_of (GEMINI_API_KEY env))%string;
     fr_method := "POST";
     fr_headers := [("Content-Type", VStr "application/json")];
     fr_body :=
       VObj [("contents", VArr [VObj [("parts", VArr parts)]]);
             ("generationConfig",
              VObj [("temperature", VNum temperature);
                    ("maxOutputTokens", VNum (num_of_Z maxOutputTokens))])] |}.

(** The part of the analysis after the first period, when there is
    one: [parts.slice(1).join('.').trim()]. *)
Definition after_first_period (fullText : string) : string :=
  let parts := split is_dot fullText in
  if (1 <? List.length parts)%nat then trim (join "." (tl parts))
  else fullText.

(** The details of a failure are read by no caller; those of a reply
    without a text, [JSON.stringify(geminiData)], are left out. *)
Definition analyzeWithGemini (heartRate breathRate imageBase64 : value)
  (contentMode : string) (env : Env) : M AnalysisResult :=
  try_catch
    (let prompt := buildVisionPrompt heartRate breathRate contentMode in
     let textPart := VObj [("text", VStr prompt)] in
     with_image <- lift (if truthy imageBase64 then
                           match get_prop imageBase64 "length" with
                           | Ret len => gt_zero len
                           | Throw e => Throw e
                           end
                         else Ret false) ;;
     parts <- (if with_image then
                 cleanBase64 <- lift (call_replace_data_url
                                        "imageBase64.replace" imageBase64) ;;
                 ret [textPart;
                      VObj [("inline_data",
                             VObj [("mime_type", VStr "image/jpeg");
                                   ("data", VStr cleanBase64)])]]
               else ret [textPart]) ;;
     geminiResponse <- fetch (gemini_request env parts (num_ratio 7 10) 100) ;;
     let responseText := resp_text geminiResponse in
     if negb (resp_ok geminiResponse) then
       ret (Failure ("Gemini API error: "
                     ++ nat_to_string (resp_status geminiResponse) ++ " "
                     ++ resp_statusText geminiResponse)
              (Some responseText))
     else
       geminiData <- lift (json_parse responseText) ;;
       found <- lift (response_text geminiData) ;;
       match found with
       | None => ret (Failure "Invalid response from Gemini API" None)
       | Some text =>
           fullText <- lift (call_trim
                               "geminiData.candidates[0].content.parts[0].text.trim"
                               text) ;;
           let expression := extractExpression fullText in
           ret (Success (after_first_period fullText) expression)
       end)
    (fun error => ret (Failure (message error) None)).

Definition metrics_of (heartRate breathRate : value) : value :=
  VObj [("heartRate", heartRate); ("breathRate", breathRate)].

(** One entry of [analyses]. *)
Definition analysis_entry (r : AnalysisResult)
  (timestamp heartRate breathRate : value) : value :=
  match r with
  | Failure error _ =>
      VObj [("error", VStr error); ("timestamp", timestamp);
            ("metrics", metrics_of heartRate breathRate)]
  | Success analysis expression =>
      VObj [("analysis", VStr analysis); ("expression", VStr expression);
            ("timestamp", timestamp);
            ("metrics", metrics_of heartRate breathRate)]
  end.

(** The [for] loop of [handleAnalyze], from the element at hand to the
    end of [body]; [analyses] is the array filled so far. *)
Fixpoint analyze_loop (metrics : list value) (contentMode : string)
  (env : Env) (analyses : list value) : M (list value) :=
  match metrics with
  | [] => ret analyses
  | metric :: rest =>
      pulse <- lift (get_prop metric "Pulse") ;;
      let heartRate := or_else pulse (VNum zero) in
      breath <- lift (get_prop metric "Breath") ;;
      let breathRate := or_else breath (VNum zero) in
      time <- lift (get_prop metric "Time") ;;
      let timestamp := or_else time (VNum zero) in
      image <- lift (get_prop metric "Image") ;;
      let imageBase64 := or_else image (VStr "") in
      (* [console.log] of line 31: its template converts the readings *)
      _ <- lift (convert_all [heartRate; breathRate; timestamp]) ;;
      analysisResult <-
        analyzeWithGemini heartRate breathRate imageBase64 contentMode env ;;
      analyze_loop rest contentMode env
        (analyses ++ [analysis_entry analysisResult
                        timestamp heartRate breathRate])
  end.

(** [!Array.isArray(body) || body.length === 0]. *)
Definition not_a_filled_array (body : value) : bool :=
  match body with
  | VArr items => (List.length items =? 0)%nat
  | _ => true
  end.

Definition array_items (body : value) : list value :=
  match body with VArr items => items | _ => [] end.

Definition handleAnalyze (request : Request) (env : Env)
  (corsHeaders : list (string * string)) : M Response :=
  try_catch
    (body <- lift (req_json request) ;;
     if not_a_filled_array body then
       ret (json_response 400 corsHeaders
              (VObj [("error",
                      VStr "Invalid format: expected array of metrics")]))
     else
       let contentMode :=
         match req_contentMode request with
         | Some mode => if is_empty mode then "suggestions" else mode
         | None => "suggestions"
         end in
       analyses <- analyze_loop (array_items body) contentMode env [] ;;
       ret (json_response 200 corsHeaders
              (VObj [("results", VArr analyses);
                     ("totalProcessed",
                      VNum (num_of_nat (List.length (array_items body))))])))
    (fun error =>
       ret (json_response 500 corsHeaders
              (VObj [("error", VStr (message error));
                     ("stack", VStr (stack error))]))).

(** ** Speech *)

(** The request for [text]; [voice] is the string the template of the
    URL has made of the voice. *)
Definition tts_request (voice : string) (text : value) (env : Env)
  : FetchRequest :=
  {| fr_url :=
       ("https://api.elevenlabs.io/v1/text-to-speech/" ++ voice)%string;
     fr_method := "POST";
     fr_headers := [("Content-Type", VStr "application/json");
                    ("xi-api-key", ELEVENLABS_API_KEY env)];
     fr_body :=
       VObj [("text", text);
             ("model_id", VStr "eleven_turbo_v2_5");
             ("voice_settings",
              VObj [("stability", VNum (num_ratio 6 10));
                    ("similarity_boost", VNum (num_ratio 75 100));
                    ("style", VNum zero);
                    ("use_speaker_boost", VBool true)])] |}.

(** [const { text, voice } = body]. *)
Definition destructure_text_voice (body : value) : outcome (value * value) :=
  match body with
  | VUndef | VNull =>
      Throw (TypeError ("Cannot destructure property 'text' of 'body' as it is "
                        ++ kind body ++ "."))
  | _ =>
      match get_prop body "text", get_prop body "voice" with
      | Ret text, Ret voice => Ret (text, voice)
      | Throw e, _ | _, Throw e => Throw e
      end
  end.

Definition handleSingleTTS (body : value) (env : Env)
  (corsHeaders : list (string * string)) : M Response :=
  fields <- lift (destructure_text_voice body) ;;
  let text := fst fields in
  let voice := snd fields in
  if negb (truthy text) then
    ret (json_response 400 corsHeaders
           (VObj [("error", VStr "Text is required")]))
  else
    let voiceId := or_else voice (VStr default_voice) in
    url_voice <- lift (to_string voiceId) ;;
    elevenLabsResponse <- fetch (tts_request url_voice text env) ;;
    if negb (resp_ok elevenLabsResponse) then
      let errorText := resp_text elevenLabsResponse in
      throw (Error ("ElevenLabs API error: "
                    ++ resp_statusText elevenLabsResponse
                    ++ " - " ++ errorText))
    else
      let audioBuffer := resp_arrayBuffer elevenLabsResponse in
      ret {| status := 200;
             headers := set_header "Content-Type" "audio/mpeg" corsHeaders;
             body := Binary audioBuffer |}.

(** The body of the [try] in the loop of [handleBatchTTS], with its
    [catch]: the entry pushed for an item that has a text. *)
Definition synthesize (text voice timestamp : value) (env : Env) : M value :=
  try_catch
    (url_voice <- lift (to_string voice) ;;
     elevenLabsResponse <- fetch (tts_request url_voice text env) ;;
     if negb (resp_ok elevenLabsResponse) then
       let errorText := resp_text elevenLabsResponse in
       ret (VObj [("error",
                   VStr ("ElevenLabs API error: "
                         ++ resp_statusText elevenLabsResponse));
                  ("details", VStr errorText);
                  ("timestamp", timestamp)])
     else
       let audioBuffer := resp_arrayBuffer elevenLabsResponse in
       let base64Audio := arrayBufferToBase64 audioBuffer in
       ret (VObj [("audio", VStr base64Audio);
                  ("timestamp", timestamp);
                  ("contentType", VStr "audio/mpeg")]))
    (fun error =>
       (* [console.error] of line 389 *)
       _ <- lift (convert_all [timestamp]) ;;
       ret (VObj [("error", VStr (message error));
                  ("timestamp", timestamp)])).

Definition text_required (timestamp : value) : value :=
  VObj [("error", VStr "Text is required"); ("timestamp", timestamp)].

(** The [for] loop of [handleBatchTTS]. *)
Fixpoint tts_loop (texts : list value) (env : Env)
  (audioResults : list value) : M (list value) :=
  match texts with
  | [] => ret audioResults
  | item :: rest =>
      text <- lift (get_prop item "text") ;;
      v <- lift (get_prop item "voice") ;;
      let voice := or_else v (VStr default_voice) in
      t <- lift (get_prop item "timestamp") ;;
      let timestamp := or_else t (VNum zero) in
      if negb (truthy text) then
        tts_loop rest env (audioResults ++ [text_required timestamp])
      else
        (* [console.log] of line 343, before the [try] *)
        _ <- lift (convert_all [timestamp]) ;;
        entry <- synthesize text voice timestamp env ;;
        tts_loop rest env (audioResults ++ [entry])
  end.

Definition handleBatchTTS (texts : list value) (env : Env)
  (corsHeaders : list (string * string)) : M Response :=
  if (List.length texts =? 0)%nat then
    ret (json_response 400 corsHeaders
           (VObj [("error", VStr "No texts provided")]))
  else
    audioResults <- tts_loop texts env [] ;;
    ret (json_response 200 corsHeaders
           (VObj [("results", VArr audioResults);
                  ("totalProcessed", VNum (num_of_nat (List.length texts)))])).

Definition handleTTS (request : Request) (env : Env)
  (corsHeaders : list (string * string)) : M Response :=
  body <- lift (req_json request) ;;
  if is_array body then handleBatchTTS (array_items body) env corsHeaders
  else handleSingleTTS body env corsHeaders.

(** ** Summary *)

(** The closure mapped over [body] to build [eventsSummary]. *)
Definition event_line (metric : value) : M string :=
  pulse <- lift (get_prop metric "Pulse") ;;
  let hr := or_else pulse (VStr "N/A") in
  breath <- lift (get_prop metric "Breath") ;;
  let br := or_else breath (VStr "N/A") in
  t <- lift (get_prop metric "Time") ;;
  fixed <- lift (call_toFixed_opt "metric.Time?.toFixed" t 2) ;;
  let time := or_else fixed (VStr "N/A") in
  time_text <- lift (to_string time) ;;
  hr_text <- lift (to_string hr) ;;
  br_text <- lift (to_string br) ;;
  ret ("Time " ++ time_text ++ "s: HR " ++ hr_text
       ++ "bpm, BR " ++ br_text ++ "/min")%string.

Fixpoint map_M {A B} (f : A -> M B) (l : list A) : M (list B) :=
  match l with
  | [] => ret []
  | x :: rest => y <- f x ;; ys <- map_M f rest ;; ret (y :: ys)
  end.

(** [m.Pulse || 0]. *)
Definition pulse_or_zero (m : value) : M value :=
  pulse <- lift (get_prop m "Pulse") ;;
  ret (or_else pulse (VNum zero)).

(** [body.reduce((sum, m) => sum + (m.Pulse || 0), 0)], from the
    element at hand on. *)
Fixpoint reduce_sum (metrics : list value) (sum : value) : M value :=
  match metrics with
  | [] => ret sum
  | m :: rest =>
      p <- pulse_or_zero m ;;
      sum' <- lift (add sum p) ;;
      reduce_sum rest sum'
  end.

Definition placeholder_summary : value :=
  VObj [("summary", VStr "No data was collected during this session.")].

Definition summaryPrompt (eventsSummary : string) (count : nat)
  (seconds average : string) (minHeartRate maxHeartRate : number) : string :=
  ("You are a compassionate conversation analyst helping neurodivergent individuals. 
A person just completed a conversation where their biometric data was tracked. Here are the readings:

" ++ eventsSummary ++ "

Statistics:
- Session duration: " ++ num_to_string (num_of_nat count)
   ++ " data points collected over " ++ seconds ++ " seconds
- Average heart rate: " ++ average ++ " bpm
- Heart rate range: " ++ num_to_string minHeartRate ++ "-"
   ++ num_to_string maxHeartRate ++ " bpm

Provide a supportive 3-4 sentence summary that includes:
1. Overall patterns observed during the conversation (e.g., stable, fluctuating, trending up/down)
2. Any notable moments where metrics changed significantly
3. One constructive suggestion for navigating similar conversations in the future

Be kind, encouraging, and practical.")%string.

Definition handleSummary (request : Request) (env : Env)
  (corsHeaders : list (string * string)) : M Response :=
  body <- lift (req_json request) ;;
  if not_a_filled_array body then
    ret (json_response 200 corsHeaders placeholder_summary)
  else
    let metrics := array_items body in
    let count := List.length metrics in
    lines <- map_M event_line metrics ;;
    let eventsSummary := join "
" lines in
    sum <- reduce_sum metrics (VNum zero) ;;
    avgHeartRate <- lift (divide sum (num_of_nat count)) ;;
    pulses <- map_M pulse_or_zero metrics ;;
    maxHeartRate <- lift (math_max pulses) ;;
    pulses' <- map_M pulse_or_zero metrics ;;
    minHeartRate <- lift (math_min pulses') ;;
    let last := nth (count - 1) metrics VUndef in
    duration <- lift (get_prop last "Time") ;;
    seconds <- lift (call_toFixed "body[body.length - 1].Time.toFixed"
                       duration 0) ;;
    let prompt :=
      summaryPrompt eventsSummary count seconds (toFixed avgHeartRate 1)
        minHeartRate maxHeartRate in
    geminiResponse <-
      fetch (gemini_request env [VObj [("text", VStr prompt)]]
               (num_ratio 8 10) 300) ;;
    if negb (resp_ok geminiResponse) then
      let errorText := resp_text geminiResponse in
      throw (Error ("Gemini API error: " ++ resp_statusText geminiResponse
                    ++ " - " ++ errorText))
    else
      geminiData <- lift (json_parse (resp_text geminiResponse)) ;;
      found <- lift (response_text geminiData) ;;
      match found with
      | None => throw (Error "Invalid response from Gemini API")
      | Some summary =>
          duration' <- lift (get_prop last "Time") ;;
          ret (json_response 200 corsHeaders
                 (VObj [("summary", summary);
                        ("eventCount", VNum (num_of_nat count));
                        ("duration", duration');
                        ("statistics",
                         VObj [("avgHeartRate", VStr (toFixed avgHeartRate 1));
                               ("maxHeartRate", VNum maxHeartRate);
                               ("minHeartRate", VNum minHeartRate)])]))
      end.

(** ** The routes of [index.ts] *)

(** [c.json(v, code)]. *)
Definition c_json (v : value) (code : nat) : Response :=
  {| status := code;
     headers := [("Content-Type", "application/json")];
     body := Json v |}.

Definition error_body (error : exn) : value :=
  VObj [("error", VStr (message error))].

Definition post_analyze (request : Request) (env : Env) : M Response :=
  try_catch (handleAnalyze request env [])
    (fun error => ret (c_json (error_body error) 500)).

Definition post_tts (request : Request) (env : Env) : M Response :=
  try_catch (handleTTS request env [])
    (fun error => ret (c_json (error_body error) 500)).

Definition post_summary (request : Request) (env : Env) : M Response :=
  try_catch (handleSummary request env [])
    (fun error => ret (c_json (error_body error) 500)).

End Handlers.

(* ================================================================== *)
(** * The data model of the specification, and a runtime for examples *)
(* ================================================================== *)

(** The field [k] of a sample, [None] when it is absent.  Values that
    are not objects have no field. *)
Definition field (k : string) (v : value) : option value :=
  match v with
  | VObj fields => lookup k fields
  | _ => None
  end.

(** A number that [JSON.parse] can produce. *)
Definition json_number (x : number) : Prop := is_nan x = false.

(** The field [k] is absent or holds a number. *)
Definition number_or_absent (k : string) (v : value) : Prop :=
  match field k v with
  | None => True
  | Some (VNum x) => json_number x
  | Some _ => False
  end.

(** An element on which property reads do not throw. *)
Definition readable (v : value) : Prop := nullish v = false.

(** Reading [k] from [v] gives [undefined]: the field is missing. *)
Definition missing (k : string) (v : value) : Prop :=
  get_prop v k = Ret VUndef.

(** What reading [k] from [v] gives, [undefined] where the read throws. *)
Definition peek (v : value) (k : string) : value :=
  match get_prop v k with Ret x => x | Throw _ => VUndef end.

(** An element the loop of [handleAnalyze] gets past: it is not null,
    and its readings and its time convert to strings, as every number,
    string and boolean does. *)
Definition analysable (metric : value) : Prop :=
  readable metric
  /\ convertible (or_else (peek metric "Pulse") (VNum zero)) = true
  /\ convertible (or_else (peek metric "Breath") (VNum zero)) = true
  /\ convertible (or_else (peek metric "Time") (VNum zero)) = true.

(** The entry pushed for [metric], whatever its analysis gave. *)
Definition pushed_for (metric entry : value) : Prop :=
  exists r,
    entry = analysis_entry r
              (or_else (peek metric "Time") (VNum zero))
              (or_else (peek metric "Pulse") (VNum zero))
              (or_else (peek metric "Breath") (VNum zero)).

(** The entry of [metric] carries its readings, 0 for one that is
    absent or falsy, and either an error or an analysis with its
    expression. *)
Definition echoes (metric entry : value) : Prop :=
  field "metrics" entry
  = Some (VObj [("heartRate", or_else (peek metric "Pulse") (VNum zero));
                ("breathRate", or_else (peek metric "Breath") (VNum zero))])
  /\ ((exists error,
          field "error" entry = Some (VStr error)
          /\ field "analysis" entry = None)
      \/ (exists analysis expression,
             field "analysis" entry = Some (VStr analysis)
             /\ field "expression" entry = Some (VStr expression)
             /\ field "error" entry = None)).

(** [timestamp] echoes the [Time] of [metric]: it is 0 when the field is
    absent, the field itself when it is truthy, and 0 when it is there
    and falsy. *)
Definition time_echo (metric timestamp : value) : Prop :=
  match field "Time" metric with
  | None => timestamp = VNum zero
  | Some v => timestamp = if truthy v then v else VNum zero
  end.

(** The results of an analysis echo the input: one entry per element,
    at the index of the element. *)
Definition results_echo (items results : list value) : Prop :=
  List.length results = List.length items
  /\ forall i item,
      nth_error items i = Some item ->
      exists entry timestamp,
        nth_error results i = Some entry
        /\ echoes item entry
        /\ field "timestamp" entry = Some timestamp
        /\ time_echo item timestamp.

(** The array under [results] in the JSON body of an answer, if there
    is one. *)
Definition results_of (o : outcome Response) : option (list value) :=
  match o with
  | Ret {| body := Json v |} =>
      match get_prop v "results" with
      | Ret (VArr results) => Some results
      | _ => None
      end
  | _ => None
  end.

(** A batch item with a text. *)
Definition has_text (item : value) : Prop :=
  exists text, get_prop item "text" = Ret text /\ truthy text = true.

(** [item.voice || 'pNInz6obpgDQGcFmaJgB']. *)
Definition voice_of (item : value) : value :=
  or_else (peek item "voice") (VStr default_voice).

(** [item.timestamp || 0]. *)
Definition timestamp_of (item : value) : value :=
  or_else (peek item "timestamp") (VNum zero).

(** A batch item the loop can serve: it has a text, and its voice and
    its timestamp convert to strings, as every string and number
    does. *)
Definition valid_item (item : value) : Prop :=
  has_text item
  /\ convertible (voice_of item) = true
  /\ convertible (timestamp_of item) = true.

(** The call [handleBatchTTS] makes for [item]. *)
Definition request_of {rt : Runtime} (env : Env) (item : value) : FetchRequest :=
  tts_request (string_of (voice_of item)) (peek item "text") env.

(** [entry] is the error entry of an item without text. *)
Definition is_text_error (timestamp entry : value) : Prop :=
  entry = VObj [("error", VStr "Text is required"); ("timestamp", timestamp)].

(** [entry] is an audio entry for [bytes]: its audio is a Base64 text
    that decodes to them. *)
Definition is_audio_entry (bytes : list byte) (timestamp entry : value)
  : Prop :=
  exists audio,
    entry = VObj [("audio", VStr audio);
                  ("timestamp", timestamp);
                  ("contentType", VStr "audio/mpeg")]
    /\ Base64.decode audio = Some bytes.

(** The upstream answers every call for [item] with success. *)
Definition served {rt : Runtime} (net0 : nat -> FetchRequest -> fetch_outcome)
  (env : Env) (item : value) : Prop :=
  forall n, exists r,
    net0 n (request_of env item) = Resolved r /\ resp_ok r = true.

(** A computation that makes no upstream call: its outcome does not
    depend on the world, which it leaves as it was. *)
Definition stateless {A} (m : M A) : Prop :=
  exists o, forall w, m w = (o, w).

(** The element [body[body.length - 1]] has a number as its [Time]. *)
Definition numeric_time (v : value) : Prop :=
  exists x, get_prop v "Time" = Ret (VNum x).

(** The pulse of a sample: 0 when it is missing; a zero of either sign
    reads as 0. *)
Definition pulse_value (m : value) : number :=
  match field "Pulse" m with
  | Some (VNum x) => if is_zero x then zero else x
  | _ => zero
  end.

(** The mean of binary64 numbers: their sum from left to right, divided
    by their count. *)
Definition mean (ps : list number) : number :=
  num_div (fold_left num_add ps zero) (num_of_nat (List.length ps)).

(** [m] is an element of [ps] that no element exceeds, and conversely. *)
Definition is_maximum (ps : list number) (m : number) : Prop :=
  In m ps /\ forall p, In p ps -> num_le p m = true.

Definition is_minimum (ps : list number) (m : number) : Prop :=
  In m ps /\ forall p, In p ps -> num_le m p = true.

(** The statistics of a summary over the pulses [ps]: their mean as
    text with one decimal, their maximum and their minimum as numbers. *)
Definition statistics_ok {rt : Runtime} (ps : list number) (stats : value)
  : Prop :=
  exists maxHeartRate minHeartRate,
    stats = VObj [("avgHeartRate", VStr (toFixed (mean ps) 1));
                  ("maxHeartRate", VNum maxHeartRate);
                  ("minHeartRate", VNum minHeartRate)]
    /\ is_maximum ps maxHeartRate
    /\ is_minimum ps minHeartRate.

(** The object under [statistics] in the JSON body of an answer, if
    there is one. *)
Definition statistics_of (o : outcome Response) : option value :=
  match o with
  | Ret {| body := Json v |} =>
      match get_prop v "statistics" with
      | Ret (VObj stats) => Some (VObj stats)
      | _ => None
      end
  | _ => None
  end.

(** The answer of the summary handler when all goes well. *)
Definition summary_answer (corsHeaders : list (string * string))
  (count : nat) (summary duration stats : value) : Response :=
  json_response 200 corsHeaders
    (VObj [("summary", summary);
           ("eventCount", VNum (num_of_nat count));
           ("duration", duration);
           ("statistics", stats)]).

(** The items a call is made for: those with a text and a voice that
    converts to a string. *)
Definition called_for (item : value) : bool :=
  truthy (peek item "text") && convertible (voice_of item).

Definition with_call (items : list value) : list value :=
  filter called_for items.

(** An element whose line [handleSummary] renders and whose pulse it
    sums: it is not null, its time is absent or a number, and its pulse
    and its breath convert to strings. *)
Definition renderable (m : value) : Prop :=
  readable m
  /\ number_or_absent "Time" m
  /\ convertible (peek m "Pulse") = true
  /\ convertible (peek m "Breath") = true.

Definition is_object (v : value) : bool :=
  match v with VObj _ => true | _ => false end.

(** [v] is a non-empty array whose elements are all objects. *)
Definition filled_array_of_objects (v : value) : bool :=
  match v with
  | VArr (x :: rest) => forallb is_object (x :: rest)
  | _ => false
  end.

(** The status of the response a handler returned, if it returned. *)
Definition status_of (o : outcome Response) : option nat :=
  match o with Ret r => Some (status r) | Throw _ => None end.

Module Fixture.

(** A string of decimal digits reads as the integer it writes, the
    empty string as 0; the examples read no other string. *)
Fixpoint read_digits (s : string) (acc : Z) : option Z :=
  match s with
  | EmptyString => Some acc
  | String c s' =>
      if ((48 <=? code c) && (code c <=? 57))%nat
      then read_digits s' (10 * acc + Z.of_nat (code c - 48))%Z
      else None
  end.

Definition read_number (s : string) : number :=
  match read_digits s 0 with
  | Some z => num_of_Z z
  | None => NaN
  end.

(** Integers print in decimal; the examples print no other number. *)
Definition print_number (x : number) : string :=
  match x with
  | S754_nan => "NaN"
  | S754_infinity s => if s then "-Infinity" else "Infinity"
  | S754_zero _ => "0"
  | S754_finite s m e =>
      ((if s then "-" else "")
       ++ NilZero.string_of_uint
            (N.to_uint (Z.to_N (if (0 <=? e)%Z then Zpos m * 2 ^ e
                                else Zpos m / 2 ^ (- e)))))%string
  end.

(** The one document the example upstream sends, and its parse. *)
Definition reply_text : string :=
  "{" ++ dq ++ "candidates" ++ dq ++ ":[{" ++ dq ++ "content" ++ dq
  ++ ":{" ++ dq ++ "parts" ++ dq ++ ":[{" ++ dq ++ "text" ++ dq ++ ":"
  ++ dq ++ "Calm. Keep the current pace." ++ dq ++ "}]}}]}".

Definition reply_value : value :=
  VObj [("candidates",
         VArr [VObj [("content",
                      VObj [("parts",
                             VArr [VObj [("text",
                                          VStr "Calm. Keep the current pace.")]])])]])].

Definition parse (s : string) : outcome value :=
  if String.eqb s reply_text then Ret reply_value
  else Throw (SyntaxError "Unexpected token in JSON").

#[export] Instance runtime : Runtime := {|
  num_to_string := print_number;
  string_to_number := read_number;
  json_parse := parse;
  stack := fun e => message e;
  not_callable := fun callee => (callee ++ " is not a function")%string;
  max_arguments := 4096
|}.

Definition audio_bytes : list byte := [x49; x44; x33]%byte.

(** An upstream that answers every call with success. *)
Definition healthy : world :=
  {| net := fun _ _ =>
              Resolved {| resp_ok := true; resp_status := 200;
                          resp_statusText := "OK";
                          resp_text := reply_text;
                          resp_arrayBuffer := audio_bytes |};
     log := [] |}.

(** An upstream that refuses every call. *)
Definition refusing : world :=
  {| net := fun _ _ =>
              Resolved {| resp_ok := false; resp_status := 401;
                          resp_statusText := "Unauthorized";
                          resp_text := "invalid api key";
                          resp_arrayBuffer := [] |};
     log := [] |}.

Definition env : Env :=
  {| GEMINI_API_KEY := VStr "g-key"; ELEVENLABS_API_KEY := VStr "e-key" |}.

Definition sample (pulse breath time : Z) : value :=
  VObj [("Pulse", VNum (num_of_Z pulse));
        ("Breath", VNum (num_of_Z breath));
        ("Time", VNum (num_of_Z time))].

Definition posted (body : value) : Request :=
  {| req_json := Ret body; req_contentMode := None |}.

End Fixture.

(* ================================================================== *)
(** * Notions used by further properties *)
(* ================================================================== *)

(** The entry pushed for a batch item a call is made for, from the
    outcome of that call. *)
Definition entry_of_outcome (o : fetch_outcome) (timestamp : value) : value :=
  match o with
  | Rejected reason =>
      VObj [("error", VStr (message reason)); ("timestamp", timestamp)]
  | Resolved r =>
      if resp_ok r
      then VObj [("audio", VStr (arrayBufferToBase64 (resp_arrayBuffer r)));
                 ("timestamp", timestamp);
                 ("contentType", VStr "audio/mpeg")]
      else VObj [("error",
                  VStr ("ElevenLabs API error: " ++ resp_statusText r));
                 ("details", VStr (resp_text r));
                 ("timestamp", timestamp)]
  end.

(** The entry of the [i]-th item of a batch handled from the world [w].
    An item without text gets the error of the missing text.  An item
    whose voice does not convert gets the message of that TypeError,
    and no call.  The call for any other item comes after the calls
    made for the items before it. *)
Definition batch_entry_at {rt : Runtime} (w : world) (env : Env)
  (items : list value) (i : nat) (item : value) : value :=
  if truthy (peek item "text") then
    if convertible (voice_of item) then
      entry_of_outcome
        (net w (List.length (log w) + List.length (with_call (firstn i items)))
           (request_of env item))
        (timestamp_of item)
    else VObj [("error", VStr (message cannot_convert));
               ("timestamp", timestamp_of item)]
  else VObj [("error", VStr "Text is required");
             ("timestamp", timestamp_of item)].

(** [url.searchParams.get('contentMode') || 'suggestions']. *)
Definition contentMode_of (mode : option string) : string :=
  match mode with
  | Some m => if is_empty m then "suggestions" else m
  | None => "suggestions"
  end.

(** The part that carries an image, its data URL prefix removed. *)
Definition image_part (s : string) : value :=
  VObj [("inline_data",
         VObj [("mime_type", VStr "image/jpeg");
               ("data", VStr (strip_data_url s))])].

(** An image that is falsy, or a string within the length a string can
    have. *)
Definition image_ok (image : value) : Prop :=
  match image with
  | VStr s => (Z.of_nat (String.length s) < 2 ^ 53)%Z
  | v => truthy v = false
  end.

(** The parts of the request of [analyzeWithGemini]: the prompt, and
    the image when there is one. *)
Definition request_parts {rt : Runtime} (heartRate breathRate image : value)
  (contentMode : string) : list value :=
  VObj [("text", VStr (buildVisionPrompt heartRate breathRate contentMode))]
  :: match image with
     | VStr (String _ _ as s) => [image_part s]
     | _ => []
     end.

(** What [analyzeWithGemini] makes of the outcome of its call.  The
    details of a failure are read by no caller; those of a reply without
    a text are left out, as in [analyzeWithGemini]. *)
Definition analysis_of_outcome {rt : Runtime} (o : fetch_outcome)
  : AnalysisResult :=
  match o with
  | Rejected reason => Failure (message reason) None
  | Resolved r =>
      if resp_ok r then
        match json_parse (resp_text r) with
        | Throw e => Failure (message e) None
        | Ret data =>
            match response_text data with
            | Throw e => Failure (message e) None
            | Ret None => Failure "Invalid response from Gemini API" None
            | Ret (Some text) =>
                match call_trim
                        "geminiData.candidates[0].content.parts[0].text.trim"
                        text with
                | Throw e => Failure (message e) None
                | Ret fullText =>
                    Success (after_first_period fullText)
                      (extractExpression fullText)
                end
            end
        end
      else Failure ("Gemini API error: " ++ nat_to_string (resp_status r)
                    ++ " " ++ resp_statusText r)
             (Some (resp_text r))
  end.

(** The call [handleAnalyze] makes for [metric]. *)
Definition analysis_request {rt : Runtime} (env : Env) (contentMode : string)
  (metric : value) : FetchRequest :=
  gemini_request env
    (request_parts (or_else (peek metric "Pulse") (VNum zero))
       (or_else (peek metric "Breath") (VNum zero))
       (or_else (peek metric "Image") (VStr "")) contentMode)
    (num_ratio 7 10) 100.

(** The entry of the [i]-th element of an analysis handled from the
    world [w]: the [i]-th call is the one for it. *)
Definition analysis_entry_at {rt : Runtime} (w : world) (env : Env)
  (contentMode : string) (i : nat) (metric : value) : value :=
  let timestamp := or_else (peek metric "Time") (VNum zero) in
  let metrics :=
    VObj [("heartRate", or_else (peek metric "Pulse") (VNum zero));
          ("breathRate", or_else (peek metric "Breath") (VNum zero))] in
  match analysis_of_outcome
          (net w (List.length (log w) + i)
             (analysis_request env contentMode metric)) with
  | Failure error _ =>
      VObj [("error", VStr error); ("timestamp", timestamp);
            ("metrics", metrics)]
  | Success analysis expression =>
      VObj [("analysis", VStr analysis); ("expression", VStr expression);
            ("timestamp", timestamp); ("metrics", metrics)]
  end.

(** The document of a model reply whose only candidate text is [text]. *)
Definition gemini_reply (text : value) : value :=
  VObj [("candidates",
         VArr [VObj [("content",
                      VObj [("parts", VArr [VObj [("text", text)]])])]])].

(** The parts of the first content of a model request. *)
Definition request_parts_of (req : FetchRequest) : list value :=
  match peek (fr_body req) "contents" with
  | VArr (content :: _) =>
      match peek content "parts" with VArr parts => parts | _ => [] end
  | _ => []
  end.

(** The readings as both prompts show them. *)
Definition metrics_text {rt : Runtime} (heartRate breathRate : value) : string :=
  ("Heart rate: " ++ string_of heartRate ++ " bpm, Breathing rate: "
   ++ string_of breathRate ++ " breaths/min")%string.

(** Every character of [s] satisfies [p]. *)
Fixpoint every (p : ascii -> bool) (s : string) : bool :=
  match s with
  | EmptyString => true
  | String c s' => p c && every p s'
  end.

(** [s] is empty or opens with a character that is not white space. *)
Definition opens_solid (s : string) : Prop :=
  match s with
  | EmptyString => True
  | String c _ => is_space c = false
  end.

(** [s] is empty or opens with a character that is not a lower-case
    letter. *)
Definition opens_with_other (s : string) : Prop :=
  match s with
  | EmptyString => True
  | String c _ => is_lower_letter c = false
  end.

(** A digit of the Base64 alphabet. *)
Definition is_base64_digit (c : ascii) : bool :=
  match Base64.digit_value c with Some _ => true | None => false end.

(** The one call of [handleSummary], for the prompt it has built. *)
Definition summary_request {rt : Runtime} (env : Env) (prompt : string)
  : FetchRequest :=
  gemini_request env [VObj [("text", VStr prompt)]] (num_ratio 8 10) 300.

(** What [handleSummary] makes of the outcome of its call; [answer] is
    the response built around a summary text. *)
Definition summary_of_outcome {rt : Runtime} (answer : value -> Response)
  (o : fetch_outcome) : outcome Response :=
  match o with
  | Rejected reason => Throw reason
  | Resolved r =>
      if resp_ok r then
        match json_parse (resp_text r) with
        | Throw e => Throw e
        | Ret data =>
            match response_text data with
            | Throw e => Throw e
            | Ret None => Throw (Error "Invalid response from Gemini API")
            | Ret (Some summary) => Ret (answer summary)
            end
        end
      else Throw (Error ("Gemini API error: " ++ resp_statusText r
                         ++ " - " ++ resp_text r))
  end.

(** The answer of a route of [index.ts] whose handler threw
    [error]. *)
Definition route_error (error : exn) : Response :=
  c_json (error_body error) 500.

(** The world after one more call. *)
Definition called (w : world) (req : FetchRequest) : world :=
  {| net := net w; log := log w ++ [req] |}.

(** The response of [handleSingleTTS] around the bytes of the audio. *)
Definition audio_response (corsHeaders : list (string * string))
  (bytes : list byte) : Response :=
  {| status := 200;
     headers := set_header "Content-Type" "audio/mpeg" corsHeaders;
     body := Binary bytes |}.

(** What [handleSummary] has computed when it reaches its call: the
    lines, the sum of the pulses and their mean, the pulses with their
    maximum and their minimum, and the duration with its text. *)
Definition summary_computed {rt : Runtime} (items : list value)
  (lines : list string) (sum : value) (avg : number) (pulses : list value)
  (mx mn : number) (duration : value) (seconds : string) : Prop :=
  (forall w, map_M event_line items w = (Ret lines, w))
  /\ (forall w, reduce_sum items (VNum zero) w = (Ret sum, w))
  /\ divide sum (num_of_nat (List.length items)) = Ret avg
  /\ (forall w, map_M pulse_or_zero items w = (Ret pulses, w))
  /\ math_max pulses = Ret mx
  /\ math_min pulses = Ret mn
  /\ get_prop (nth (List.length items - 1) items VUndef) "Time" = Ret duration
  /\ call_toFixed "body[body.length - 1].Time.toFixed" duration 0
     = Ret seconds.

(** The statistics of an answer. *)
Definition statistics_value {rt : Runtime} (avg mx mn : number) : value :=
  VObj [("avgHeartRate", VStr (toFixed avg 1));
        ("maxHeartRate", VNum mx);
        ("minHeartRate", VNum mn)].

(* ================================================================== *)
(** * Properties *)
(* ================================================================== *)

Example extract_anxious :
  extractExpression "Anxious. Slow down and check in with them." = "anxious".
Proof. reflexivity. Qed.

Example extract_scared : extractExpression "scared" = "scared".
Proof. reflexivity. Qed.

(** The words both prompts list are those of [promptVocabulary]. *)
Example prompt_lists_vocabulary :
  vocabulary_line
  = ("1. Start with ONLY ONE emotion word from this list: "
     ++ String.concat ", " promptVocabulary ++ "
")%string.
Proof. reflexivity. Qed.

(** ** Facts on strings *)

Section StringFacts.

Lemma prefix_nil (s : string) : prefix EmptyString s = true.
Proof. destruct s; reflexivity. Qed.

Lemma prefix_cons (a b : ascii) (s t : string) :
  prefix (String a s) (String b t) = true <-> a = b /\ prefix s t = true.
Proof.
  simpl. destruct (ascii_dec a b) as [->|Hab]; split; intros H.
  - now split.
  - now destruct H.
  - discriminate.
  - destruct H as [H _]. contradiction.
Qed.

Lemma prefix_trans (a b c : string) :
  prefix a b = true -> prefix b c = true -> prefix a c = true.
Proof.
  revert b c. induction a as [|x a IH]; intros b c Hab Hbc.
  - apply prefix_nil.
  - destruct b as [|y b]; [discriminate|].
    destruct c as [|z c]; [discriminate|].
    apply prefix_cons in Hab as [-> Hab].
    apply prefix_cons in Hbc as [-> Hbc].
    apply prefix_cons. split; [reflexivity|]. now apply IH with b.
Qed.

Lemma includes_here (s sub : string) :
  prefix sub s = true -> includes s sub = true.
Proof. intros H. destruct s; simpl in *; now rewrite H. Qed.

Lemma includes_later (c : ascii) (s sub : string) :
  includes s sub = true -> includes (String c s) sub = true.
Proof.
  intros H. cbn [includes]. destruct (prefix sub (String c s)); auto.
Qed.

Lemma includes_inv (c : ascii) (s sub : string) :
  includes (String c s) sub = true ->
  prefix sub (String c s) = true \/ includes s sub = true.
Proof.
  cbn [includes]. destruct (prefix sub (String c s)); auto.
Qed.

(** A substring of a prefix of [s] is a substring of [s]. *)
Lemma includes_of_prefix (t s sub : string) :
  prefix t s = true -> includes t sub = true -> includes s sub = true.
Proof.
  revert s. induction t as [|c t IH]; intros s Hts Hsub.
  - apply includes_here. destruct sub; [apply prefix_nil|discriminate].
  - destruct s as [|d s]; [discriminate|].
    apply prefix_cons in Hts as [<- Hts].
    apply includes_inv in Hsub as [Hp|Hl].
    + apply includes_here. eapply prefix_trans; [exact Hp|].
      apply prefix_cons. now split.
    + apply includes_later. now apply IH.
Qed.

Lemma includes_trimStart (s sub : string) :
  includes (trimStart s) sub = true -> includes s sub = true.
Proof.
  induction s as [|c s IH]; [trivial|].
  cbn [trimStart]. destruct (is_space c); [|trivial].
  intros H. apply includes_later. now apply IH.
Qed.

Lemma prefix_trimEnd (s : string) : prefix (trimEnd s) s = true.
Proof.
  induction s as [|c s IH]; [reflexivity|].
  cbn [trimEnd]. destruct (is_space c && is_empty (trimEnd s)).
  - apply prefix_nil.
  - apply prefix_cons. now split.
Qed.

Lemma includes_trim (s sub : string) :
  includes (trim s) sub = true -> includes s sub = true.
Proof.
  intros H. apply includes_trimStart.
  eapply includes_of_prefix; [apply prefix_trimEnd|exact H].
Qed.

Lemma prefix_split_head (sep : ascii -> bool) (s : string) :
  prefix (split_head sep s) s = true.
Proof.
  induction s as [|c s IH]; [reflexivity|].
  cbn [split_head]. destruct (sep c).
  - apply prefix_nil.
  - apply prefix_cons. now split.
Qed.

Lemma mem_In (x : string) (l : list string) : mem x l = true <-> In x l.
Proof.
  unfold mem. rewrite existsb_exists. split.
  - intros (y & Hy & E). apply String.eqb_eq in E. now subst.
  - intros H. exists x. split; [assumption|apply String.eqb_refl].
Qed.

Lemma includes_append (a s b : string) : includes (a ++ s ++ b) s = true.
Proof.
  induction a as [|c a IH]; simpl append.
  - apply includes_here. induction s as [|c s IHs]; [apply prefix_nil|].
    simpl append. apply prefix_cons. now split.
  - now apply includes_later.
Qed.

End StringFacts.

(** ** Expression extraction *)

Lemma find_first_occurring (l : list string) (text k : string) :
  find (fun e => includes text e) l = Some k -> first_occurring l text k.
Proof.
  induction l as [|x l IH]; [discriminate|].
  cbn [find]. destruct (includes text x) eqn:Hx.
  - intros [= <-]. exists [], l. repeat split; [assumption|]. now intros k' [].
  - intros H. destruct (IH H) as (b & a & -> & Hk & Hb).
    exists (x :: b), a. repeat split; [assumption|].
    intros k' [<-|Hin]; auto.
Qed.

Lemma find_none_occurring (l : list string) (text : string) :
  find (fun e => includes text e) l = None -> none_occurring l text.
Proof.
  intros H k Hk. exact (find_none _ _ H k Hk).
Qed.

Lemma scan_In (text k : string) : scan text = Some k -> In k emotionKeywords.
Proof. intros H. now apply find_some in H. Qed.

Lemma scan_includes (text k : string) :
  scan text = Some k -> includes text k = true.
Proof. intros H. now apply find_some in H. Qed.

Lemma promptVocabulary_incl : incl promptVocabulary emotionKeywords.
Proof.
  intros w H. unfold promptVocabulary in H. unfold emotionKeywords.
  repeat (destruct H as [<-|H]; [simpl; tauto|]). destruct H.
Qed.

(** A keyword, a period, anything: the first strategy answers. *)
Lemma extractExpression_cue (w rest : string) :
  In w emotionKeywords -> extractExpression (w ++ "." ++ rest) = w.
Proof.
  intros H. unfold emotionKeywords in H.
  repeat (destruct H as [<-|H]; [vm_compute; reflexivity|]). destruct H.
Qed.

Lemma extractExpression_default (text : string) :
  none_occurring emotionKeywords (toLowerCase text) ->
  extractExpression text = "neutral".
Proof.
  intros Hnone. unfold extractExpression.
  set (lowerText := trim (toLowerCase text)).
  assert (Hlow : none_occurring emotionKeywords lowerText).
  { intros k Hk. destruct (includes lowerText k) eqn:E; [|reflexivity].
    apply includes_trim in E. now rewrite (Hnone k Hk) in E. }
  destruct (mem _ emotionKeywords) eqn:Hmem.
  - apply mem_In in Hmem. pose proof (Hlow _ Hmem) as E.
    rewrite includes_here in E by apply prefix_split_head. discriminate.
  - destruct (scan (split_head is_dot lowerText)) as [e|] eqn:Hs.
    + pose proof (Hlow _ (scan_In _ _ Hs)) as E.
      rewrite (includes_of_prefix _ _ _ (prefix_split_head _ _)
                 (scan_includes _ _ Hs)) in E. discriminate.
    + destruct (scan lowerText) as [e|] eqn:Hf; [|reflexivity].
      pose proof (Hlow _ (scan_In _ _ Hf)) as E.
      rewrite (scan_includes _ _ Hf) in E. discriminate.
Qed.

Lemma extractExpression_In (text : string) :
  In (extractExpression text) emotionKeywords.
Proof.
  unfold extractExpression.
  destruct (mem _ emotionKeywords) eqn:Hmem; [now apply mem_In|].
  destruct (scan (split_head _ _)) eqn:Hs; [now apply scan_In in Hs|].
  destruct (scan (trim _)) eqn:Hf; [now apply scan_In in Hf|].
  simpl; tauto.
Qed.

Lemma first_occurring_find (l : list string) (text k : string) :
  first_occurring l text k -> find (fun e => includes text e) l = Some k.
Proof.
  intros (before & after & -> & Hk & Hb).
  induction before as [|x b IH]; cbn [app find].
  - now rewrite Hk.
  - rewrite (Hb x) by now left. apply IH. intros k' Hin. apply Hb. now right.
Qed.

Lemma none_occurring_find (l : list string) (text : string) :
  none_occurring l text -> find (fun e => includes text e) l = None.
Proof.
  induction l as [|x l IH]; intros H; [reflexivity|].
  cbn [find]. rewrite (H x) by now left.
  apply IH. intros k Hk. apply H. now right.
Qed.

Lemma not_mem (x : string) (l : list string) : ~ In x l -> mem x l = false.
Proof.
  intros H. destruct (mem x l) eqn:E; [|reflexivity].
  apply mem_In in E. contradiction.
Qed.

(** C2, as amended.  A text that opens with a word of the prompt
    vocabulary and a period is classified as that word; a text whose
    lower-case form contains none of the 22 entries of [emotionKeywords]
    is classified as neutral. *)
Theorem extractExpression_cue_and_default (text : string) :
  (forall w rest : string, In w promptVocabulary -> text = (w ++ "." ++ rest)%string ->
                  extractExpression text = w) /\
  (none_occurring emotionKeywords (toLowerCase text) ->
   extractExpression text = "neutral").
Proof.
  split.
  - intros w rest Hw ->. apply extractExpression_cue.
    now apply promptVocabulary_incl.
  - apply extractExpression_default.
Qed.

Lemma extractExpression_cue_and_default_witness :
  extractExpression "calm. Steady breathing." = "calm" /\
  extractExpression "Nothing to report" = "neutral".
Proof.
  split.
  - apply (proj1 (extractExpression_cue_and_default "calm. Steady breathing."))
      with (rest := " Steady breathing."); [simpl; tauto|reflexivity].
  - apply (proj2 (extractExpression_cue_and_default "Nothing to report")).
    intros k Hk. unfold emotionKeywords in Hk.
    repeat (destruct Hk as [<-|Hk]; [reflexivity|]). destruct Hk.
Defined.

(** C2 as written fails: "scared" contains none of the 16 words of the
    prompt vocabulary, and is not classified as neutral. *)
Lemma extractExpression_default_counterexample :
  none_occurring promptVocabulary (toLowerCase "scared") /\
  extractExpression "scared" = "scared" /\
  extractExpression "scared" <> "neutral".
Proof.
  split; [|split; [reflexivity|discriminate]].
  intros k Hk. unfold promptVocabulary in Hk.
  repeat (destruct Hk as [<-|Hk]; [reflexivity|]). destruct Hk.
Qed.

(** C3, as amended.  The label always belongs to the 22 entries of
    [emotionKeywords], and is chosen by three strategies in order: the
    first token when it is an entry; else the first entry, in list order,
    that occurs in the first sentence; else the first entry that occurs
    in the whole text; else neutral.  All of it on the trimmed lower-case
    text. *)
Theorem extractExpression_strategies (text : string) :
  let lowerText := trim (toLowerCase text) in
  let firstWord := split_head is_word_end lowerText in
  let firstSentence := split_head is_dot lowerText in
  let label := extractExpression text in
  In label emotionKeywords /\
  (In firstWord emotionKeywords -> label = firstWord) /\
  (~ In firstWord emotionKeywords ->
   forall k, first_occurring emotionKeywords firstSentence k -> label = k) /\
  (~ In firstWord emotionKeywords ->
   none_occurring emotionKeywords firstSentence ->
   forall k, first_occurring emotionKeywords lowerText k -> label = k) /\
  (~ In firstWord emotionKeywords ->
   none_occurring emotionKeywords firstSentence ->
   none_occurring emotionKeywords lowerText -> label = "neutral").
Proof.
  intros lowerText firstWord firstSentence label.
  split; [apply extractExpression_In|].
  subst label. unfold extractExpression.
  fold lowerText. fold firstWord. fold firstSentence. unfold scan.
  repeat split.
  - intros H. apply mem_In in H. now rewrite H.
  - intros Hw k Hk. rewrite (not_mem _ _ Hw).
    now rewrite (first_occurring_find _ _ _ Hk).
  - intros Hw Hs k Hk. rewrite (not_mem _ _ Hw).
    rewrite (none_occurring_find _ _ Hs).
    now rewrite (first_occurring_find _ _ _ Hk).
  - intros Hw Hs Hf. rewrite (not_mem _ _ Hw).
    rewrite (none_occurring_find _ _ Hs).
    now rewrite (none_occurring_find _ _ Hf).
Qed.

Lemma extractExpression_strategies_witness :
  extractExpression "Worried, but calm." = "worried" /\
  extractExpression "They look CALM and happy. Fine." = "happy".
Proof.
  split.
  - apply (proj1 (proj2 (extractExpression_strategies "Worried, but calm."))).
    simpl; tauto.
  - apply (proj1 (proj2 (proj2
             (extractExpression_strategies "They look CALM and happy. Fine.")))).
    + cbn. intros H.
      repeat (destruct H as [H|H]; [discriminate H|]). destruct H.
    + exists [], (tl emotionKeywords).
      repeat split. now intros k' [].
Defined.

(** C3 as written fails: the label of "scared" is not one of the 16
    words of the prompt vocabulary. *)
Lemma extractExpression_vocabulary_counterexample :
  extractExpression "scared" = "scared" /\
  ~ In (extractExpression "scared") promptVocabulary.
Proof.
  split; [reflexivity|].
  cbn. intros H.
  repeat (destruct H as [H|H]; [discriminate H|]). destruct H.
Qed.

(** ** Base64 *)

Example btoa_Man : Base64.btoa "Man" = "TWFu".
Proof. reflexivity. Qed.

Example btoa_Ma : Base64.btoa "Ma" = "TWE=".
Proof. reflexivity. Qed.

Example btoa_M : Base64.btoa "M" = "TQ==".
Proof. reflexivity. Qed.

(** The test vectors of RFC 4648, section 10. *)
Example btoa_rfc4648 :
  map Base64.btoa ["f"; "fo"; "foo"; "foob"; "fooba"; "foobar"]
  = ["Zg=="; "Zm8="; "Zm9v"; "Zm9vYg=="; "Zm9vYmE="; "Zm9vYmFy"].
Proof. reflexivity. Qed.

Section Base64Facts.
Import Base64.

Lemma digit_value_digit (s : sextet) : digit_value (digit s) = Some s.
Proof.
  destruct s as [[[[[b5 b4] b3] b2] b1] b0].
  destruct b5, b4, b3, b2, b1, b0; reflexivity.
Qed.

Lemma digit_not_pad (s : sextet) : is_pad (digit s) = false.
Proof.
  destruct s as [[[[[b5 b4] b3] b2] b1] b0].
  destruct b5, b4, b3, b2, b1, b0; reflexivity.
Qed.

Lemma decode_btoa_bounded (n : nat) :
  forall s, String.length s <= n -> decode (btoa s) = Some (octets s).
Proof.
  induction n as [|n IH]; intros s Hlen.
  - destruct s; [reflexivity|simpl in Hlen; lia].
  - destruct s as [|[a0 a1 a2 a3 a4 a5 a6 a7] s]; [reflexivity|].
    destruct s as [|[b0 b1 b2 b3 b4 b5 b6 b7] s].
    { cbn [btoa decode]. rewrite !digit_value_digit. reflexivity. }
    destruct s as [|[c0 c1 c2 c3 c4 c5 c6 c7] s].
    { cbn [btoa decode]. rewrite !digit_value_digit, digit_not_pad.
      reflexivity. }
    cbn [btoa decode]. rewrite !digit_value_digit, !digit_not_pad.
    rewrite IH by (simpl in Hlen; lia). reflexivity.
Qed.

Lemma decode_btoa (s : string) : decode (btoa s) = Some (octets s).
Proof. now apply decode_btoa_bounded with (String.length s). Qed.

Lemma binary_loop (buffer : list byte) (acc : string) :
  fold_left (fun binary b => (binary ++ fromCharCode b)%string) buffer acc
  = (acc ++ string_of_list_ascii (map ascii_of_byte buffer))%string.
Proof.
  revert acc. induction buffer as [|b buffer IH]; intros acc; simpl.
  - clear. induction acc; simpl; congruence.
  - rewrite IH. clear. induction acc; simpl; congruence.
Qed.

Lemma octets_of_bytes (buffer : list byte) :
  octets (string_of_list_ascii (map ascii_of_byte buffer)) = buffer.
Proof.
  unfold octets. rewrite list_ascii_of_string_of_list_ascii.
  rewrite map_map. rewrite <- (map_id buffer) at 2.
  apply map_ext. intros b. apply byte_of_ascii_of_byte.
Qed.

End Base64Facts.

(** C10.  Decoding the text produced by [arrayBufferToBase64] gives the
    bytes back, for every byte array. *)
Theorem arrayBufferToBase64_decode (buffer : list byte) :
  Base64.decode (arrayBufferToBase64 buffer) = Some buffer.
Proof.
  unfold arrayBufferToBase64. rewrite binary_loop. cbn [append].
  rewrite decode_btoa. now rewrite octets_of_bytes.
Qed.

(** ** Running the handlers *)

Example toFixed_80 : toFixed (rt := Fixture.runtime) (num_of_Z 80) 1 = "80.0".
Proof. reflexivity. Qed.

Example toFixed_half :
  toFixed (rt := Fixture.runtime) (num_ratio 1 20) 1 = "0.1"
  /\ toFixed (rt := Fixture.runtime) (num_ratio 3 20) 1 = "0.1"
  /\ toFixed (rt := Fixture.runtime) (num_ratio 5 4) 1 = "1.3"
  /\ toFixed (rt := Fixture.runtime) (num_ratio (-1) 100) 1 = "-0.0"
  /\ toFixed (rt := Fixture.runtime) (num_ratio 1234567 1000) 2 = "1234.57"
  /\ toFixed (rt := Fixture.runtime) (num_ratio 5 2) 0 = "3".
Proof. repeat split; vm_compute; reflexivity. Qed.

Section Running.
Context {rt : Runtime}.

Lemma bind_lift_ret {A B} (a : A) (k : A -> M B) (w : world) :
  bind (lift (Ret a)) k w = k a w.
Proof. reflexivity. Qed.

Lemma bind_lift_throw {A B} (e : exn) (k : A -> M B) (w : world) :
  bind (lift (Throw e)) k w = (Throw e, w).
Proof. reflexivity. Qed.

Lemma bind_run {A B} (m : M A) (k : A -> M B) (w w' : world) (a : A) :
  m w = (Ret a, w') -> bind m k w = k a w'.
Proof. intros H. unfold bind. now rewrite H. Qed.

Lemma bind_run_throw {A B} (m : M A) (k : A -> M B) (w w' : world) (e : exn) :
  m w = (Throw e, w') -> bind m k w = (Throw e, w').
Proof. intros H. unfold bind. now rewrite H. Qed.

Lemma try_catch_run {A} (m : M A) (h : exn -> M A) (w w' : world) (a : A) :
  m w = (Ret a, w') -> try_catch m h w = (Ret a, w').
Proof. intros H. unfold try_catch. now rewrite H. Qed.

Lemma try_catch_run_throw {A} (m : M A) (h : exn -> M A) (w w' : world)
  (e : exn) :
  m w = (Throw e, w') -> try_catch m h w = h e w'.
Proof. intros H. unfold try_catch. now rewrite H. Qed.

(** A [try] whose [catch] returns a value never throws. *)
Lemma try_catch_total {A} (m : M A) (h : exn -> A) (w : world) :
  exists a w', try_catch m (fun e => ret (h e)) w = (Ret a, w').
Proof.
  unfold try_catch. destruct (m w) as [[a|e] w']; eauto.
  exists (h e), w'. reflexivity.
Qed.

Lemma not_a_filled_array_cases (body : value) :
  body = VArr [] \/ is_array body = false -> not_a_filled_array body = true.
Proof. intros [->|H]; [reflexivity|]. destruct body; try reflexivity. discriminate. Qed.

Lemma get_prop_readable (v : value) (k : string) :
  readable v -> exists x, get_prop v k = Ret x.
Proof. destruct v; intros H; try discriminate H; simpl; eauto. Qed.

Lemma get_prop_ret_readable (v x : value) (k : string) :
  get_prop v k = Ret x -> readable v.
Proof. destruct v; intros H; try discriminate H; reflexivity. Qed.

End Running.



(** C8, as amended.  An analysis request whose body is an empty array,
    or is not an array, is answered 400 "Invalid format" and the log of
    upstream calls is left as it was. *)
Theorem handleAnalyze_invalid_format {rt : Runtime} (body : value)
  (mode : option string) (env : Env) (corsHeaders : list (string * string))
  (w : world) :
  body = VArr [] \/ is_array body = false ->
  handleAnalyze {| req_json := Ret body; req_contentMode := mode |}
    env corsHeaders w
  = (Ret (json_response 400 corsHeaders
            (VObj [("error", VStr "Invalid format: expected array of metrics")])),
     w).
Proof.
  intros H. apply not_a_filled_array_cases in H.
  unfold handleAnalyze. apply try_catch_run. cbn [req_json].
  rewrite bind_lift_ret, H. reflexivity.
Qed.

Lemma handleAnalyze_invalid_format_witness :
  status_of (fst (handleAnalyze (rt := Fixture.runtime)
                    (Fixture.posted (VObj [])) Fixture.env [] Fixture.healthy))
  = Some 400.
Proof.
  unfold Fixture.posted.
  rewrite (handleAnalyze_invalid_format (rt := Fixture.runtime) (VObj []) None
             Fixture.env [] Fixture.healthy); [reflexivity|now right].
Defined.

(** C8 as written fails: [[true]] is not a non-empty array of objects,
    yet the handler calls the model once and answers 200. *)
Lemma handleAnalyze_invalid_format_counterexample :
  let body := VArr [VBool true] in
  let run := handleAnalyze (rt := Fixture.runtime) (Fixture.posted body)
               Fixture.env [] Fixture.healthy in
  filled_array_of_objects body = false
  /\ status_of (fst run) = Some 200
  /\ List.length (log (snd run)) = 1.
Proof. vm_compute. repeat split. Qed.

(** ** Speech *)

Section Speech.
Context {rt : Runtime}.

Lemma to_string_convertible (v : value) :
  convertible v = true -> to_string v = Ret (string_of v).
Proof. intros H. unfold to_string. now rewrite H. Qed.

Lemma to_string_inconvertible (v : value) :
  convertible v = false -> to_string v = Throw cannot_convert.
Proof. intros H. unfold to_string. now rewrite H. Qed.

Lemma convert_all_convertible (vs : list value) :
  forallb convertible vs = true -> convert_all vs = Ret tt.
Proof.
  induction vs as [|v vs IH]; [reflexivity|].
  cbn [forallb convert_all]. intros H. apply andb_prop in H as [Hv Hvs].
  rewrite (to_string_convertible _ Hv). now apply IH.
Qed.

Lemma convert_all_inconvertible (vs : list value) :
  forallb convertible vs = false -> convert_all vs = Throw cannot_convert.
Proof.
  induction vs as [|v vs IH]; [discriminate|].
  cbn [forallb convert_all]. intros H.
  destruct (convertible v) eqn:Hv.
  - rewrite (to_string_convertible _ Hv). now apply IH.
  - now rewrite (to_string_inconvertible _ Hv).
Qed.

Lemma destructure_readable (body text voice : value) :
  get_prop body "text" = Ret text -> get_prop body "voice" = Ret voice ->
  destructure_text_voice body = Ret (text, voice).
Proof.
  intros Ht Hv. unfold destructure_text_voice. rewrite Ht, Hv.
  destruct body; try reflexivity; discriminate Ht.
Qed.

Lemma fetch_resolved (req : FetchRequest) (w : world) (r : FetchResponse) :
  net w (List.length (log w)) req = Resolved r ->
  fetch req w = (Ret r, {| net := net w; log := log w ++ [req] |}).
Proof. intros H. unfold fetch. now rewrite H. Qed.

Lemma fetch_rejected (req : FetchRequest) (w : world) (e : exn) :
  net w (List.length (log w)) req = Rejected e ->
  fetch req w = (Throw e, {| net := net w; log := log w ++ [req] |}).
Proof. intros H. unfold fetch. now rewrite H. Qed.

Lemma handleSingleTTS_no_text (body text voice : value) (env : Env)
  (cors : list (string * string)) (w : world) :
  get_prop body "text" = Ret text -> get_prop body "voice" = Ret voice ->
  truthy text = false ->
  handleSingleTTS body env cors w
  = (Ret (json_response 400 cors (VObj [("error", VStr "Text is required")])),
     w).
Proof.
  intros Ht Hv Hfalsy. unfold handleSingleTTS.
  rewrite (destructure_readable _ _ _ Ht Hv), bind_lift_ret.
  cbn [fst snd]. now rewrite Hfalsy.
Qed.

(** With a text, [handleSingleTTS] converts the voice and makes its
    call. *)
Lemma handleSingleTTS_calls (body text voice : value) (id : string)
  (env : Env) (cors : list (string * string)) (w : world) :
  get_prop body "text" = Ret text -> get_prop body "voice" = Ret voice ->
  truthy text = true ->
  to_string (or_else voice (VStr default_voice)) = Ret id ->
  handleSingleTTS body env cors w
  = bind (fetch (tts_request id text env))
      (fun elevenLabsResponse =>
         if negb (resp_ok elevenLabsResponse) then
           throw (Error ("ElevenLabs API error: "
                         ++ resp_statusText elevenLabsResponse
                         ++ " - " ++ resp_text elevenLabsResponse))
         else
           ret {| status := 200;
                  headers := set_header "Content-Type" "audio/mpeg" cors;
                  body := Binary (resp_arrayBuffer elevenLabsResponse) |}) w.
Proof.
  intros Ht Hv Htruthy Hid. unfold handleSingleTTS.
  rewrite (destructure_readable _ _ _ Ht Hv), bind_lift_ret.
  cbn [fst snd]. rewrite Htruthy. cbn [negb].
  now rewrite Hid, bind_lift_ret.
Qed.

Lemma handleSingleTTS_upstream_failure (body text voice : value)
  (id : string) (env : Env) (cors : list (string * string)) (w : world)
  (r : FetchResponse) :
  get_prop body "text" = Ret text -> get_prop body "voice" = Ret voice ->
  truthy text = true ->
  to_string (or_else voice (VStr default_voice)) = Ret id ->
  net w (List.length (log w)) (tts_request id text env) = Resolved r ->
  resp_ok r = false ->
  handleSingleTTS body env cors w
  = (Throw (Error ("ElevenLabs API error: " ++ resp_statusText r
                   ++ " - " ++ resp_text r)),
     {| net := net w; log := log w ++ [tts_request id text env] |}).
Proof.
  intros Ht Hv Htruthy Hid Hnet Hok.
  rewrite (handleSingleTTS_calls _ _ _ _ _ _ _ Ht Hv Htruthy Hid).
  rewrite (bind_run _ _ _ _ _ (fetch_resolved _ _ _ Hnet)).
  now rewrite Hok.
Qed.

End Speech.

(** C7.  A single speech request (a body that is not an array) whose
    text is missing is answered 400 without an upstream call; when the
    speech service answers the call of the handler, made for the text
    and for the string [id] of the voice, with a non-success status, the
    route answers 500 with an error message that contains the upstream
    status text. *)
Theorem post_tts_single_errors {rt : Runtime} (body : value)
  (mode : option string) (env : Env) (w : world) :
  is_array body = false ->
  let request := {| req_json := Ret body; req_contentMode := mode |} in
  (missing "text" body ->
   post_tts request env w
   = (Ret (json_response 400 [] (VObj [("error", VStr "Text is required")])), w))
  /\
  (forall (text voice : value) (id : string) (r : FetchResponse),
      get_prop body "text" = Ret text -> truthy text = true ->
      get_prop body "voice" = Ret voice ->
      to_string (or_else voice (VStr default_voice)) = Ret id ->
      net w (List.length (log w)) (tts_request id text env) = Resolved r ->
      resp_ok r = false ->
      exists msg,
        post_tts request env w
        = (Ret (c_json (VObj [("error", VStr msg)]) 500),
           {| net := net w; log := log w ++ [tts_request id text env] |})
        /\ includes msg (resp_statusText r) = true).
Proof.
  intros Harr request. unfold post_tts, handleTTS. cbn [req_json request].
  split.
  - intros Hmiss.
    destruct (get_prop_readable body "voice"
                (get_prop_ret_readable _ _ _ Hmiss)) as [voice Hv].
    apply try_catch_run. rewrite bind_lift_ret, Harr.
    now apply handleSingleTTS_no_text with VUndef voice.
  - intros text voice id r Ht Htruthy Hv Hid Hnet Hok.
    eexists. split.
    + erewrite try_catch_run_throw.
      2:{ rewrite bind_lift_ret, Harr.
          eapply handleSingleTTS_upstream_failure; eassumption. }
      reflexivity.
    + cbn [message]. apply (includes_append "ElevenLabs API error: ").
Qed.

Lemma post_tts_single_errors_witness :
  status_of (fst (post_tts (rt := Fixture.runtime)
                    (Fixture.posted (VObj [("voice", VStr "v1")]))
                    Fixture.env Fixture.healthy)) = Some 400
  /\ exists msg,
      post_tts (rt := Fixture.runtime)
        (Fixture.posted (VObj [("text", VStr "Hello")]))
        Fixture.env Fixture.refusing
      = (Ret (c_json (VObj [("error", VStr msg)]) 500),
         {| net := net Fixture.refusing;
            log := [tts_request default_voice
                      (VStr "Hello") Fixture.env] |})
      /\ includes msg "Unauthorized" = true.
Proof.
  split.
  - unfold Fixture.posted.
    rewrite (proj1 (post_tts_single_errors (rt := Fixture.runtime)
                      (VObj [("voice", VStr "v1")]) None Fixture.env
                      Fixture.healthy eq_refl)); reflexivity.
  - exact (proj2 (post_tts_single_errors (rt := Fixture.runtime)
                    (VObj [("text", VStr "Hello")]) None Fixture.env
                    Fixture.refusing eq_refl)
             (VStr "Hello") VUndef default_voice _
             eq_refl eq_refl eq_refl eq_refl eq_refl eq_refl).
Defined.

(** ** Analysis *)

Section Analysis.
Context {rt : Runtime}.

Lemma get_prop_peek (v : value) (k : string) :
  readable v -> get_prop v k = Ret (peek v k).
Proof.
  intros H. unfold peek.
  destruct (get_prop_readable v k H) as [x ->]. reflexivity.
Qed.

Lemma analyzeWithGemini_total (heartRate breathRate imageBase64 : value)
  (contentMode : string) (env : Env) (w : world) :
  exists r w',
    analyzeWithGemini heartRate breathRate imageBase64 contentMode env w
    = (Ret r, w').
Proof.
  unfold analyzeWithGemini.
  apply (try_catch_total _ (fun error => Failure (message error) None)).
Qed.

Lemma analysable_converts (metric : value) :
  analysable metric ->
  convert_all [or_else (peek metric "Pulse") (VNum zero);
               or_else (peek metric "Breath") (VNum zero);
               or_else (peek metric "Time") (VNum zero)]
  = Ret tt.
Proof.
  intros (_ & Hp & Hb & Ht). apply convert_all_convertible.
  cbn [forallb]. now rewrite Hp, Hb, Ht.
Qed.

Lemma analysable_dec (metric : value) :
  {analysable metric} + {~ analysable metric}.
Proof.
  unfold analysable, readable.
  destruct (nullish metric); [right; intros (H & _); discriminate H|].
  destruct (convertible (or_else (peek metric "Pulse") (VNum zero)));
    [|right; intros (_ & H & _); discriminate H].
  destruct (convertible (or_else (peek metric "Breath") (VNum zero)));
    [|right; intros (_ & _ & H & _); discriminate H].
  destruct (convertible (or_else (peek metric "Time") (VNum zero)));
    [|right; intros (_ & _ & _ & H); discriminate H].
  now left.
Qed.

(** One turn of the loop on an element it gets past. *)
Lemma analyze_loop_step (metric : value) (rest : list value)
  (contentMode : string) (env : Env) (analyses : list value) (w : world) :
  analysable metric ->
  analyze_loop (metric :: rest) contentMode env analyses w
  = bind (analyzeWithGemini (or_else (peek metric "Pulse") (VNum zero))
            (or_else (peek metric "Breath") (VNum zero))
            (or_else (peek metric "Image") (VStr "")) contentMode env)
      (fun analysisResult =>
         analyze_loop rest contentMode env
           (analyses
            ++ [analysis_entry analysisResult
                  (or_else (peek metric "Time") (VNum zero))
                  (or_else (peek metric "Pulse") (VNum zero))
                  (or_else (peek metric "Breath") (VNum zero))])) w.
Proof.
  intros Hm. pose proof Hm as (Hread & _). cbn [analyze_loop].
  rewrite !(get_prop_peek _ _ Hread), bind_lift_ret.
  rewrite bind_lift_ret, bind_lift_ret, bind_lift_ret.
  now rewrite (analysable_converts _ Hm), bind_lift_ret.
Qed.

(** An element the loop does not get past makes it throw, before any
    call for that element. *)
Lemma analyze_loop_stops (metric : value) (rest : list value)
  (contentMode : string) (env : Env) (analyses : list value) (w : world) :
  ~ analysable metric ->
  exists e,
    analyze_loop (metric :: rest) contentMode env analyses w = (Throw e, w).
Proof.
  intros Hm. cbn [analyze_loop]. destruct (nullish metric) eqn:E.
  - destruct metric; try discriminate E; eexists; reflexivity.
  - rewrite !(get_prop_peek _ _ E), bind_lift_ret.
    rewrite bind_lift_ret, bind_lift_ret, bind_lift_ret.
    rewrite convert_all_inconvertible, bind_lift_throw; [eauto|].
    cbn [forallb]. rewrite andb_true_r.
    destruct (convertible (or_else (peek metric "Pulse") (VNum zero))) eqn:Hp;
      [|reflexivity].
    destruct (convertible (or_else (peek metric "Breath") (VNum zero)))
      eqn:Hb; [|reflexivity].
    destruct (convertible (or_else (peek metric "Time") (VNum zero))) eqn:Ht;
      [|reflexivity].
    elim Hm. now repeat split.
Qed.

Lemma analyze_loop_spec (metrics : list value) (contentMode : string)
  (env : Env) :
  Forall analysable metrics ->
  forall (analyses : list value) (w : world),
  exists results w',
    analyze_loop metrics contentMode env analyses w
    = (Ret (analyses ++ results), w')
    /\ Forall2 pushed_for metrics results.
Proof.
  induction 1 as [|metric rest Hm _ IH]; intros analyses w.
  - exists [], w. rewrite app_nil_r. split; [reflexivity|constructor].
  - rewrite (analyze_loop_step _ _ _ _ _ _ Hm).
    destruct (analyzeWithGemini_total
                (or_else (peek metric "Pulse") (VNum zero))
                (or_else (peek metric "Breath") (VNum zero))
                (or_else (peek metric "Image") (VStr ""))
                contentMode env w) as (r & w1 & Hr).
    rewrite (bind_run _ _ _ _ _ Hr).
    destruct (IH (analyses ++ [analysis_entry r
                    (or_else (peek metric "Time") (VNum zero))
                    (or_else (peek metric "Pulse") (VNum zero))
                    (or_else (peek metric "Breath") (VNum zero))]) w1)
      as (results & w' & Hrun & Hall).
    eexists (_ :: results), w'. split.
    + rewrite Hrun. now rewrite <- app_assoc.
    + constructor; [now exists r|assumption].
Qed.

Lemma Forall2_nth_error {A B} (R : A -> B -> Prop) (l1 : list A)
  (l2 : list B) :
  Forall2 R l1 l2 ->
  forall i a, nth_error l1 i = Some a ->
              exists b, nth_error l2 i = Some b /\ R a b.
Proof.
  induction 1 as [|x y l1 l2 Hxy _ IH]; intros [|i] a Hi; try discriminate.
  - injection Hi as <-. now exists y.
  - now apply IH.
Qed.

(** [metric.Time || 0] echoes the time of the element. *)
Lemma time_or_zero (metric : value) :
  time_echo metric (or_else (peek metric "Time") (VNum zero)).
Proof.
  unfold time_echo, peek, or_else.
  destruct metric as [| | | | |items|fields]; cbn; try reflexivity.
  now destruct (lookup "Time" fields).
Qed.

Lemma pushed_for_echoes (metric entry : value) :
  pushed_for metric entry ->
  echoes metric entry
  /\ field "timestamp" entry
     = Some (or_else (peek metric "Time") (VNum zero)).
Proof.
  intros [[error details|analysis expression] ->]; cbn.
  - repeat split. left. now exists error.
  - repeat split. right. now exists analysis, expression.
Qed.

End Analysis.

Section AnalysisAnswer.
Context {rt : Runtime}.

Lemma get_prop_unreadable (v : value) (k : string) :
  ~ readable v -> get_prop v k = Throw (cannot_read v k).
Proof.
  unfold readable. destruct v; cbn; try reflexivity; intros H; now elim H.
Qed.

(** An element the loop does not get past makes it throw, at that
    element at the latest. *)
Lemma analyze_loop_throws (metrics : list value) (contentMode : string)
  (env : Env) :
  Exists (fun v => ~ analysable v) metrics ->
  forall (analyses : list value) (w : world),
  exists e w', analyze_loop metrics contentMode env analyses w = (Throw e, w').
Proof.
  induction metrics as [|metric rest IH]; intros HEx analyses w.
  - inversion HEx.
  - destruct (analysable_dec metric) as [Hm|Hm].
    + rewrite (analyze_loop_step _ _ _ _ _ _ Hm).
      destruct (analyzeWithGemini_total
                  (or_else (peek metric "Pulse") (VNum zero))
                  (or_else (peek metric "Breath") (VNum zero))
                  (or_else (peek metric "Image") (VStr ""))
                  contentMode env w) as (r & w1 & Hr).
      rewrite (bind_run _ _ _ _ _ Hr). apply IH.
      inversion HEx as [? ? Hhead|? ? Htail]; [now elim Hhead|exact Htail].
    + destruct (analyze_loop_stops metric rest contentMode env analyses w Hm)
        as [e He].
      now exists e, w.
Qed.

Lemma readable_dec (v : value) : {readable v} + {~ readable v}.
Proof. unfold readable. destruct (nullish v); [right|left]; congruence. Qed.

Lemma handleAnalyze_analysable (items : list value) (mode : option string)
  (env : Env) (cors : list (string * string)) (w : world) :
  items <> [] ->
  Forall analysable items ->
  exists results w',
    handleAnalyze {| req_json := Ret (VArr items); req_contentMode := mode |}
      env cors w
    = (Ret (json_response 200 cors
              (VObj [("results", VArr results);
                     ("totalProcessed",
                      VNum (num_of_nat (List.length items)))])), w')
    /\ results_echo items results.
Proof.
  intros Hne Hread.
  set (contentMode := match mode with
                      | Some m => if is_empty m then "suggestions" else m
                      | None => "suggestions"
                      end).
  destruct (analyze_loop_spec items contentMode env Hread [] w)
    as (results & w' & Hrun & Hall).
  exists results, w'. split; [|split].
  - unfold handleAnalyze. apply try_catch_run.
    cbn [req_json req_contentMode]. rewrite bind_lift_ret.
    destruct items as [|x items]; [contradiction|].
    cbn [not_a_filled_array List.length Nat.eqb array_items].
    fold contentMode. now rewrite (bind_run _ _ _ _ _ Hrun).
  - symmetry. eapply Forall2_length. exact Hall.
  - intros i item Hi.
    destruct (Forall2_nth_error _ _ _ Hall i item Hi) as (entry & He & Hpush).
    destruct (pushed_for_echoes _ _ Hpush) as [Hecho Hts].
    exists entry, (or_else (peek item "Time") (VNum zero)).
    split; [exact He|]. split; [exact Hecho|]. split; [exact Hts|].
    apply time_or_zero.
Qed.

Lemma handleAnalyze_stopped (items : list value) (mode : option string)
  (env : Env) (cors : list (string * string)) (w : world) :
  Exists (fun v => ~ analysable v) items ->
  exists error w',
    handleAnalyze {| req_json := Ret (VArr items); req_contentMode := mode |}
      env cors w
    = (Ret (json_response 500 cors
              (VObj [("error", VStr (message error));
                     ("stack", VStr (stack error))])), w').
Proof.
  intros HEx.
  set (contentMode := match mode with
                      | Some m => if is_empty m then "suggestions" else m
                      | None => "suggestions"
                      end).
  destruct (analyze_loop_throws items contentMode env HEx [] w)
    as (error & w' & Hrun).
  exists error, w'. unfold handleAnalyze.
  erewrite try_catch_run_throw; [reflexivity|].
  cbn [req_json req_contentMode]. rewrite bind_lift_ret.
  destruct items as [|x items]; [inversion HEx|].
  cbn [not_a_filled_array List.length Nat.eqb array_items].
  fold contentMode. unfold bind. now rewrite Hrun.
Qed.

End AnalysisAnswer.

(** C1.  For every non-empty input array whose elements are not null
    and have readings and a time that convert to strings, the analysis
    handler answers 200 with one result per element, in the order of
    the input: the i-th result carries the readings of the i-th
    element, with an analysis or with the error of its model call, and
    its timestamp is the time of that element when that is truthy, and
    0 when it is absent or falsy.  With any other element in the array
    the handler answers 500 and no result at all.  Hence, for every
    non-empty input array, the handler answers, and whenever the answer
    carries a result array, the array is such. *)
Theorem handleAnalyze_results {rt : Runtime} (items : list value)
  (mode : option string) (env : Env) (corsHeaders : list (string * string))
  (w : world) :
  items <> [] ->
  let run :=
    handleAnalyze {| req_json := Ret (VArr items); req_contentMode := mode |}
      env corsHeaders w in
  (exists answer, fst run = Ret answer)
  /\ (Forall analysable items ->
      exists results,
        fst run
        = Ret (json_response 200 corsHeaders
                 (VObj [("results", VArr results);
                        ("totalProcessed",
                         VNum (num_of_nat (List.length items)))]))
        /\ results_echo items results)
  /\ (~ Forall analysable items ->
      status_of (fst run) = Some 500 /\ results_of (fst run) = None)
  /\ (forall results,
        results_of (fst run) = Some results -> results_echo items results).
Proof.
  intros Hne run.
  assert (Hgood : Forall analysable items ->
                  exists results,
                    fst run
                    = Ret (json_response 200 corsHeaders
                             (VObj [("results", VArr results);
                                    ("totalProcessed",
                                     VNum (num_of_nat (List.length items)))]))
                    /\ results_echo items results).
  { intros Hread.
    destruct (handleAnalyze_analysable items mode env corsHeaders w Hne Hread)
      as (results & w' & Hrun & Hecho).
    exists results. subst run. now rewrite Hrun. }
  destruct (Forall_Exists_dec analysable analysable_dec items) as [Hread|HEx].
  - destruct (Hgood Hread) as (results & Hrun & Hecho).
    split; [eauto|]. split; [exact Hgood|]. split; [now intros Hnot|].
    intros results' Hres. rewrite Hrun in Hres. cbn in Hres.
    now injection Hres as <-.
  - destruct (handleAnalyze_stopped items mode env corsHeaders w HEx)
      as (error & w' & Hrun).
    assert (E : fst run = Ret (json_response 500 corsHeaders
                                 (VObj [("error", VStr (message error));
                                        ("stack", VStr (stack error))])))
      by (subst run; now rewrite Hrun).
    split; [eauto|]. split; [exact Hgood|].
    split; [intros _; now rewrite E|].
    intros results' Hres. rewrite E in Hres. discriminate Hres.
Qed.

Lemma handleAnalyze_results_witness :
  let items := [Fixture.sample 72 16 3; VObj []] in
  exists results,
    fst (handleAnalyze (rt := Fixture.runtime) (Fixture.posted (VArr items))
           Fixture.env [] Fixture.healthy)
    = Ret (json_response 200 []
             (VObj [("results", VArr results);
                    ("totalProcessed", VNum (num_of_nat 2))]))
    /\ results_echo items results.
Proof.
  intros items.
  apply (handleAnalyze_results (rt := Fixture.runtime) items None Fixture.env
           [] Fixture.healthy).
  - discriminate.
  - repeat constructor.
Defined.

(** C1 as written fails on three arrays.  A
    null element makes the read of [metric.Pulse] throw, and a pulse
    that does not convert makes the template of line 31 throw: the
    [catch] of the handler answers 500 for the whole request, without a
    result array.  A time that is there and falsy is not echoed: the
    timestamp is 0. *)
Lemma handleAnalyze_results_counterexample :
  let answer body :=
    fst (handleAnalyze (rt := Fixture.runtime) (Fixture.posted (VArr body))
           Fixture.env [] Fixture.healthy) in
  (status_of (answer [Fixture.sample 72 16 3; VNull]) = Some 500
   /\ results_of (answer [Fixture.sample 72 16 3; VNull]) = None)
  /\ (status_of (answer [VObj [("Pulse", VObj [("toString", VNum (num_of_Z 1))])]])
      = Some 500
      /\ results_of
           (answer [VObj [("Pulse", VObj [("toString", VNum (num_of_Z 1))])]])
         = None)
  /\ exists entry,
      results_of (answer [VObj [("Time", VStr "")]]) = Some [entry]
      /\ field "Time" (VObj [("Time", VStr "")]) = Some (VStr "")
      /\ field "timestamp" entry = Some (VNum zero).
Proof.
  cbv zeta. split; [|split].
  - vm_compute. split; reflexivity.
  - vm_compute. split; reflexivity.
  - eexists. vm_compute. repeat split; reflexivity.
Qed.

(** ** Batch speech *)

Section Batch.
Context {rt : Runtime}.

Lemma has_text_readable (item : value) : has_text item -> readable item.
Proof. intros (t & H & _). eapply get_prop_ret_readable. exact H. Qed.

Lemma has_text_truthy (item : value) :
  has_text item -> truthy (peek item "text") = true.
Proof. intros (t & H & Ht). unfold peek. now rewrite H. Qed.

Lemma missing_falsy (item : value) :
  missing "text" item -> truthy (peek item "text") = false.
Proof. intros H. unfold peek. now rewrite H. Qed.

Lemma encoded_audio_decodes (bytes : list byte) :
  Base64.decode (arrayBufferToBase64 bytes) = Some bytes.
Proof.
  unfold arrayBufferToBase64. rewrite binary_loop. cbn [append].
  rewrite decode_btoa. now rewrite octets_of_bytes.
Qed.

(** The entry of an item with a text whose timestamp converts: no
    exception leaves the [try]. *)
Lemma synthesize_run (text voice timestamp : value) (env : Env) (w : world) :
  convertible timestamp = true ->
  synthesize text voice timestamp env w
  = if convertible voice then
      (Ret (entry_of_outcome
              (net w (List.length (log w))
                 (tts_request (string_of voice) text env))
              timestamp),
       {| net := net w;
          log := log w ++ [tts_request (string_of voice) text env] |})
    else
      (Ret (VObj [("error", VStr (message cannot_convert));
                  ("timestamp", timestamp)]), w).
Proof.
  intros Hts.
  assert (Hlog : convert_all [timestamp] = Ret tt)
    by (apply convert_all_convertible; cbn [forallb]; now rewrite Hts).
  unfold synthesize, try_catch. destruct (convertible voice) eqn:Hv.
  - rewrite (to_string_convertible _ Hv), bind_lift_ret.
    unfold bind at 1, fetch, entry_of_outcome.
    destruct (net w (List.length (log w))
                (tts_request (string_of voice) text env)) as [reason|r].
    + now rewrite Hlog, bind_lift_ret.
    + now destruct (resp_ok r).
  - rewrite (to_string_inconvertible _ Hv), bind_lift_throw.
    now rewrite Hlog, bind_lift_ret.
Qed.

Lemma with_call_cons (item : value) (items : list value) :
  with_call (item :: items)
  = if called_for item then item :: with_call items else with_call items.
Proof. reflexivity. Qed.

(** One turn of the loop. *)
Lemma tts_loop_step (item : value) (rest : list value) (env : Env)
  (audioResults : list value) (w : world) :
  readable item ->
  tts_loop (item :: rest) env audioResults w
  = if truthy (peek item "text") then
      bind (lift (convert_all [timestamp_of item]))
        (fun _ =>
           bind (synthesize (peek item "text") (voice_of item)
                   (timestamp_of item) env)
             (fun entry => tts_loop rest env (audioResults ++ [entry]))) w
    else
      tts_loop rest env
        (audioResults ++ [text_required (timestamp_of item)]) w.
Proof.
  intros Hitem. cbn [tts_loop].
  rewrite !(get_prop_peek _ _ Hitem).
  rewrite bind_lift_ret, bind_lift_ret, bind_lift_ret.
  fold (timestamp_of item). fold (voice_of item).
  now destruct (truthy (peek item "text")).
Qed.

(** The whole loop, on items that are not null and whose timestamp
    converts when they have a text. *)
Lemma tts_loop_general (env : Env) (texts : list value) :
  Forall readable texts ->
  Forall (fun item => truthy (peek item "text") = true ->
                      convertible (timestamp_of item) = true) texts ->
  forall (audioResults : list value) (w : world),
  exists results w',
    tts_loop texts env audioResults w = (Ret (audioResults ++ results), w')
    /\ net w' = net w
    /\ log w' = log w ++ map (request_of env) (with_call texts)
    /\ List.length results = List.length texts
    /\ forall i item,
        nth_error texts i = Some item ->
        nth_error results i = Some (batch_entry_at w env texts i item).
Proof.
  induction texts as [|item rest IH]; intros Hread Hstamp audioResults w.
  - exists [], w. rewrite !app_nil_r. repeat split.
    intros [|i] item Hi; discriminate Hi.
  - pose proof (Forall_inv Hread) as Hitem.
    pose proof (Forall_inv_tail Hread) as Hrest.
    pose proof (Forall_inv Hstamp) as Hts. cbv beta in Hts.
    pose proof (Forall_inv_tail Hstamp) as Htss.
    rewrite (tts_loop_step _ _ _ _ _ Hitem).
    destruct (truthy (peek item "text")) eqn:Htext.
    + specialize (Hts eq_refl).
      rewrite convert_all_convertible, bind_lift_ret
        by (cbn [forallb]; now rewrite Hts).
      unfold bind at 1. rewrite (synthesize_run _ _ _ _ _ Hts).
      destruct (convertible (voice_of item)) eqn:Hvoice; cbv beta iota.
      * fold (request_of env item).
        set (entry := entry_of_outcome _ _).
        set (w1 := {| net := net w; log := log w ++ [request_of env item] |}).
        destruct (IH Hrest Htss (audioResults ++ [entry]) w1)
          as (results & w' & Hrun & Hnet & Hlog & Hlen & Hnth).
        exists (entry :: results), w'. repeat split.
        -- rewrite Hrun. now rewrite <- app_assoc.
        -- exact Hnet.
        -- rewrite Hlog, with_call_cons. unfold called_for at 1.
           rewrite Htext, Hvoice. cbn [andb log w1 map].
           now rewrite <- app_assoc.
        -- cbn. now rewrite Hlen.
        -- intros [|i] it Hi.
           ++ injection Hi as <-. cbn [nth_error]. f_equal.
              unfold batch_entry_at. rewrite Htext, Hvoice.
              cbn [firstn with_call filter List.length].
              now rewrite Nat.add_0_r.
           ++ cbn [nth_error] in *. rewrite (Hnth i it Hi). f_equal.
              unfold batch_entry_at. cbn [firstn].
              rewrite with_call_cons. unfold called_for at 1.
              rewrite Htext, Hvoice. cbn [andb net log w1 List.length].
              rewrite length_app. cbn [List.length].
              destruct (truthy (peek it "text")); [|reflexivity].
              destruct (convertible (voice_of it)); [|reflexivity].
              do 2 f_equal. lia.
      * set (entry := VObj [("error", VStr (message cannot_convert));
                            ("timestamp", timestamp_of item)]).
        destruct (IH Hrest Htss (audioResults ++ [entry]) w)
          as (results & w' & Hrun & Hnet & Hlog & Hlen & Hnth).
        exists (entry :: results), w'. repeat split.
        -- rewrite Hrun. now rewrite <- app_assoc.
        -- exact Hnet.
        -- rewrite Hlog, with_call_cons. unfold called_for at 1.
           now rewrite Htext, Hvoice.
        -- cbn. now rewrite Hlen.
        -- intros [|i] it Hi.
           ++ injection Hi as <-. cbn [nth_error]. f_equal.
              unfold batch_entry_at. now rewrite Htext, Hvoice.
           ++ cbn [nth_error] in *. rewrite (Hnth i it Hi). f_equal.
              unfold batch_entry_at. cbn [firstn].
              rewrite with_call_cons. unfold called_for at 1.
              now rewrite Htext, Hvoice.
    + destruct (IH Hrest Htss
                  (audioResults ++ [text_required (timestamp_of item)]) w)
        as (results & w' & Hrun & Hnet & Hlog & Hlen & Hnth).
      exists (text_required (timestamp_of item) :: results), w'.
      repeat split.
      * rewrite Hrun. now rewrite <- app_assoc.
      * exact Hnet.
      * rewrite Hlog, with_call_cons. unfold called_for at 1.
        now rewrite Htext.
      * cbn. now rewrite Hlen.
      * intros [|i] it Hi.
        -- injection Hi as <-. cbn [nth_error]. f_equal.
           unfold batch_entry_at. now rewrite Htext.
        -- cbn [nth_error] in *. rewrite (Hnth i it Hi). f_equal.
           unfold batch_entry_at. cbn [firstn].
           rewrite with_call_cons. unfold called_for at 1.
           now rewrite Htext.
Qed.

(** A null item makes the loop throw, at that item at the latest. *)
Lemma tts_loop_throws (env : Env) (texts : list value) :
  Exists (fun v => ~ readable v) texts ->
  forall (audioResults : list value) (w : world),
  exists e w', tts_loop texts env audioResults w = (Throw e, w').
Proof.
  induction texts as [|item rest IH]; intros HEx audioResults w.
  - inversion HEx.
  - destruct (nullish item) eqn:E.
    + cbn [tts_loop].
      rewrite get_prop_unreadable, bind_lift_throw
        by (unfold readable; congruence).
      eauto.
    + assert (Htail : Exists (fun v => ~ readable v) rest)
        by (inversion HEx as [? ? Hhead|? ? Ht]; [now elim Hhead|exact Ht]).
      rewrite (tts_loop_step _ _ _ _ _ E).
      destruct (truthy (peek item "text")); [|now apply IH].
      destruct (convertible (timestamp_of item)) eqn:Hts.
      * rewrite convert_all_convertible, bind_lift_ret
          by (cbn [forallb]; now rewrite Hts).
        unfold bind at 1. rewrite (synthesize_run _ _ _ _ _ Hts).
        destruct (convertible (voice_of item)); cbv beta iota; now apply IH.
      * rewrite convert_all_inconvertible, bind_lift_throw
          by (cbn [forallb]; now rewrite Hts).
        eauto.
Qed.

(** An item with a text whose timestamp does not convert makes the
    loop throw, at that item: the template of line 343 is outside the
    [try]. *)
Lemma tts_loop_aborts (env : Env) (texts : list value) :
  Forall readable texts ->
  Exists (fun item => truthy (peek item "text") = true
                      /\ convertible (timestamp_of item) = false) texts ->
  forall (audioResults : list value) (w : world),
  exists w', tts_loop texts env audioResults w = (Throw cannot_convert, w').
Proof.
  induction texts as [|item rest IH]; intros Hread HEx audioResults w.
  - inversion HEx.
  - rewrite (tts_loop_step _ _ _ _ _ (Forall_inv Hread)).
    pose proof (Forall_inv_tail Hread) as Hrest.
    destruct (truthy (peek item "text")) eqn:Htext.
    + destruct (convertible (timestamp_of item)) eqn:Hts.
      * rewrite convert_all_convertible, bind_lift_ret
          by (cbn [forallb]; now rewrite Hts).
        unfold bind at 1. rewrite (synthesize_run _ _ _ _ _ Hts).
        assert (Htail : Exists (fun item =>
                                  truthy (peek item "text") = true
                                  /\ convertible (timestamp_of item) = false)
                          rest).
        { inversion HEx as [? ? [_ Hbad]|? ? Ht]; [|exact Ht].
          rewrite Hts in Hbad. discriminate Hbad. }
        destruct (convertible (voice_of item)); cbv beta iota;
          now apply IH.
      * rewrite convert_all_inconvertible, bind_lift_throw
          by (cbn [forallb]; now rewrite Hts).
        now exists w.
    + apply IH; [exact Hrest|].
      inversion HEx as [? ? [Hbad _]|? ? Ht]; [|exact Ht].
      rewrite Htext in Hbad. discriminate Hbad.
Qed.

(** All items but the [k]-th pass the filter. *)
Lemma filter_all_but (p : value -> bool) (items : list value) :
  forall k item,
    nth_error items k = Some item -> p item = false ->
    (forall j other, j <> k -> nth_error items j = Some other ->
                     p other = true) ->
    filter p items = firstn k items ++ skipn (S k) items.
Proof.
  induction items as [|x items IH]; intros [|k] item Hk Hp Hothers;
    try discriminate.
  - injection Hk as ->. cbn [filter firstn skipn app]. rewrite Hp.
    clear IH Hp. induction items as [|y items IHi]; [reflexivity|].
    cbn [filter]. rewrite (Hothers 1 y) by (discriminate || reflexivity).
    f_equal. apply IHi. intros [|j] other Hj Hn; [contradiction|].
    apply (Hothers (S (S j)) other); [discriminate|exact Hn].
  - cbn [filter firstn skipn app].
    rewrite (Hothers 0 x) by (discriminate || reflexivity).
    f_equal. apply (IH k item Hk Hp).
    intros j other Hj Hn. apply (Hothers (S j) other); [lia|exact Hn].
Qed.

End Batch.

(** C4.  For a speech request whose body is an array of N items, the
    k-th without a text, while every other item is valid (it has a
    text, and its voice and timestamp convert to strings) and the
    speech service answers the calls for it with success: the answer is
    200 with N results and totalProcessed N; the k-th result is the
    error entry "Text is required" with the timestamp of the item;
    every other result, at the index of its item, is an audio entry
    whose Base64 text decodes to the bytes of the answer to the call
    for that item; and the calls made are those of the other items, in
    order, none for the k-th. *)
Theorem handleBatchTTS_missing_text {rt : Runtime} (items : list value)
  (k : nat) (itemk : value) (mode : option string) (env : Env)
  (corsHeaders : list (string * string)) (w : world) :
  nth_error items k = Some itemk ->
  missing "text" itemk ->
  (forall j item, j <> k -> nth_error items j = Some item ->
                  valid_item item /\ served (net w) env item) ->
  exists results w',
    handleTTS {| req_json := Ret (VArr items); req_contentMode := mode |}
      env corsHeaders w
    = (Ret (json_response 200 corsHeaders
              (VObj [("results", VArr results);
                     ("totalProcessed",
                      VNum (num_of_nat (List.length items)))])), w')
    /\ List.length results = List.length items
    /\ (exists entry,
          nth_error results k = Some entry
          /\ is_text_error (timestamp_of itemk) entry)
    /\ (forall j item,
          j <> k -> nth_error items j = Some item ->
          exists n r entry,
            net w n (request_of env item) = Resolved r
            /\ resp_ok r = true
            /\ nth_error results j = Some entry
            /\ is_audio_entry (resp_arrayBuffer r) (timestamp_of item) entry)
    /\ log w' = log w ++ map (request_of env)
                           (firstn k items ++ skipn (S k) items).
Proof.
  intros Hk Hmiss Hothers.
  assert (Hread : Forall readable items).
  { apply Forall_forall. intros item Hin.
    destruct (In_nth_error _ _ Hin) as [j Hj].
    destruct (Nat.eq_dec j k) as [->|Hjk].
    - rewrite Hk in Hj. injection Hj as <-.
      eapply get_prop_ret_readable. exact Hmiss.
    - now apply has_text_readable, (Hothers j). }
  assert (Hstamp : Forall (fun item => truthy (peek item "text") = true ->
                                       convertible (timestamp_of item) = true)
                     items).
  { apply Forall_forall. intros item Hin Htruthy.
    destruct (In_nth_error _ _ Hin) as [j Hj].
    destruct (Nat.eq_dec j k) as [->|Hjk].
    - rewrite Hk in Hj. injection Hj as <-.
      rewrite (missing_falsy _ Hmiss) in Htruthy. discriminate.
    - now apply (Hothers j). }
  destruct (tts_loop_general env items Hread Hstamp [] w)
    as (results & w' & Hrun & _ & Hlog & Hlen & Hnth).
  exists results, w'. split; [|split; [|split; [|split]]].
  - unfold handleTTS. cbn [req_json]. rewrite bind_lift_ret.
    cbn [is_array array_items]. unfold handleBatchTTS.
    destruct items as [|x items]; [now destruct k|].
    cbn [List.length Nat.eqb]. now rewrite (bind_run _ _ _ _ _ Hrun).
  - exact Hlen.
  - eexists. split; [apply (Hnth k itemk Hk)|].
    unfold batch_entry_at. rewrite (missing_falsy _ Hmiss). reflexivity.
  - intros j item Hjk Hj.
    destruct (Hothers j item Hjk Hj) as [(Htext & Hvoice & _) Hserved].
    destruct (Hserved (List.length (log w)
                       + List.length (with_call (firstn j items))))
      as (r & Hnet & Hok).
    eexists _, r, _. split; [exact Hnet|]. split; [exact Hok|].
    split; [apply (Hnth j item Hj)|].
    unfold batch_entry_at.
    rewrite (has_text_truthy _ Htext), Hvoice, Hnet. cbn [entry_of_outcome].
    rewrite Hok. eexists. split; [reflexivity|].
    apply encoded_audio_decodes.
  - rewrite Hlog. f_equal. f_equal. unfold with_call.
    apply filter_all_but with itemk.
    + exact Hk.
    + unfold called_for. now rewrite (missing_falsy _ Hmiss).
    + intros j other Hjk Hj.
      destruct (Hothers j other Hjk Hj) as [(Htext & Hvoice & _) _].
      unfold called_for. now rewrite (has_text_truthy _ Htext), Hvoice.
Qed.

Lemma handleBatchTTS_missing_text_witness :
  let items := [VObj [("text", VStr "Hello")];
                VObj [("timestamp", VNum (num_of_Z 7))];
                VObj [("text", VStr "Bye"); ("voice", VStr "v2")]] in
  exists results w',
    handleTTS (rt := Fixture.runtime) (Fixture.posted (VArr items))
      Fixture.env [] Fixture.healthy
    = (Ret (json_response 200 []
              (VObj [("results", VArr results);
                     ("totalProcessed", VNum (num_of_nat 3))])), w')
    /\ List.length results = 3
    /\ nth_error results 1
       = Some (VObj [("error", VStr "Text is required");
                     ("timestamp", VNum (num_of_Z 7))])
    /\ List.length (log w') = 2.
Proof.
  intros items.
  destruct (handleBatchTTS_missing_text (rt := Fixture.runtime) items 1
              (VObj [("timestamp", VNum (num_of_Z 7))]) None Fixture.env []
              Fixture.healthy eq_refl eq_refl)
    as (results & w' & Hrun & Hlen & (entry & Hk & Hentry) & _ & Hlog).
  - intros [|[|[|j]]] item Hj Hnth; try contradiction;
      try (destruct j; discriminate Hnth);
      injection Hnth as <-;
      (split; [split; [eexists; split; reflexivity|split; reflexivity]|]);
      intros n; eexists; split; reflexivity.
  - exists results, w'. repeat split; try assumption.
    + rewrite Hk. f_equal. exact Hentry.
    + rewrite Hlog. reflexivity.
Defined.

(** ** Summary *)

Section Summary.
Context {rt : Runtime}.

Lemma stateless_lift {A} (o : outcome A) : stateless (lift o).
Proof. now exists o. Qed.

Lemma stateless_ret {A} (a : A) : stateless (ret a).
Proof. now exists (Ret a). Qed.

Lemma stateless_bind {A B} (m : M A) (k : A -> M B) :
  stateless m -> (forall a, stateless (k a)) -> stateless (bind m k).
Proof.
  intros [o Ho] Hk. destruct o as [a|e].
  - destruct (Hk a) as [o' Ho']. exists o'. intros w.
    unfold bind. now rewrite Ho.
  - exists (Throw e). intros w. unfold bind. now rewrite Ho.
Qed.

Lemma stateless_map_M {A B} (f : A -> M B) (l : list A) :
  (forall x, stateless (f x)) -> stateless (map_M f l).
Proof.
  intros Hf. induction l as [|x l IH]; cbn [map_M].
  - apply stateless_ret.
  - apply stateless_bind; [apply Hf|]. intros y.
    apply stateless_bind; [exact IH|]. intros ys. apply stateless_ret.
Qed.

Lemma stateless_event_line (metric : value) : stateless (event_line metric).
Proof.
  unfold event_line.
  repeat (apply stateless_bind; [apply stateless_lift|intros ?]).
  apply stateless_ret.
Qed.

Lemma stateless_pulse_or_zero (m : value) : stateless (pulse_or_zero m).
Proof.
  unfold pulse_or_zero.
  apply stateless_bind; [apply stateless_lift|intros ?]. apply stateless_ret.
Qed.

Lemma stateless_reduce_sum (metrics : list value) :
  forall sum, stateless (reduce_sum metrics sum).
Proof.
  induction metrics as [|m metrics IH]; intros sum; cbn [reduce_sum].
  - apply stateless_ret.
  - apply stateless_bind; [apply stateless_pulse_or_zero|].
    intros p. apply stateless_bind; [apply stateless_lift|]. apply IH.
Qed.

Lemma call_toFixed_number (callee : string) (v : value) (f : nat)
  (s : string) :
  call_toFixed callee v f = Ret s -> exists x, v = VNum x.
Proof. destruct v; try discriminate. eauto. Qed.

(** Once all that precedes the call is computed, [handleSummary] makes
    its one call, whose outcome decides the result. *)
Lemma handleSummary_tail (items : list value) (mode : option string)
  (env : Env) (cors : list (string * string)) (lines : list string)
  (sum : value) (avg : number) (pulses : list value) (mx mn : number)
  (duration : value) (seconds : string) (w : world) :
  items <> [] ->
  summary_computed items lines sum avg pulses mx mn duration seconds ->
  let prompt :=
    summaryPrompt (join "
" lines) (List.length items) seconds (toFixed avg 1) mn mx in
  handleSummary {| req_json := Ret (VArr items); req_contentMode := mode |}
    env cors w
  = (summary_of_outcome
       (fun summary =>
          summary_answer cors (List.length items) summary duration
            (statistics_value avg mx mn))
       (net w (List.length (log w)) (summary_request env prompt)),
     called w (summary_request env prompt)).
Proof.
  intros Hne (H1 & H2 & Havg & H3 & Hmx & Hmn & Hd & Hf) prompt.
  assert (Hfilled : not_a_filled_array (VArr items) = false)
    by (destruct items; [contradiction|reflexivity]).
  unfold handleSummary. cbn [req_json].
  rewrite bind_lift_ret, Hfilled; cbn [array_items].
  rewrite (bind_run _ _ _ _ _ (H1 w)), (bind_run _ _ _ _ _ (H2 w)).
  rewrite Havg, bind_lift_ret.
  rewrite (bind_run _ _ _ _ _ (H3 w)), Hmx, bind_lift_ret.
  rewrite (bind_run _ _ _ _ _ (H3 w)), Hmn, bind_lift_ret.
  rewrite Hd, bind_lift_ret, Hf, bind_lift_ret.
  fold prompt. fold (summary_request env prompt).
  set (req := summary_request env prompt).
  unfold bind at 1, fetch, called, summary_of_outcome.
  destruct (net w (List.length (log w)) req) as [reason|r];
    [reflexivity|].
  destruct (resp_ok r); cbn [negb]; [|reflexivity].
  destruct (json_parse (resp_text r)) as [data|e];
    [rewrite bind_lift_ret|now rewrite bind_lift_throw].
  destruct (response_text data) as [[summary|]|e];
    [rewrite bind_lift_ret|now rewrite bind_lift_ret
    |now rewrite bind_lift_throw].
  now rewrite bind_lift_ret.
Qed.

(** Past its guard, [handleSummary] throws before its call, leaving
    the world as it was, or computes all that precedes the call. *)
Lemma handleSummary_run (items : list value) (mode : option string)
  (env : Env) (cors : list (string * string)) :
  items <> [] ->
  (exists e, forall w,
      handleSummary {| req_json := Ret (VArr items); req_contentMode := mode |}
        env cors w
      = (Throw e, w))
  \/ (exists lines sum avg pulses mx mn duration seconds,
         summary_computed items lines sum avg pulses mx mn duration seconds).
Proof.
  intros Hne.
  assert (Hfilled : not_a_filled_array (VArr items) = false)
    by (destruct items; [contradiction|reflexivity]).
  destruct (stateless_map_M event_line items stateless_event_line)
    as [[lines|e] H1].
  2:{ left. exists e. intros w. unfold handleSummary. cbn [req_json].
      rewrite bind_lift_ret, Hfilled; cbn [array_items].
      now rewrite (bind_run_throw _ _ _ _ _ (H1 w)). }
  destruct (stateless_reduce_sum items (VNum zero)) as [[sum|e] H2].
  2:{ left. exists e. intros w. unfold handleSummary. cbn [req_json].
      rewrite bind_lift_ret, Hfilled; cbn [array_items].
      rewrite (bind_run _ _ _ _ _ (H1 w)).
      now rewrite (bind_run_throw _ _ _ _ _ (H2 w)). }
  destruct (divide sum (num_of_nat (List.length items))) as [avg|e] eqn:Havg.
  2:{ left. exists e. intros w. unfold handleSummary. cbn [req_json].
      rewrite bind_lift_ret, Hfilled; cbn [array_items].
      rewrite (bind_run _ _ _ _ _ (H1 w)), (bind_run _ _ _ _ _ (H2 w)).
      now rewrite Havg, bind_lift_throw. }
  destruct (stateless_map_M pulse_or_zero items stateless_pulse_or_zero)
    as [[pulses|e] H3].
  2:{ left. exists e. intros w. unfold handleSummary. cbn [req_json].
      rewrite bind_lift_ret, Hfilled; cbn [array_items].
      rewrite (bind_run _ _ _ _ _ (H1 w)), (bind_run _ _ _ _ _ (H2 w)).
      rewrite Havg, bind_lift_ret.
      now rewrite (bind_run_throw _ _ _ _ _ (H3 w)). }
  destruct (math_max pulses) as [mx|e] eqn:Hmx.
  2:{ left. exists e. intros w. unfold handleSummary. cbn [req_json].
      rewrite bind_lift_ret, Hfilled; cbn [array_items].
      rewrite (bind_run _ _ _ _ _ (H1 w)), (bind_run _ _ _ _ _ (H2 w)).
      rewrite Havg, bind_lift_ret.
      rewrite (bind_run _ _ _ _ _ (H3 w)).
      now rewrite Hmx, bind_lift_throw. }
  destruct (math_min pulses) as [mn|e] eqn:Hmn.
  2:{ left. exists e. intros w. unfold handleSummary. cbn [req_json].
      rewrite bind_lift_ret, Hfilled; cbn [array_items].
      rewrite (bind_run _ _ _ _ _ (H1 w)), (bind_run _ _ _ _ _ (H2 w)).
      rewrite Havg, bind_lift_ret.
      rewrite (bind_run _ _ _ _ _ (H3 w)), Hmx, bind_lift_ret.
      rewrite (bind_run _ _ _ _ _ (H3 w)).
      now rewrite Hmn, bind_lift_throw. }
  destruct (get_prop (nth (List.length items - 1) items VUndef) "Time")
    as [duration|e] eqn:Hd.
  2:{ left. exists e. intros w. unfold handleSummary. cbn [req_json].
      rewrite bind_lift_ret, Hfilled; cbn [array_items].
      rewrite (bind_run _ _ _ _ _ (H1 w)), (bind_run _ _ _ _ _ (H2 w)).
      rewrite Havg, bind_lift_ret.
      rewrite (bind_run _ _ _ _ _ (H3 w)), Hmx, bind_lift_ret.
      rewrite (bind_run _ _ _ _ _ (H3 w)), Hmn, bind_lift_ret.
      now rewrite Hd, bind_lift_throw. }
  destruct (call_toFixed "body[body.length - 1].Time.toFixed" duration 0)
    as [seconds|e] eqn:Hf.
  2:{ left. exists e. intros w. unfold handleSummary. cbn [req_json].
      rewrite bind_lift_ret, Hfilled; cbn [array_items].
      rewrite (bind_run _ _ _ _ _ (H1 w)), (bind_run _ _ _ _ _ (H2 w)).
      rewrite Havg, bind_lift_ret.
      rewrite (bind_run _ _ _ _ _ (H3 w)), Hmx, bind_lift_ret.
      rewrite (bind_run _ _ _ _ _ (H3 w)), Hmn, bind_lift_ret.
      now rewrite Hd, bind_lift_ret, Hf, bind_lift_throw. }
  right. exists lines, sum, avg, pulses, mx, mn, duration, seconds.
  now repeat split.
Qed.

(** With a last element whose [Time] is not a number, [handleSummary]
    throws before its [fetch]. *)
Lemma handleSummary_throws (items : list value) (mode : option string)
  (env : Env) (cors : list (string * string)) (w : world) :
  items <> [] ->
  ~ numeric_time (nth (List.length items - 1) items VUndef) ->
  exists error,
    handleSummary {| req_json := Ret (VArr items); req_contentMode := mode |}
      env cors w
    = (Throw error, w).
Proof.
  intros Hne Hlast.
  destruct (handleSummary_run items mode env cors Hne)
    as [[e He]|(lines & sum & avg & pulses & mx & mn & duration & seconds
                & _ & _ & _ & _ & _ & _ & Hd & Hf)].
  - now exists e.
  - exfalso. apply Hlast.
    destruct (call_toFixed_number _ _ _ _ Hf) as [t ->]. now exists t.
Qed.

Lemma or_else_convertible (a b : value) :
  convertible a = true -> convertible b = true ->
  convertible (or_else a b) = true.
Proof. intros Ha Hb. unfold or_else. now destruct (truthy a). Qed.

Lemma renderable_line (metric : value) :
  renderable metric ->
  exists fixed,
    call_toFixed_opt "metric.Time?.toFixed" (peek metric "Time") 2 = Ret fixed
    /\ to_string (or_else fixed (VStr "N/A"))
       = Ret (string_of (or_else fixed (VStr "N/A")))
    /\ (missing "Time" metric -> fixed = VUndef).
Proof.
  intros (Hr & Ht & _). unfold number_or_absent, peek, missing in *.
  destruct metric as [| | | | |items|fields]; try discriminate Hr; cbn;
    try (exists VUndef; split; [reflexivity|]; split; [reflexivity|];
         intros _; reflexivity).
  cbn in Ht.
  destruct (lookup "Time" fields) as [[| | |x| | |]|];
    try contradiction; cbn.
  - eexists. split; [reflexivity|]. split; [|discriminate].
    apply to_string_convertible. now apply or_else_convertible.
  - exists VUndef. split; [reflexivity|]. split; [reflexivity|].
    intros _; reflexivity.
Qed.

(** The line of an element that can be rendered. *)
Lemma event_line_run (metric : value) :
  renderable metric ->
  exists fixed,
    (missing "Time" metric -> fixed = VUndef)
    /\ forall w,
      event_line metric w
      = (Ret ("Time " ++ string_of (or_else fixed (VStr "N/A")) ++ "s: HR "
              ++ string_of (or_else (peek metric "Pulse") (VStr "N/A"))
              ++ "bpm, BR "
              ++ string_of (or_else (peek metric "Breath") (VStr "N/A"))
              ++ "/min")%string, w).
Proof.
  intros Hm. destruct (renderable_line metric Hm) as (fixed & Hf & Hs & Hmiss).
  destruct Hm as (Hr & _ & Hp & Hb).
  exists fixed. split; [exact Hmiss|]. intros w. unfold event_line.
  rewrite !(get_prop_peek _ _ Hr).
  rewrite bind_lift_ret, bind_lift_ret, bind_lift_ret, Hf, bind_lift_ret.
  rewrite Hs, bind_lift_ret.
  rewrite (to_string_convertible _ (or_else_convertible _ (VStr "N/A") Hp eq_refl)).
  rewrite bind_lift_ret.
  rewrite (to_string_convertible _ (or_else_convertible _ (VStr "N/A") Hb eq_refl)).
  now rewrite bind_lift_ret.
Qed.

Lemma event_line_no_time (metric : value) (w : world) :
  renderable metric -> missing "Time" metric ->
  exists rest,
    event_line metric w = (Ret ("Time N/As: HR " ++ rest)%string, w).
Proof.
  intros Hm Hmiss. destruct (event_line_run metric Hm) as (fixed & Hf & Hrun).
  rewrite Hrun, (Hf Hmiss). eexists. reflexivity.
Qed.

Lemma map_event_line_run (metrics : list value) :
  Forall renderable metrics ->
  exists lines, forall w, map_M event_line metrics w = (Ret lines, w).
Proof.
  induction metrics as [|m metrics IH]; intros Hr.
  - now exists [].
  - destruct (event_line_run m (Forall_inv Hr)) as (fixed & _ & Hl).
    destruct (IH (Forall_inv_tail Hr)) as [lines Hls].
    eexists (_ :: lines). intros w. cbn [map_M].
    rewrite (bind_run _ _ _ _ _ (Hl w)).
    now rewrite (bind_run _ _ _ _ _ (Hls w)).
Qed.

Lemma pulse_or_zero_peek (m : value) (w : world) :
  readable m ->
  pulse_or_zero m w = (Ret (or_else (peek m "Pulse") (VNum zero)), w).
Proof.
  intros Hr. unfold pulse_or_zero.
  now rewrite (get_prop_peek _ _ Hr), bind_lift_ret.
Qed.

Lemma map_pulse_or_zero_peek (metrics : list value) (w : world) :
  Forall readable metrics ->
  map_M pulse_or_zero metrics w
  = (Ret (map (fun m => or_else (peek m "Pulse") (VNum zero)) metrics), w).
Proof.
  induction 1 as [|m metrics Hm _ IH]; [reflexivity|].
  cbn [map_M map]. rewrite (bind_run _ _ _ _ _ (pulse_or_zero_peek m w Hm)).
  now rewrite (bind_run _ _ _ _ _ IH).
Qed.

Lemma plus_convertible (a b : value) : convertible (plus a b) = true.
Proof. unfold plus. now destruct (is_string a || is_string b). Qed.

Lemma add_returns (a b : value) :
  convertible a = true -> convertible b = true ->
  add a b = Ret (plus (primitive_of a) (primitive_of b)).
Proof. intros Ha Hb. unfold add, to_primitive. now rewrite Ha, Hb. Qed.

(** The sum of pulses that convert is a primitive. *)
Lemma reduce_sum_returns (metrics : list value) :
  Forall renderable metrics ->
  forall sum, convertible sum = true ->
    exists total, convertible total = true
                  /\ forall w, reduce_sum metrics sum w = (Ret total, w).
Proof.
  induction 1 as [|m metrics Hm _ IH]; intros sum Hsum.
  - now exists sum.
  - destruct Hm as (Hr & _ & Hp & _).
    assert (Hpz : convertible (or_else (peek m "Pulse") (VNum zero)) = true)
      by now apply or_else_convertible.
    destruct (IH (plus (primitive_of sum)
                    (primitive_of (or_else (peek m "Pulse") (VNum zero))))
                (plus_convertible _ _)) as (total & Hc & Ht).
    exists total. split; [exact Hc|]. intros w. cbn [reduce_sum].
    rewrite (bind_run _ _ _ _ _ (pulse_or_zero_peek m w Hr)).
    now rewrite (add_returns _ _ Hsum Hpz), bind_lift_ret.
Qed.

Lemma spread_fold_returns (step : number -> number -> number)
  (start : number) (args : list value) :
  (List.length args <= max_arguments)%nat ->
  forallb convertible args = true ->
  spread_fold step start args
  = Ret (fold_left step (map number_of args) start).
Proof.
  intros Hlen Hconv. unfold spread_fold.
  destruct (Nat.ltb_spec max_arguments (List.length args)); [lia|].
  now rewrite Hconv.
Qed.

Lemma pulses_convertible (metrics : list value) :
  Forall renderable metrics ->
  forallb convertible
    (map (fun m => or_else (peek m "Pulse") (VNum zero)) metrics) = true.
Proof.
  induction 1 as [|m metrics (_ & _ & Hp & _) _ IH]; [reflexivity|].
  cbn [map forallb]. rewrite IH, andb_true_r.
  now apply or_else_convertible.
Qed.

(** With elements that can be rendered, no more of them than a call can
    spread, and a number as the last time, all that precedes the call
    is computed. *)
Lemma handleSummary_computes (items : list value) :
  items <> [] ->
  Forall renderable items ->
  (List.length items <= max_arguments)%nat ->
  numeric_time (nth (List.length items - 1) items VUndef) ->
  exists lines sum avg pulses mx mn duration seconds,
    summary_computed items lines sum avg pulses mx mn duration seconds.
Proof.
  intros Hne Hren Hlen [t Hlast].
  assert (Hread : Forall readable items)
    by (eapply Forall_impl; [|exact Hren]; now intros m (H & _)).
  destruct (map_event_line_run items Hren) as [lines Hlines].
  destruct (reduce_sum_returns items Hren (VNum zero) eq_refl)
    as (total & Hconv & Htotal).
  set (pulses := map (fun m => or_else (peek m "Pulse") (VNum zero)) items).
  assert (Hplen : (List.length pulses <= max_arguments)%nat)
    by (subst pulses; now rewrite length_map).
  exists lines, total, (num_div (number_of total)
                          (num_of_nat (List.length items))), pulses.
  eexists _, _, (VNum t), _. unfold summary_computed.
  split; [exact Hlines|]. split; [exact Htotal|].
  split; [unfold divide, to_number; now rewrite Hconv|].
  split; [intros w; now apply map_pulse_or_zero_peek|].
  split; [apply spread_fold_returns;
          [exact Hplen|now apply pulses_convertible]|].
  split; [apply spread_fold_returns;
          [exact Hplen|now apply pulses_convertible]|].
  split; [exact Hlast|reflexivity].
Qed.

Lemma not_numeric_missing (v : value) :
  readable v /\ number_or_absent "Time" v ->
  ~ numeric_time v -> missing "Time" v.
Proof.
  intros [Hr Ht] Hn. unfold missing, number_or_absent, numeric_time in *.
  destruct v as [| | | | |items|fields]; try discriminate Hr;
    try reflexivity.
  cbn in *. destruct (lookup "Time" fields) as [[| | |x| | |]|];
    try contradiction; try reflexivity.
  exfalso. apply Hn. now exists x.
Qed.

(** With elements that can be rendered, the exception is the one of the
    unguarded [.Time.toFixed(0)]. *)
Lemma handleSummary_unguarded (items : list value) (mode : option string)
  (env : Env) (cors : list (string * string)) (w : world) :
  items <> [] ->
  Forall renderable items ->
  (List.length items <= max_arguments)%nat ->
  missing "Time" (nth (List.length items - 1) items VUndef) ->
  handleSummary {| req_json := Ret (VArr items); req_contentMode := mode |}
    env cors w
  = (Throw (cannot_read VUndef "toFixed"), w).
Proof.
  intros Hne Hren Hlen Hlast.
  assert (Hread : Forall readable items)
    by (eapply Forall_impl; [|exact Hren]; now intros m (H & _)).
  assert (Hfilled : not_a_filled_array (VArr items) = false)
    by (destruct items; [contradiction|reflexivity]).
  destruct (map_event_line_run items Hren) as [lines Hlines].
  destruct (reduce_sum_returns items Hren (VNum zero) eq_refl)
    as (total & Hconv & Htotal).
  assert (Hplen : (List.length
                     (map (fun m => or_else (peek m "Pulse") (VNum zero))
                        items) <= max_arguments)%nat)
    by now rewrite length_map.
  unfold handleSummary. cbn [req_json].
  rewrite bind_lift_ret, Hfilled; cbn [array_items].
  rewrite (bind_run _ _ _ _ _ (Hlines w)).
  rewrite (bind_run _ _ _ _ _ (Htotal w)).
  unfold divide, to_number. rewrite Hconv, bind_lift_ret.
  rewrite (bind_run _ _ _ _ _ (map_pulse_or_zero_peek items w Hread)).
  unfold math_max.
  rewrite (spread_fold_returns _ _ _ Hplen (pulses_convertible _ Hren)).
  rewrite bind_lift_ret.
  rewrite (bind_run _ _ _ _ _ (map_pulse_or_zero_peek items w Hread)).
  unfold math_min.
  rewrite (spread_fold_returns _ _ _ Hplen (pulses_convertible _ Hren)).
  rewrite bind_lift_ret.
  rewrite Hlast, bind_lift_ret. reflexivity.
Qed.

End Summary.

(** C9.  When the last element of a non-empty summary body has no
    number as its [Time], the handler throws before any upstream call,
    and the route answers 500 with [{error}].  When everything else is
    valid (no element is null, every time is absent or a number, every
    pulse and breath converts to a string, as numbers do, and the array
    is no longer than a call can spread), the exception is the
    TypeError of the unguarded [.Time.toFixed(0)]; whereas the line
    rendered for such an element without [Time] shows N/A. *)
Theorem post_summary_missing_duration {rt : Runtime} (items : list value)
  (mode : option string) (env : Env) (w : world) :
  items <> [] ->
  ~ numeric_time (nth (List.length items - 1) items VUndef) ->
  (exists error,
      handleSummary {| req_json := Ret (VArr items); req_contentMode := mode |}
        env [] w
      = (Throw error, w)
      /\ post_summary
           {| req_json := Ret (VArr items); req_contentMode := mode |} env w
         = (Ret (c_json (VObj [("error", VStr (message error))]) 500), w))
  /\ (Forall renderable items ->
      (List.length items <= max_arguments)%nat ->
      handleSummary {| req_json := Ret (VArr items); req_contentMode := mode |}
        env [] w
      = (Throw (cannot_read VUndef "toFixed"), w))
  /\ (forall metric, renderable metric -> missing "Time" metric ->
                     exists rest,
                       event_line metric w
                       = (Ret ("Time N/As: HR " ++ rest)%string, w)).
Proof.
  intros Hne Hlast. split; [|split].
  - destruct (handleSummary_throws items mode env [] w Hne Hlast) as [error H].
    exists error. split; [exact H|].
    unfold post_summary. now rewrite (try_catch_run_throw _ _ _ _ _ H).
  - intros Hren Hlen. apply handleSummary_unguarded; try assumption.
    apply not_numeric_missing; [|exact Hlast].
    rewrite Forall_forall in Hren.
    assert (Hin : In (nth (List.length items - 1) items VUndef) items).
    { apply nth_In. destruct items; [contradiction|simpl; lia]. }
    destruct (Hren _ Hin) as (Hr & Ht & _). now split.
  - intros metric Hm Hmiss. now apply event_line_no_time.
Qed.

Lemma post_summary_missing_duration_witness :
  let items := [Fixture.sample 60 16 1;
                VObj [("Pulse", VNum (num_of_Z 80));
                      ("Breath", VNum (num_of_Z 17))]] in
  (exists error,
      handleSummary (rt := Fixture.runtime) (Fixture.posted (VArr items))
        Fixture.env [] Fixture.healthy
      = (Throw error, Fixture.healthy)
      /\ post_summary (rt := Fixture.runtime) (Fixture.posted (VArr items))
           Fixture.env Fixture.healthy
         = (Ret (c_json (VObj [("error", VStr (message error))]) 500),
            Fixture.healthy))
  /\ handleSummary (rt := Fixture.runtime) (Fixture.posted (VArr items))
       Fixture.env [] Fixture.healthy
     = (Throw (cannot_read VUndef "toFixed"), Fixture.healthy).
Proof.
  intros items.
  pose proof (post_summary_missing_duration (rt := Fixture.runtime) items
                None Fixture.env Fixture.healthy
                ltac:(discriminate)
                ltac:(intros [x Hx]; discriminate Hx)) as (H1 & H2 & _).
  split; [exact H1|].
  apply H2.
  - repeat constructor.
  - apply Nat.leb_le. reflexivity.
Defined.

(** ** The order of binary64 numbers *)

Ltac order_cases :=
  repeat match goal with
         | |- context [Z.compare ?a ?b] =>
             destruct (Z.compare_spec a b); subst
         | H : context [Z.compare ?a ?b] |- _ =>
             destruct (Z.compare_spec a b); subst
         | |- context [Pos.compare_cont Eq ?a ?b] =>
             change (Pos.compare_cont Eq a b) with (Pos.compare a b);
             destruct (Pos.compare_spec a b); subst
         | H : context [Pos.compare_cont Eq ?a ?b] |- _ =>
             change (Pos.compare_cont Eq a b) with (Pos.compare a b) in H;
             destruct (Pos.compare_spec a b); subst
         end;
  cbn in *; try discriminate; try reflexivity; try lia.

Ltac by_order :=
  unfold num_lt, num_le, SFltb, SFleb, SFcompare; cbn; intros;
  try discriminate; try reflexivity;
  repeat match goal with s : bool |- _ => destruct s end;
  cbn in *; try discriminate; try reflexivity; order_cases.

Section NumberOrder.

Lemma num_le_refl (x : number) : is_nan x = false -> num_le x x = true.
Proof. destruct x as [s|s| |s m e]; by_order. Qed.

Lemma num_le_trans (x y z : number) :
  num_le x y = true -> num_le y z = true -> num_le x z = true.
Proof.
  destruct x as [sx|sx| |sx mx ex], y as [sy|sy| |sy my ey],
        z as [sz|sz| |sz mz ez]; by_order.
Qed.

Lemma num_lt_le (x y : number) : num_lt x y = true -> num_le x y = true.
Proof.
  destruct x as [sx|sx| |sx mx ex], y as [sy|sy| |sy my ey]; by_order.
Qed.

Lemma num_lt_false_le (x y : number) :
  is_nan x = false -> is_nan y = false ->
  num_lt x y = false -> num_le y x = true.
Proof.
  destruct x as [sx|sx| |sx mx ex], y as [sy|sy| |sy my ey]; by_order.
Qed.

Lemma num_le_neg_infinity (x : number) :
  num_le x neg_infinity = true -> x = neg_infinity.
Proof. destruct x as [s|s| |s m e]; by_order. Qed.

Lemma num_le_infinity (x : number) :
  num_le infinity x = true -> x = infinity.
Proof. destruct x as [s|s| |s m e]; by_order. Qed.

(** One step of [Math.max] keeps one of its two arguments, the
    larger. *)
Lemma max_step_spec (h x : number) :
  is_nan h = false -> is_nan x = false ->
  let h' := max_step h x in
  (h' = h \/ h' = x) /\ is_nan h' = false
  /\ num_le h h' = true /\ num_le x h' = true.
Proof.
  intros Hh Hx h'. subst h'. unfold max_step. rewrite Hh, Hx. cbn [orb].
  assert (D : (if num_lt h x then x else h) = h \/
              (if num_lt h x then x else h) = x)
    by (destruct (num_lt h x); auto).
  assert (G : is_nan (if num_lt h x then x else h) = false
              /\ num_le h (if num_lt h x then x else h) = true
              /\ num_le x (if num_lt h x then x else h) = true).
  { destruct (num_lt h x) eqn:E.
    - repeat split; [assumption|now apply num_lt_le|now apply num_le_refl].
    - repeat split; [assumption|now apply num_le_refl|
                      now apply num_lt_false_le]. }
  destruct x as [[|]|sx| |sx mx ex]; try (split; [exact D|exact G]);
    destruct h as [[|]|sh| |sh mh eh]; try (split; [exact D|exact G]).
  repeat split; auto.
Qed.

Lemma min_step_spec (l x : number) :
  is_nan l = false -> is_nan x = false ->
  let l' := min_step l x in
  (l' = l \/ l' = x) /\ is_nan l' = false
  /\ num_le l' l = true /\ num_le l' x = true.
Proof.
  intros Hl Hx l'. subst l'. unfold min_step. rewrite Hl, Hx. cbn [orb].
  assert (D : (if num_lt x l then x else l) = l \/
              (if num_lt x l then x else l) = x)
    by (destruct (num_lt x l); auto).
  assert (G : is_nan (if num_lt x l then x else l) = false
              /\ num_le (if num_lt x l then x else l) l = true
              /\ num_le (if num_lt x l then x else l) x = true).
  { destruct (num_lt x l) eqn:E.
    - repeat split; [assumption|now apply num_lt_le|now apply num_le_refl].
    - repeat split; [assumption|now apply num_le_refl|
                      now apply num_lt_false_le]. }
  destruct x as [[|]|sx| |sx mx ex]; try (split; [exact D|exact G]);
    destruct l as [[|]|sl| |sl ml el]; try (split; [exact D|exact G]).
  repeat split; auto.
Qed.

Lemma fold_max_spec (ps : list number) :
  Forall json_number ps ->
  forall h, is_nan h = false ->
  let r := fold_left max_step ps h in
  (r = h \/ In r ps) /\ num_le h r = true
  /\ forall p, In p ps -> num_le p r = true.
Proof.
  induction 1 as [|x ps Hx _ IH]; intros h Hh; cbn [fold_left].
  - repeat split; [now left|now apply num_le_refl|now intros p []].
  - destruct (max_step_spec h x Hh Hx) as (Hd & Hn & Hhh & Hxh).
    destruct (IH (max_step h x) Hn) as (Hr & Hle & Hall).
    repeat split.
    + destruct Hr as [->|Hin]; [|right; now right].
      destruct Hd as [->| ->]; [now left|right; now left].
    + eapply num_le_trans; eassumption.
    + intros p [<-|Hp]; [eapply num_le_trans; eassumption|now apply Hall].
Qed.

Lemma fold_min_spec (ps : list number) :
  Forall json_number ps ->
  forall l, is_nan l = false ->
  let r := fold_left min_step ps l in
  (r = l \/ In r ps) /\ num_le r l = true
  /\ forall p, In p ps -> num_le r p = true.
Proof.
  induction 1 as [|x ps Hx _ IH]; intros l Hl; cbn [fold_left].
  - repeat split; [now left|now apply num_le_refl|now intros p []].
  - destruct (min_step_spec l x Hl Hx) as (Hd & Hn & Hll & Hlx).
    destruct (IH (min_step l x) Hn) as (Hr & Hle & Hall).
    repeat split.
    + destruct Hr as [->|Hin]; [|right; now right].
      destruct Hd as [->| ->]; [now left|right; now left].
    + eapply num_le_trans; eassumption.
    + intros p [<-|Hp]; [eapply num_le_trans; eassumption|now apply Hall].
Qed.

Lemma fold_max_is_maximum (ps : list number) :
  ps <> [] -> Forall json_number ps ->
  is_maximum ps (fold_left max_step ps neg_infinity).
Proof.
  intros Hne Hps.
  destruct (fold_max_spec ps Hps neg_infinity eq_refl) as ([E|Hin] & _ & Hall).
  - split; [|exact Hall]. destruct ps as [|p ps]; [contradiction|].
    rewrite E. left. apply num_le_neg_infinity.
    rewrite <- E. apply Hall. now left.
  - now split.
Qed.

Lemma fold_min_is_minimum (ps : list number) :
  ps <> [] -> Forall json_number ps ->
  is_minimum ps (fold_left min_step ps infinity).
Proof.
  intros Hne Hps.
  destruct (fold_min_spec ps Hps infinity eq_refl) as ([E|Hin] & _ & Hall).
  - split; [|exact Hall]. destruct ps as [|p ps]; [contradiction|].
    rewrite E. left. apply num_le_infinity.
    rewrite <- E. apply Hall. now left.
  - now split.
Qed.

End NumberOrder.

(** ** Summary statistics *)

Section Statistics.
Context {rt : Runtime}.

(** [m.Pulse || 0] on a sample whose pulse is absent or a number. *)
Lemma pulse_or_zero_value (m : value) :
  number_or_absent "Pulse" m ->
  or_else (peek m "Pulse") (VNum zero) = VNum (pulse_value m).
Proof.
  unfold number_or_absent, pulse_value, peek.
  destruct m as [| | | | |items|fields]; cbn; try reflexivity.
  destruct (lookup "Pulse" fields) as [[| | |x| | |]|];
    try contradiction; try reflexivity.
  intros Hx. unfold or_else. cbn [truthy]. rewrite Hx, orb_false_r.
  now destruct (is_zero x).
Qed.

Lemma pulse_value_json (m : value) :
  number_or_absent "Pulse" m -> json_number (pulse_value m).
Proof.
  unfold number_or_absent, pulse_value.
  destruct (field "Pulse" m) as [[| | |x| | |]|]; try reflexivity.
  intros Hx. now destruct (is_zero x).
Qed.

Lemma pulse_or_zero_run (m : value) (w : world) :
  readable m -> number_or_absent "Pulse" m ->
  pulse_or_zero m w = (Ret (VNum (pulse_value m)), w).
Proof.
  intros Hr Hp. rewrite (pulse_or_zero_peek _ _ Hr).
  now rewrite (pulse_or_zero_value _ Hp).
Qed.

Lemma map_pulse_or_zero_run (metrics : list value) (w : world) :
  Forall readable metrics ->
  Forall (number_or_absent "Pulse") metrics ->
  map_M pulse_or_zero metrics w
  = (Ret (map (fun m => VNum (pulse_value m)) metrics), w).
Proof.
  induction metrics as [|m metrics IH]; intros Hr Hp; [reflexivity|].
  cbn [map_M map].
  rewrite (bind_run _ _ _ _ _
             (pulse_or_zero_run m w (Forall_inv Hr) (Forall_inv Hp))).
  now rewrite (bind_run _ _ _ _ _
                 (IH (Forall_inv_tail Hr) (Forall_inv_tail Hp))).
Qed.

(** The sum of two numbers is their binary64 sum. *)
Lemma add_numbers (x y : number) :
  add (VNum x) (VNum y) = Ret (VNum (num_add x y)).
Proof. reflexivity. Qed.

Lemma reduce_sum_run (metrics : list value) (w : world) :
  Forall readable metrics ->
  Forall (number_or_absent "Pulse") metrics ->
  forall acc,
    reduce_sum metrics (VNum acc) w
    = (Ret (VNum (fold_left num_add (map pulse_value metrics) acc)), w).
Proof.
  induction metrics as [|m metrics IH]; intros Hr Hp acc; [reflexivity|].
  cbn [reduce_sum map fold_left].
  rewrite (bind_run _ _ _ _ _
             (pulse_or_zero_run m w (Forall_inv Hr) (Forall_inv Hp))).
  rewrite add_numbers, bind_lift_ret.
  apply (IH (Forall_inv_tail Hr) (Forall_inv_tail Hp)).
Qed.

Lemma number_of_pulses (metrics : list value) :
  map number_of (map (fun m => VNum (pulse_value m)) metrics)
  = map pulse_value metrics.
Proof. rewrite map_map. reflexivity. Qed.

Lemma numbers_convertible (metrics : list value) :
  forallb convertible (map (fun m => VNum (pulse_value m)) metrics) = true.
Proof. induction metrics as [|m metrics IH]; [reflexivity|exact IH]. Qed.

(** [Math.max] and [Math.min] of the pulses, when the call returns. *)
Lemma spread_fold_pulses (step : number -> number -> number)
  (start x : number) (metrics : list value) :
  spread_fold step start (map (fun m => VNum (pulse_value m)) metrics)
  = Ret x ->
  x = fold_left step (map pulse_value metrics) start.
Proof.
  unfold spread_fold.
  destruct (max_arguments <? _)%nat; [discriminate|].
  rewrite numbers_convertible, number_of_pulses. intros H. now injection H.
Qed.

Lemma divide_number (x n : number) : divide (VNum x) n = Ret (num_div x n).
Proof. reflexivity. Qed.

End Statistics.

Section SummaryAnswer.
Context {rt : Runtime}.

Lemma event_line_unreadable (m : value) (w : world) :
  ~ readable m -> exists e, event_line m w = (Throw e, w).
Proof.
  intros Hm. unfold event_line.
  rewrite (get_prop_unreadable _ _ Hm), bind_lift_throw. eauto.
Qed.

(** The lines are rendered only when no element is null. *)
Lemma map_event_line_readable (items : list value) (lines : list string)
  (w : world) :
  map_M event_line items w = (Ret lines, w) -> Forall readable items.
Proof.
  revert lines. induction items as [|m items IH]; intros lines Hrun;
    [constructor|].
  cbn [map_M] in Hrun.
  destruct (readable_dec m) as [Hm|Hm].
  - constructor; [exact Hm|].
    destruct (stateless_event_line m) as [[line|e] Hl].
    + rewrite (bind_run _ _ _ _ _ (Hl w)) in Hrun.
      destruct (stateless_map_M event_line items stateless_event_line)
        as [[rest|e] Hr].
      * now apply (IH rest).
      * rewrite (bind_run_throw _ _ _ _ _ (Hr w)) in Hrun. discriminate Hrun.
    + rewrite (bind_run_throw _ _ _ _ _ (Hl w)) in Hrun. discriminate Hrun.
  - destruct (event_line_unreadable m w Hm) as [e He].
    rewrite (bind_run_throw _ _ _ _ _ He) in Hrun. discriminate Hrun.
Qed.

(** The statistics the handler computes are those of the pulses. *)
Lemma computed_statistics_ok (items : list value) :
  items <> [] ->
  Forall (number_or_absent "Pulse") items ->
  let ps := map pulse_value items in
  statistics_ok ps
    (statistics_value
       (num_div (fold_left num_add ps zero) (num_of_nat (List.length items)))
       (fold_left max_step ps neg_infinity)
       (fold_left min_step ps infinity)).
Proof.
  intros Hne Hpulse ps.
  assert (Hps : Forall json_number ps).
  { subst ps. apply Forall_map.
    eapply Forall_impl; [|exact Hpulse]. apply pulse_value_json. }
  assert (Hpsne : ps <> []).
  { subst ps. destruct items; [contradiction|discriminate]. }
  exists (fold_left max_step ps neg_infinity),
         (fold_left min_step ps infinity).
  split; [|split].
  - unfold statistics_value, mean. subst ps. now rewrite length_map.
  - now apply fold_max_is_maximum.
  - now apply fold_min_is_minimum.
Qed.

(** What is computed before the call, on pulses that are absent or
    numbers. *)
Lemma summary_computed_pulses (items : list value) (lines : list string)
  (sum : value) (avg : number) (pulses : list value) (mx mn : number)
  (duration : value) (seconds : string) :
  Forall (number_or_absent "Pulse") items ->
  summary_computed items lines sum avg pulses mx mn duration seconds ->
  let ps := map pulse_value items in
  avg = num_div (fold_left num_add ps zero) (num_of_nat (List.length items))
  /\ mx = fold_left max_step ps neg_infinity
  /\ mn = fold_left min_step ps infinity.
Proof.
  intros Hpulse (H1 & H2 & Havg & H3 & Hmx & Hmn & _) ps.
  pose (w0 := {| net := fun _ _ => Rejected (Error ""); log := [] |}).
  pose proof (map_event_line_readable _ _ _ (H1 w0)) as Hread.
  pose proof (H2 w0) as Hsum.
  rewrite (reduce_sum_run items w0 Hread Hpulse zero) in Hsum.
  injection Hsum as <-.
  pose proof (H3 w0) as Hps.
  rewrite (map_pulse_or_zero_run items w0 Hread Hpulse) in Hps.
  injection Hps as <-.
  rewrite divide_number in Havg. injection Havg as <-.
  split; [reflexivity|].
  split; [exact (spread_fold_pulses _ _ _ _ Hmx)
         |exact (spread_fold_pulses _ _ _ _ Hmn)].
Qed.

(** On a non-empty array whose pulses are absent or numbers the handler
    either throws or answers with the statistics of the pulses. *)
Lemma handleSummary_answer (items : list value) (mode : option string)
  (env : Env) (cors : list (string * string)) (w : world) :
  items <> [] ->
  Forall (number_or_absent "Pulse") items ->
  let run :=
    handleSummary {| req_json := Ret (VArr items); req_contentMode := mode |}
      env cors w in
  (exists e, fst run = Throw e)
  \/ (exists summary duration stats,
         fst run
         = Ret (summary_answer cors (List.length items) summary duration stats)
         /\ statistics_ok (map pulse_value items) stats).
Proof.
  intros Hne Hpulse run. subst run.
  destruct (handleSummary_run items mode env cors Hne)
    as [[e He]|(lines & sum & avg & pulses & mx & mn & duration & seconds
                & Hc)].
  - rewrite He. left. now exists e.
  - rewrite (handleSummary_tail _ _ _ _ _ _ _ _ _ _ _ _ w Hne Hc).
    destruct (summary_computed_pulses _ _ _ _ _ _ _ _ _ Hpulse Hc)
      as (-> & -> & ->).
    cbn [fst]. unfold summary_of_outcome.
    destruct (net w _ _) as [reason|r]; [left; now exists reason|].
    destruct (resp_ok r); [|left; eexists; reflexivity].
    destruct (json_parse (resp_text r)) as [data|e]; [|left; now exists e].
    destruct (response_text data) as [[summary|]|e];
      [|left; eexists; reflexivity|left; now exists e].
    right. exists summary, duration. eexists. split; [reflexivity|].
    now apply computed_statistics_ok.
Qed.

End SummaryAnswer.

(** C5.  For every non-empty input array of samples whose pulse is
    absent or a number: whenever the summary handler answers with
    statistics, they are the mean of the pulse values, a missing pulse
    counting as 0, as text with one decimal, and their maximum and their
    minimum, as numbers; and it does answer with them when no element is
    null, every time is absent or a number and the last one a number,
    every breath converts to a string, the array is no longer than a
    call can spread, and the upstream answers with a summary text. *)
Theorem handleSummary_statistics {rt : Runtime} (items : list value)
  (mode : option string) (env : Env) (corsHeaders : list (string * string))
  (w : world) :
  items <> [] ->
  Forall (number_or_absent "Pulse") items ->
  let ps := map pulse_value items in
  let run :=
    handleSummary {| req_json := Ret (VArr items); req_contentMode := mode |}
      env corsHeaders w in
  (forall stats, statistics_of (fst run) = Some stats -> statistics_ok ps stats)
  /\ (forall (r : FetchResponse) (data summary : value),
        Forall renderable items ->
        (List.length items <= max_arguments)%nat ->
        numeric_time (nth (List.length items - 1) items VUndef) ->
        (forall req, net w (List.length (log w)) req = Resolved r) ->
        resp_ok r = true ->
        json_parse (resp_text r) = Ret data ->
        response_text data = Ret (Some summary) ->
        exists duration stats,
          fst run
          = Ret (summary_answer corsHeaders (List.length items)
                   summary duration stats)
          /\ statistics_ok ps stats).
Proof.
  intros Hne Hpulse ps run. split.
  - intros stats Hstats.
    destruct (handleSummary_answer items mode env corsHeaders w Hne Hpulse)
      as [[e He]|(summary & duration & stats' & Hrun & Hok)];
      fold run in He || fold run in Hrun.
    + rewrite He in Hstats. discriminate Hstats.
    + rewrite Hrun in Hstats. cbn in Hstats.
      destruct Hok as (mx & mn & -> & Hmx & Hmn).
      injection Hstats as <-. now exists mx, mn.
  - intros r data summary Hren Hlen Hlast Hnet Hok Hparse Htext.
    destruct (handleSummary_computes items Hne Hren Hlen Hlast)
      as (lines & sum & avg & pulses & mx & mn & duration & seconds & Hc).
    destruct (summary_computed_pulses _ _ _ _ _ _ _ _ _ Hpulse Hc)
      as (-> & -> & ->).
    exists duration. eexists. split.
    + subst run.
      rewrite (handleSummary_tail _ _ _ _ _ _ _ _ _ _ _ _ w Hne Hc).
      cbn [fst]. rewrite Hnet. cbn [summary_of_outcome].
      rewrite Hok, Hparse, Htext. reflexivity.
    + now apply computed_statistics_ok.
Qed.

Lemma handleSummary_statistics_witness :
  let items := [Fixture.sample 60 16 1; Fixture.sample 80 17 2;
                Fixture.sample 100 18 3] in
  statistics_of
    (fst (handleSummary (rt := Fixture.runtime) (Fixture.posted (VArr items))
            Fixture.env [] Fixture.healthy))
  = Some (VObj [("avgHeartRate", VStr "80.0");
                ("maxHeartRate", VNum (num_of_Z 100));
                ("minHeartRate", VNum (num_of_Z 60))])
  /\ statistics_ok (rt := Fixture.runtime) (map pulse_value items)
       (VObj [("avgHeartRate", VStr "80.0");
              ("maxHeartRate", VNum (num_of_Z 100));
              ("minHeartRate", VNum (num_of_Z 60))]).
Proof.
  intros items.
  assert (Hstats : statistics_of
            (fst (handleSummary (rt := Fixture.runtime)
                    (Fixture.posted (VArr items)) Fixture.env []
                    Fixture.healthy))
          = Some (VObj [("avgHeartRate", VStr "80.0");
                        ("maxHeartRate", VNum (num_of_Z 100));
                        ("minHeartRate", VNum (num_of_Z 60))]))
    by (vm_compute; reflexivity).
  split; [exact Hstats|].
  apply (proj1 (handleSummary_statistics (rt := Fixture.runtime) items None
                  Fixture.env [] Fixture.healthy
                  ltac:(discriminate) ltac:(repeat constructor))).
  exact Hstats.
Defined.

(** C5 as written, for every non-empty input array, fails on pulses
    that are strings: the sum concatenates them,
    so the pulses "35" and "40" get the average 1770.0, while the
    maximum and the minimum are those of their numbers. *)
Lemma handleSummary_statistics_counterexample :
  let items := [VObj [("Pulse", VStr "35"); ("Time", VNum (num_of_Z 1))];
                VObj [("Pulse", VStr "40"); ("Time", VNum (num_of_Z 2))]] in
  statistics_of
    (fst (handleSummary (rt := Fixture.runtime) (Fixture.posted (VArr items))
            Fixture.env [] Fixture.healthy))
  = Some (VObj [("avgHeartRate", VStr "1770.0");
                ("maxHeartRate", VNum (num_of_Z 40));
                ("minHeartRate", VNum (num_of_Z 35))]).
Proof. vm_compute. reflexivity. Qed.

(* ================================================================== *)
(** * Further properties of the code *)
(* ================================================================== *)

(** ** Strings: case and white space *)

Section CaseAndSpace.

Lemma lower_char_idem (c : ascii) : lower_char (lower_char c) = lower_char c.
Proof.
  destruct c as [b0 b1 b2 b3 b4 b5 b6 b7].
  destruct b0, b1, b2, b3, b4, b5, b6, b7; reflexivity.
Qed.

Lemma is_space_lower_char (c : ascii) : is_space (lower_char c) = is_space c.
Proof.
  destruct c as [b0 b1 b2 b3 b4 b5 b6 b7].
  destruct b0, b1, b2, b3, b4, b5, b6, b7; reflexivity.
Qed.

Lemma toLowerCase_idem (s : string) :
  toLowerCase (toLowerCase s) = toLowerCase s.
Proof.
  induction s as [|c s IH]; [reflexivity|].
  cbn [toLowerCase]. now rewrite lower_char_idem, IH.
Qed.

Lemma toLowerCase_append (s t : string) :
  toLowerCase (s ++ t) = (toLowerCase s ++ toLowerCase t)%string.
Proof.
  induction s as [|c s IH]; [reflexivity|].
  cbn [append toLowerCase]. now rewrite IH.
Qed.

Lemma is_empty_toLowerCase (s : string) :
  is_empty (toLowerCase s) = is_empty s.
Proof. now destruct s. Qed.

Lemma toLowerCase_trimStart (s : string) :
  toLowerCase (trimStart s) = trimStart (toLowerCase s).
Proof.
  induction s as [|c s IH]; [reflexivity|].
  cbn [trimStart toLowerCase]. rewrite is_space_lower_char.
  now destruct (is_space c).
Qed.

Lemma toLowerCase_trimEnd (s : string) :
  toLowerCase (trimEnd s) = trimEnd (toLowerCase s).
Proof.
  induction s as [|c s IH]; [reflexivity|].
  cbn [trimEnd toLowerCase].
  rewrite is_space_lower_char, <- IH, is_empty_toLowerCase.
  now destruct (is_space c && is_empty (trimEnd s)).
Qed.

Lemma toLowerCase_trim (s : string) :
  toLowerCase (trim s) = trim (toLowerCase s).
Proof.
  unfold trim. now rewrite toLowerCase_trimEnd, toLowerCase_trimStart.
Qed.

Lemma trimStart_opens_solid (s : string) : opens_solid (trimStart s).
Proof.
  induction s as [|c s IH]; [exact I|].
  cbn [trimStart]. destruct (is_space c) eqn:E; [exact IH|exact E].
Qed.

Lemma trimStart_solid (s : string) : opens_solid s -> trimStart s = s.
Proof. destruct s as [|c s]; [reflexivity|]. cbn. now intros ->. Qed.

Lemma trimEnd_opens_solid (s : string) :
  opens_solid s -> opens_solid (trimEnd s).
Proof.
  destruct s as [|c s]; [trivial|]. cbn. intros E. now rewrite E.
Qed.

Lemma trimEnd_idem (s : string) : trimEnd (trimEnd s) = trimEnd s.
Proof.
  induction s as [|c s IH]; [reflexivity|].
  cbn [trimEnd].
  destruct (is_space c && is_empty (trimEnd s)) eqn:E; [reflexivity|].
  cbn [trimEnd]. now rewrite IH, E.
Qed.

Lemma trim_idem (s : string) : trim (trim s) = trim s.
Proof.
  unfold trim.
  rewrite (trimStart_solid (trimEnd (trimStart s))).
  - apply trimEnd_idem.
  - apply trimEnd_opens_solid, trimStart_opens_solid.
Qed.

Lemma extractExpression_lower (text : string) :
  extractExpression (toLowerCase text) = extractExpression text.
Proof. unfold extractExpression. now rewrite toLowerCase_idem. Qed.

Lemma extractExpression_trim (text : string) :
  extractExpression (trim text) = extractExpression text.
Proof.
  unfold extractExpression. now rewrite toLowerCase_trim, trim_idem.
Qed.

End CaseAndSpace.

(** X1.  The label does not depend on the case of the text nor on white
    space around it: lowering the text, or trimming it, before the
    extraction changes nothing. *)
Theorem extractExpression_case_and_space (text : string) :
  extractExpression (toLowerCase text) = extractExpression text
  /\ extractExpression (trim text) = extractExpression text.
Proof.
  split; [apply extractExpression_lower|apply extractExpression_trim].
Qed.

(** X2.  Every keyword is its own label, so extracting twice is
    extracting once. *)
Theorem extractExpression_idempotent (text : string) :
  extractExpression (extractExpression text) = extractExpression text.
Proof.
  pose proof (extractExpression_In text) as H.
  generalize dependent (extractExpression text). intros k H.
  unfold emotionKeywords in H.
  repeat (destruct H as [<-|H]; [reflexivity|]). destruct H.
Qed.

Lemma extractExpression_any_case (word rest : string) :
  In (toLowerCase word) emotionKeywords ->
  extractExpression (word ++ "." ++ rest) = toLowerCase word.
Proof.
  intros H.
  rewrite <- extractExpression_lower.
  rewrite !toLowerCase_append. cbn [toLowerCase].
  change (String (lower_char ".") EmptyString) with ".".
  now apply extractExpression_cue.
Qed.

(** X3.  The format the prompt asks for: a text made of a keyword in any
    capitalisation, a period and anything is labelled with the keyword
    in lower case. *)
Theorem extractExpression_capitalised_cue (word rest : string) :
  In (toLowerCase word) emotionKeywords ->
  extractExpression (word ++ "." ++ rest) = toLowerCase word.
Proof. apply extractExpression_any_case. Qed.

Lemma extractExpression_capitalised_cue_witness :
  extractExpression "Anxious. Slow down and check in with them." = "anxious".
Proof.
  apply (extractExpression_capitalised_cue "Anxious"
           " Slow down and check in with them.").
  simpl; tauto.
Defined.

(** ** Splitting on periods *)

Section Periods.

Lemma split_not_nil (sep : ascii -> bool) (s : string) : split sep s <> [].
Proof.
  destruct s as [|c s]; cbn; [discriminate|].
  destruct (sep c); [discriminate|]. destruct (split sep s); discriminate.
Qed.

Lemma concat_cons_char (c : ascii) (p : string) (ps : list string) :
  String.concat "." (String c p :: ps) = String c (String.concat "." (p :: ps)).
Proof. destruct ps; reflexivity. Qed.

Lemma is_dot_true (c : ascii) : is_dot c = true -> c = "."%char.
Proof. unfold is_dot. apply Ascii.eqb_eq. Qed.

Lemma join_split (s : string) : join "." (split is_dot s) = s.
Proof.
  unfold join. induction s as [|c s IH]; [reflexivity|].
  cbn [split]. destruct (is_dot c) eqn:E.
  - apply is_dot_true in E. subst c.
    destruct (split is_dot s) as [|p ps] eqn:Es.
    + now elim (split_not_nil is_dot s).
    + change (String.concat "." (EmptyString :: p :: ps))
        with (String "." (String.concat "." (p :: ps))).
      now rewrite IH.
  - destruct (split is_dot s) as [|p ps] eqn:Es.
    + now elim (split_not_nil is_dot s).
    + rewrite concat_cons_char. now rewrite IH.
Qed.

Lemma no_dot_cons (c : ascii) (s : string) :
  includes (String c s) "." = false ->
  is_dot c = false /\ includes s "." = false.
Proof.
  cbn [includes prefix]. unfold is_dot.
  destruct (ascii_dec "." c) as [<-|Hne].
  - rewrite prefix_nil. discriminate.
  - intros H. split; [|exact H].
    apply Ascii.eqb_neq. congruence.
Qed.

Lemma split_no_dot (s : string) :
  includes s "." = false -> split is_dot s = [s].
Proof.
  induction s as [|c s IH]; [reflexivity|].
  intros H. apply no_dot_cons in H as [Hc Hs].
  cbn [split]. now rewrite Hc, (IH Hs).
Qed.

Lemma split_at_first_dot (a b : string) :
  includes a "." = false ->
  split is_dot (a ++ "." ++ b) = a :: split is_dot b.
Proof.
  induction a as [|c a IH]; intros H.
  - reflexivity.
  - apply no_dot_cons in H as [Hc Ha].
    cbn [append split]. rewrite Hc.
    change (split is_dot (a ++ String "." b))
      with (split is_dot (a ++ "." ++ b)).
    now rewrite (IH Ha).
Qed.

End Periods.

Lemma after_first_period_rest (a b : string) :
  includes a "." = false ->
  after_first_period (a ++ "." ++ b) = trim b.
Proof.
  intros H. unfold after_first_period.
  rewrite (split_at_first_dot a b H). cbn [List.length tl].
  destruct (split is_dot b) as [|p ps] eqn:Es.
  - now elim (split_not_nil is_dot b).
  - cbn [List.length Nat.ltb Nat.leb]. rewrite <- Es. now rewrite join_split.
Qed.

(** X4.  The analysis kept from a model reply: the whole reply when it
    has no period; what follows the first period, trimmed, when it has
    one. *)
Theorem after_first_period_spec (a b : string) :
  includes a "." = false ->
  after_first_period a = a
  /\ after_first_period (a ++ "." ++ b) = trim b.
Proof.
  intros H. split.
  - unfold after_first_period. now rewrite (split_no_dot a H).
  - now apply after_first_period_rest.
Qed.

Lemma after_first_period_spec_witness :
  after_first_period "Calm" = "Calm"
  /\ after_first_period "Calm. Steady breathing. Keep going."
     = "Steady breathing. Keep going.".
Proof.
  apply (after_first_period_spec "Calm" " Steady breathing. Keep going.").
  reflexivity.
Defined.

(** ** The data URL prefix of an image *)

Section DataUrl.

Lemma length_append (s t : string) :
  String.length (s ++ t) = String.length s + String.length t.
Proof. induction s as [|c s IH]; [reflexivity|]. cbn. now rewrite IH. Qed.

Lemma drop_prefix_append (p s : string) : drop_prefix p (p ++ s) = Some s.
Proof.
  induction p as [|c p IH]; [now destruct s|].
  cbn. now rewrite Ascii.eqb_refl.
Qed.

Lemma drop_prefix_length (p s r : string) :
  drop_prefix p s = Some r -> String.length s = String.length p + String.length r.
Proof.
  revert s. induction p as [|c p IH]; intros s H.
  - destruct s; now injection H as <-.
  - destruct s as [|d s]; [discriminate|]. cbn in H.
    destruct (Ascii.eqb c d); [|discriminate].
    cbn. now rewrite (IH s H).
Qed.

Lemma drop_prefix_prefix (p s r : string) :
  drop_prefix p s = Some r -> prefix p s = true.
Proof.
  revert s. induction p as [|c p IH]; intros s H; [apply prefix_nil|].
  destruct s as [|d s]; [discriminate|]. cbn in H.
  destruct (Ascii.eqb c d) eqn:E; [|discriminate].
  apply Ascii.eqb_eq in E. subst d.
  apply prefix_cons. split; [reflexivity|now apply IH].
Qed.

Lemma drop_while_letters (letters rest : string) :
  every is_lower_letter letters = true ->
  opens_with_other rest ->
  drop_while is_lower_letter (letters ++ rest) = rest.
Proof.
  intros Hl Hr. induction letters as [|c letters IH].
  - destruct rest as [|d rest]; [reflexivity|]. cbn in *. now rewrite Hr.
  - cbn in Hl. apply andb_true_iff in Hl as [Hc Hl].
    cbn [append drop_while]. rewrite Hc. now apply IH.
Qed.

Lemma drop_while_length (p : ascii -> bool) (s : string) :
  String.length (drop_while p s) <= String.length s.
Proof.
  induction s as [|c s IH]; [reflexivity|].
  cbn [drop_while]. destruct (p c); cbn; lia.
Qed.

End DataUrl.

(** X5.  Stripping the data URL prefix: a text made of [data:image/],
    one or more lower-case letters, [;base64,] and the data is reduced
    to the data; the result is never longer than the text; and a text
    that does not open with [data:image/] is left as it is. *)
Theorem strip_data_url_spec (letters data s : string) :
  (letters <> EmptyString -> every is_lower_letter letters = true ->
   strip_data_url ("data:image/" ++ letters ++ ";base64," ++ data) = data)
  /\ String.length (strip_data_url s) <= String.length s
  /\ (prefix "data:image/" s = false -> strip_data_url s = s).
Proof.
  split; [|split].
  - intros Hne Hl. unfold strip_data_url.
    rewrite drop_prefix_append.
    rewrite (drop_while_letters letters (";base64," ++ data) Hl)
      by reflexivity.
    rewrite (length_append letters).
    replace (String.length (";base64," ++ data)
             <? String.length letters + String.length (";base64," ++ data))%nat
      with true.
    + now rewrite drop_prefix_append.
    + symmetry. apply Nat.ltb_lt. destruct letters; [contradiction|cbn; lia].
  - unfold strip_data_url.
    destruct (drop_prefix "data:image/" s) as [after|] eqn:E1; [|lia].
    destruct (_ <? _)%nat; [|lia].
    destruct (drop_prefix ";base64," _) as [d|] eqn:E2; [|lia].
    apply drop_prefix_length in E1, E2.
    pose proof (drop_while_length is_lower_letter after). lia.
  - intros H. unfold strip_data_url.
    destruct (drop_prefix "data:image/" s) as [after|] eqn:E; [|reflexivity].
    exfalso. apply drop_prefix_prefix in E. congruence.
Qed.

Lemma strip_data_url_spec_witness :
  strip_data_url "data:image/jpeg;base64,/9j/4AAQ" = "/9j/4AAQ".
Proof.
  apply (proj1 (strip_data_url_spec "jpeg" "/9j/4AAQ" EmptyString));
    [discriminate|reflexivity].
Defined.

(** ** The shape of the encoded audio *)

Section Base64Shape.
Import Base64.

Lemma btoa_length_bounded (n : nat) :
  forall s, String.length s <= n ->
            String.length (btoa s) = 4 * ((String.length s + 2) / 3).
Proof.
  induction n as [|n IH]; intros s Hlen.
  - destruct s; [reflexivity|simpl in Hlen; lia].
  - destruct s as [|[a0 a1 a2 a3 a4 a5 a6 a7] s]; [reflexivity|].
    destruct s as [|[b0 b1 b2 b3 b4 b5 b6 b7] s]; [reflexivity|].
    destruct s as [|[c0 c1 c2 c3 c4 c5 c6 c7] s]; [reflexivity|].
    cbn [btoa String.length]. rewrite IH by (simpl in Hlen; lia).
    replace (S (S (S (String.length s))) + 2) with (String.length s + 2 + 1 * 3)
      by lia.
    rewrite Nat.div_add by discriminate. lia.
Qed.

Lemma digit_is_base64_digit (s : sextet) : is_base64_digit (digit s) = true.
Proof. unfold is_base64_digit. now rewrite digit_value_digit. Qed.

Lemma btoa_alphabet_bounded (n : nat) :
  forall s, String.length s <= n ->
            every (fun c => is_base64_digit c || is_pad c) (btoa s) = true.
Proof.
  induction n as [|n IH]; intros s Hlen.
  - destruct s; [reflexivity|simpl in Hlen; lia].
  - destruct s as [|[a0 a1 a2 a3 a4 a5 a6 a7] s]; [reflexivity|].
    destruct s as [|[b0 b1 b2 b3 b4 b5 b6 b7] s].
    { cbn [btoa every]. now rewrite !digit_is_base64_digit. }
    destruct s as [|[c0 c1 c2 c3 c4 c5 c6 c7] s].
    { cbn [btoa every]. now rewrite !digit_is_base64_digit. }
    cbn [btoa every]. rewrite !digit_is_base64_digit.
    cbn [orb andb]. apply IH. simpl in Hlen; lia.
Qed.

Lemma binary_length (buffer : list byte) :
  String.length (string_of_list_ascii (map ascii_of_byte buffer))
  = List.length buffer.
Proof. induction buffer as [|b buffer IH]; [reflexivity|]. cbn. now rewrite IH. Qed.

Lemma arrayBufferToBase64_btoa (buffer : list byte) :
  arrayBufferToBase64 buffer
  = btoa (string_of_list_ascii (map ascii_of_byte buffer)).
Proof. unfold arrayBufferToBase64. now rewrite binary_loop. Qed.

End Base64Shape.

(** X6.  The encoded audio has four characters for every three bytes,
    the last group padded: its length is 4 * ceil(n / 3); and it is made
    of digits of the Base64 alphabet and of the padding sign only. *)
Theorem arrayBufferToBase64_shape (buffer : list byte) :
  String.length (arrayBufferToBase64 buffer)
  = 4 * ((List.length buffer + 2) / 3)
  /\ every (fun c => is_base64_digit c || Base64.is_pad c)
       (arrayBufferToBase64 buffer) = true.
Proof.
  rewrite arrayBufferToBase64_btoa. split.
  - rewrite (btoa_length_bounded _ _ (le_n _)). now rewrite binary_length.
  - apply (btoa_alphabet_bounded _ _ (le_n _)).
Qed.

(** X7.  Two byte arrays with the same encoding are the same array. *)
Theorem arrayBufferToBase64_injective (a b : list byte) :
  arrayBufferToBase64 a = arrayBufferToBase64 b -> a = b.
Proof.
  rewrite !arrayBufferToBase64_btoa. intros H.
  apply (f_equal Base64.decode) in H.
  rewrite !decode_btoa, !octets_of_bytes in H. now injection H.
Qed.

Lemma arrayBufferToBase64_injective_witness :
  [x49; x44; x33]%byte = [x49; x44; x33]%byte.
Proof.
  apply (arrayBufferToBase64_injective [x49; x44; x33]%byte
           [x49; x44; x33]%byte).
  reflexivity.
Defined.

(** ** Batch speech, whatever the upstream does *)

(** X8.  Batch speech isolates every item: for a non-empty array
    without null element, in which the timestamp of every item with a
    text converts to a string, the answer is 200 whatever the speech
    service does, with one entry per item, at the index of the item.
    The entry of an item without text is the "Text is required" error.
    The entry of an item with a text whose voice does not convert to a
    string is the message of that TypeError, and no call is made for
    it.  The entry of any other item is decided by the outcome of the
    call for it alone: the audio, the error of a refused call, or the
    message of a failed one.  The calls made are those of these items,
    in order.  A timestamp that does not convert, on an item with a
    text, is logged outside the [try] and makes the whole batch
    fail. *)
Theorem handleTTS_batch_isolation {rt : Runtime} (items : list value)
  (mode : option string) (env : Env) (corsHeaders : list (string * string))
  (w : world) :
  items <> [] ->
  Forall readable items ->
  let request := {| req_json := Ret (VArr items); req_contentMode := mode |} in
  (Forall (fun item => truthy (peek item "text") = true ->
                       convertible (timestamp_of item) = true) items ->
   exists results w',
     handleTTS request env corsHeaders w
     = (Ret (json_response 200 corsHeaders
               (VObj [("results", VArr results);
                      ("totalProcessed",
                       VNum (num_of_nat (List.length items)))])), w')
     /\ List.length results = List.length items
     /\ log w' = log w ++ map (request_of env) (with_call items)
     /\ forall i item,
         nth_error items i = Some item ->
         nth_error results i = Some (batch_entry_at w env items i item))
  /\ (Exists (fun item => truthy (peek item "text") = true
                         /\ convertible (timestamp_of item) = false) items ->
      exists w',
        handleTTS request env corsHeaders w = (Throw cannot_convert, w')).
Proof.
  intros Hne Hread request. split.
  - intros Hstamp.
    destruct (tts_loop_general env items Hread Hstamp [] w)
      as (results & w' & Hrun & _ & Hlog & Hlen & Hnth).
    exists results, w'. repeat split; try assumption.
    unfold handleTTS. cbn [req_json request]. rewrite bind_lift_ret.
    cbn [is_array array_items]. unfold handleBatchTTS.
    destruct items as [|x items]; [contradiction|].
    cbn [List.length Nat.eqb]. now rewrite (bind_run _ _ _ _ _ Hrun).
  - intros HEx.
    destruct (tts_loop_aborts env items Hread HEx [] w) as [w' Hrun].
    exists w'.
    unfold handleTTS. cbn [req_json request]. rewrite bind_lift_ret.
    cbn [is_array array_items]. unfold handleBatchTTS.
    destruct items as [|x items]; [contradiction|].
    cbn [List.length Nat.eqb]. now rewrite (bind_run_throw _ _ _ _ _ Hrun).
Qed.

Lemma handleTTS_batch_isolation_witness :
  let items := [VObj [("text", VStr "Hello")]; VObj [];
                VObj [("text", VStr "Bye");
                      ("voice", VObj [("toString", VNum (num_of_Z 1))])]] in
  exists results w',
    handleTTS (rt := Fixture.runtime) (Fixture.posted (VArr items))
      Fixture.env [] Fixture.refusing
    = (Ret (json_response 200 []
              (VObj [("results", VArr results);
                     ("totalProcessed", VNum (num_of_nat 3))])), w')
    /\ List.length results = 3
    /\ List.length (log w') = 1.
Proof.
  intros items.
  destruct (proj1 (handleTTS_batch_isolation (rt := Fixture.runtime) items
                     None Fixture.env [] Fixture.refusing
                     ltac:(discriminate) ltac:(repeat constructor)))
    as (results & w' & Hrun & Hlen & Hlog & _).
  - repeat constructor.
  - exists results, w'. repeat split; try assumption.
    rewrite Hlog. reflexivity.
Defined.

(** X9.  A batch speech request with an empty array is answered 400
    "No texts provided" without an upstream call; one with a null
    element makes the handler throw, so that the route answers 500 with
    [{error}] and no result at all. *)
Theorem handleTTS_batch_rejections {rt : Runtime} (items : list value)
  (mode : option string) (env : Env) (w : world) :
  (post_tts {| req_json := Ret (VArr []); req_contentMode := mode |} env w
   = (Ret (json_response 400 [] (VObj [("error", VStr "No texts provided")])),
      w))
  /\ (Exists (fun v => ~ readable v) items ->
      exists error w',
        handleTTS {| req_json := Ret (VArr items); req_contentMode := mode |}
          env [] w
        = (Throw error, w')
        /\ post_tts {| req_json := Ret (VArr items); req_contentMode := mode |}
             env w
           = (Ret (c_json (VObj [("error", VStr (message error))]) 500), w')).
Proof.
  split; [reflexivity|].
  intros HEx.
  destruct (tts_loop_throws env items HEx [] w) as (error & w' & Hrun).
  assert (H : handleTTS {| req_json := Ret (VArr items);
                           req_contentMode := mode |} env [] w
              = (Throw error, w')).
  { unfold handleTTS. cbn [req_json]. rewrite bind_lift_ret.
    cbn [is_array array_items]. unfold handleBatchTTS.
    destruct items as [|x items]; [inversion HEx|].
    cbn [List.length Nat.eqb]. now rewrite (bind_run_throw _ _ _ _ _ Hrun). }
  exists error, w'. split; [exact H|].
  unfold post_tts. now rewrite (try_catch_run_throw _ _ _ _ _ H).
Qed.

Lemma handleTTS_batch_rejections_witness :
  exists error w',
    post_tts (rt := Fixture.runtime)
      (Fixture.posted (VArr [VObj [("text", VStr "Hello")]; VNull]))
      Fixture.env Fixture.healthy
    = (Ret (c_json (VObj [("error", VStr (message error))]) 500), w').
Proof.
  destruct (proj2 (handleTTS_batch_rejections (rt := Fixture.runtime)
                     [VObj [("text", VStr "Hello")]; VNull] None Fixture.env
                     Fixture.healthy))
    as (error & w' & _ & H).
  - apply Exists_cons_tl, Exists_cons_hd. discriminate.
  - now exists error, w'.
Defined.

(** ** Analysis: one call per element *)

Section SmallIntegers.

Lemma digits2_iter (p d : positive) :
  digits2_pos (Pos.iter xO p d) = (digits2_pos p + d)%positive.
Proof.
  induction d as [|d IH] using Pos.peano_ind.
  - cbn. lia.
  - rewrite Pos.iter_succ. cbn. rewrite IH. lia.
Qed.

Lemma digits2_size (p : positive) : digits2_pos p = Pos.size p.
Proof. induction p; cbn; congruence. Qed.

Lemma digits2_bound (p : positive) :
  (Zpos p < 2 ^ 53)%Z -> (Zpos (digits2_pos p) <= 53)%Z.
Proof.
  intros H. rewrite digits2_size.
  pose proof (Pos.size_le p) as Hs.
  assert (Hz : (2 ^ Zpos (Pos.size p) <= 2 * Zpos p)%Z).
  { change (2 * Zpos p)%Z with (Zpos p~0).
    rewrite <- Pos2Z.inj_pow. now apply Pos2Z.pos_le_pos. }
  assert (Hlt : (2 ^ Zpos (Pos.size p) < 2 ^ 54)%Z).
  { change (2 ^ 54)%Z with (2 * 2 ^ 53)%Z. lia. }
  apply Z.pow_lt_mono_r_iff in Hlt; lia.
Qed.

(** A positive integer below 2^53 is a positive binary64 number. *)
Lemma num_of_Z_positive (p : positive) :
  (Zpos p < 2 ^ 53)%Z ->
  exists m e, num_of_Z (Zpos p) = S754_finite false m e.
Proof.
  intros Hp. apply digits2_bound in Hp.
  unfold num_of_Z, binary_normalize, binary_round, Js.prec, Js.emax.
  unfold shl_align, fexp, emin. rewrite Z.add_0_r.
  replace (Z.max (Zpos (digits2_pos p) - 53) (3 - 1024 - 53))
    with (Zpos (digits2_pos p) - 53)%Z by lia.
  destruct (Zpos (digits2_pos p) - 53 - 0)%Z as [|q|d] eqn:E; try lia.
  - unfold binary_round_aux, shr_fexp, fexp, emin. cbn [Zdigits2].
    replace (Z.max (Zpos (digits2_pos p) + 0 - 53) (3 - 1024 - 53) - 0)%Z
      with 0%Z by lia.
    cbn [shr_record_of_loc shr shr_m loc_of_shr_record round_nearest_even].
    cbn [Zdigits2].
    replace (Z.max (Zpos (digits2_pos p) + 0 - 53) (3 - 1024 - 53) - 0)%Z
      with 0%Z by lia.
    cbn. eauto.
  - unfold binary_round_aux, shr_fexp, fexp, emin.
    cbn [Zdigits2]. rewrite digits2_iter.
    replace (Z.max (Zpos (digits2_pos p + d)
                    + (Zpos (digits2_pos p) - 53) - 53) (3 - 1024 - 53)
             - (Zpos (digits2_pos p) - 53))%Z with 0%Z by lia.
    cbn [shr_record_of_loc shr shr_m loc_of_shr_record round_nearest_even].
    cbn [Zdigits2]. rewrite digits2_iter.
    replace (Z.max (Zpos (digits2_pos p + d)
                    + (Zpos (digits2_pos p) - 53) - 53) (3 - 1024 - 53)
             - (Zpos (digits2_pos p) - 53))%Z with 0%Z by lia.
    cbn [shr shr_m].
    replace (Zpos (digits2_pos p) - 53 <=? 1024 - 53)%Z with true
      by (symmetry; apply Z.leb_le; lia).
    eauto.
Qed.

Lemma gt_zero_length {rt : Runtime} (n : nat) :
  (Z.of_nat (S n) < 2 ^ 53)%Z ->
  gt_zero (VNum (num_of_nat (S n))) = Ret true.
Proof.
  intros H. unfold num_of_nat.
  destruct (Z.of_nat (S n)) as [|p|p] eqn:E; try lia.
  destruct (num_of_Z_positive p H) as (m & e & ->). reflexivity.
Qed.

End SmallIntegers.

Section AnalysisCalls.
Context {rt : Runtime}.

(** The outcome of [analyzeWithGemini] once its request is built. *)
Lemma analyze_after_fetch (req : FetchRequest) (w : world) :
  try_catch
    (geminiResponse <- fetch req ;;
     let responseText := resp_text geminiResponse in
     if negb (resp_ok geminiResponse) then
       ret (Failure ("Gemini API error: "
                     ++ nat_to_string (resp_status geminiResponse) ++ " "
                     ++ resp_statusText geminiResponse)
              (Some responseText))
     else
       geminiData <- lift (json_parse responseText) ;;
       found <- lift (response_text geminiData) ;;
       match found with
       | None => ret (Failure "Invalid response from Gemini API" None)
       | Some text =>
           fullText <- lift (call_trim
                               "geminiData.candidates[0].content.parts[0].text.trim"
                               text) ;;
           let expression := extractExpression fullText in
           ret (Success (after_first_period fullText) expression)
       end)
    (fun error => ret (Failure (message error) None)) w
  = (Ret (analysis_of_outcome (net w (List.length (log w)) req)),
     {| net := net w; log := log w ++ [req] |}).
Proof.
  unfold try_catch, bind, fetch, lift, ret, analysis_of_outcome.
  destruct (net w (List.length (log w)) req) as [reason|r]; [reflexivity|].
  destruct (resp_ok r); cbn [negb]; [|reflexivity].
  destruct (json_parse (resp_text r)) as [data|e]; [|reflexivity].
  destruct (response_text data) as [[text|]|e]; try reflexivity.
  now destruct (call_trim _ text).
Qed.

Lemma analyzeWithGemini_run (heartRate breathRate image : value)
  (contentMode : string) (env : Env) (w : world) :
  image_ok image ->
  let req := gemini_request env
               (request_parts heartRate breathRate image contentMode)
               (num_ratio 7 10) 100 in
  analyzeWithGemini heartRate breathRate image contentMode env w
  = (Ret (analysis_of_outcome (net w (List.length (log w)) req)),
     {| net := net w; log := log w ++ [req] |}).
Proof.
  intros Himage req. subst req. unfold analyzeWithGemini, request_parts.
  rewrite <- analyze_after_fetch.
  destruct image as [| |b|x|s|l|fs]; cbn in Himage;
    try (cbn [truthy]; rewrite ?Himage; reflexivity);
    try discriminate Himage.
  destruct s as [|c s]; [reflexivity|].
  unfold try_catch, bind at 1 2 3. cbn [truthy is_empty negb get_prop lift].
  cbn [String.eqb Ascii.eqb Bool.eqb].
  rewrite (gt_zero_length _ Himage). reflexivity.
Qed.

Lemma analysis_entry_shape (r : AnalysisResult) (timestamp hr br : value) :
  analysis_entry r timestamp hr br
  = match r with
    | Failure error _ =>
        VObj [("error", VStr error); ("timestamp", timestamp);
              ("metrics", VObj [("heartRate", hr); ("breathRate", br)])]
    | Success analysis expression =>
        VObj [("analysis", VStr analysis); ("expression", VStr expression);
              ("timestamp", timestamp);
              ("metrics", VObj [("heartRate", hr); ("breathRate", br)])]
    end.
Proof. now destruct r. Qed.

Lemma analyze_loop_general (contentMode : string) (env : Env)
  (metrics : list value) :
  Forall analysable metrics ->
  Forall (fun m => image_ok (or_else (peek m "Image") (VStr ""))) metrics ->
  forall (analyses : list value) (w : world),
  exists results w',
    analyze_loop metrics contentMode env analyses w
    = (Ret (analyses ++ results), w')
    /\ net w' = net w
    /\ log w' = log w ++ map (analysis_request env contentMode) metrics
    /\ forall i metric,
        nth_error metrics i = Some metric ->
        nth_error results i
        = Some (analysis_entry_at w env contentMode i metric).
Proof.
  induction metrics as [|metric rest IH]; intros Hread Himg analyses w.
  - exists [], w. rewrite !app_nil_r. repeat split.
    intros [|i] m Hi; discriminate Hi.
  - pose proof (Forall_inv Hread) as Hm.
    pose proof (Forall_inv Himg) as Hi0. cbv beta in Hi0.
    rewrite (analyze_loop_step _ _ _ _ _ _ Hm).
    rewrite (bind_run _ _ _ _ _
               (analyzeWithGemini_run _ _ _ contentMode env w Hi0)).
    fold (analysis_request env contentMode metric).
    set (w1 := {| net := net w;
                  log := log w ++ [analysis_request env contentMode metric] |}).
    set (entry := analysis_entry _ _ _ _).
    destruct (IH (Forall_inv_tail Hread) (Forall_inv_tail Himg)
                (analyses ++ [entry]) w1)
      as (results & w' & Hrun & Hnet & Hlog & Hnth).
    exists (entry :: results), w'. repeat split.
    + rewrite Hrun. now rewrite <- app_assoc.
    + exact Hnet.
    + rewrite Hlog. cbn [log w1 map]. now rewrite <- app_assoc.
    + intros [|i] m Hi.
      * injection Hi as <-. cbn [nth_error]. f_equal.
        unfold analysis_entry_at. subst entry.
        now rewrite analysis_entry_shape, Nat.add_0_r.
      * cbn [nth_error] in *. rewrite (Hnth i m Hi). f_equal.
        unfold analysis_entry_at. cbn [net log w1]. rewrite length_app.
        cbn [List.length].
        now replace (List.length (log w) + 1 + i)
          with (List.length (log w) + S i) by lia.
Qed.

End AnalysisCalls.

(** X10.  For a non-empty array of elements without null, each with
    readings and a time that convert to strings and with an image that
    is absent, falsy or a string, the analysis makes exactly one model
    call per element, in input order, each with the prompt of the
    readings of its element and with its image when it has one, the
    data URL prefix removed; and the i-th entry is decided by the
    outcome of the i-th call alone. *)
Theorem handleAnalyze_one_call_per_element {rt : Runtime}
  (items : list value) (mode : option string) (env : Env)
  (corsHeaders : list (string * string)) (w : world) :
  items <> [] ->
  Forall analysable items ->
  Forall (fun m => image_ok (or_else (peek m "Image") (VStr ""))) items ->
  exists results w',
    handleAnalyze {| req_json := Ret (VArr items); req_contentMode := mode |}
      env corsHeaders w
    = (Ret (json_response 200 corsHeaders
              (VObj [("results", VArr results);
                     ("totalProcessed",
                      VNum (num_of_nat (List.length items)))])), w')
    /\ log w' = log w ++ map (analysis_request env (contentMode_of mode)) items
    /\ forall i item,
        nth_error items i = Some item ->
        nth_error results i
        = Some (analysis_entry_at w env (contentMode_of mode) i item).
Proof.
  intros Hne Hread Himg.
  destruct (analyze_loop_general (contentMode_of mode) env items Hread Himg [] w)
    as (results & w' & Hrun & _ & Hlog & Hnth).
  exists results, w'. repeat split; try assumption.
  unfold handleAnalyze. apply try_catch_run.
  cbn [req_json req_contentMode]. rewrite bind_lift_ret.
  destruct items as [|x items]; [contradiction|].
  cbn [not_a_filled_array List.length Nat.eqb array_items].
  fold (contentMode_of mode). now rewrite (bind_run _ _ _ _ _ Hrun).
Qed.

Lemma handleAnalyze_one_call_per_element_witness :
  let items := [VObj [("Pulse", VNum (num_of_Z 72));
                      ("Image", VStr "data:image/png;base64,iVBORw0KGgo=")];
                Fixture.sample 80 17 2] in
  exists results w',
    handleAnalyze (rt := Fixture.runtime) (Fixture.posted (VArr items))
      Fixture.env [] Fixture.healthy
    = (Ret (json_response 200 []
              (VObj [("results", VArr results);
                     ("totalProcessed", VNum (num_of_nat 2))])), w')
    /\ map (fun req => List.length (request_parts_of req)) (log w') = [2; 1].
Proof.
  intros items.
  destruct (handleAnalyze_one_call_per_element (rt := Fixture.runtime) items
              None Fixture.env [] Fixture.healthy)
    as (results & w' & Hrun & Hlog & _).
  - discriminate.
  - repeat constructor.
  - repeat constructor; cbn; lia.
  - exists results, w'. split; [exact Hrun|]. rewrite Hlog. reflexivity.
Defined.

(** ** Reading the reply of the model *)

Section Reply.
Context {rt : Runtime}.

Lemma get_prop_opt_total (v : value) (k : string) :
  exists x, get_prop_opt v k = Ret x.
Proof.
  unfold get_prop_opt. destruct (nullish v) eqn:E; [eauto|].
  now apply get_prop_readable.
Qed.

Lemma get_index_readable (v : value) (i : nat) :
  readable v -> exists x, get_index v i = Ret x.
Proof. destruct v; intros H; try discriminate H; cbn; eauto. Qed.

Lemma get_index_opt_total (v : value) (i : nat) :
  exists x, get_index_opt v i = Ret x.
Proof.
  unfold get_index_opt. destruct (nullish v) eqn:E; [eauto|].
  now apply get_index_readable.
Qed.

Lemma truthy_readable (v : value) : truthy v = true -> readable v.
Proof. destruct v; try discriminate; reflexivity. Qed.

Lemma candidate_text_total (candidates : value) :
  truthy candidates = true -> exists text, candidate_text candidates = Ret text.
Proof.
  intros H. unfold candidate_text.
  destruct (get_index_readable candidates 0 (truthy_readable _ H)) as [c0 ->].
  destruct (get_prop_opt_total c0 "content") as [content ->].
  destruct (get_prop_opt_total content "parts") as [parts ->].
  destruct (get_index_opt_total parts 0) as [p0 ->].
  apply get_prop_opt_total.
Qed.

Lemma response_text_reply (text : value) :
  response_text (gemini_reply text)
  = Ret (if truthy text then Some text else None).
Proof. reflexivity. Qed.

End Reply.

(** X11.  The guard on the reply of the model is safe on every document
    but [null]: it throws exactly when the document is nullish;
    otherwise it yields a text, which is then truthy, or nothing.  On
    the document [{candidates: [{content: {parts: [{text}]}}]}] it
    yields the text when the text is truthy. *)
Theorem response_text_safe (data text : value) :
  (nullish data = true -> exists e, response_text data = Throw e)
  /\ (nullish data = false ->
      response_text data = Ret None
      \/ exists found, response_text data = Ret (Some found)
                       /\ truthy found = true)
  /\ (truthy text = true ->
      response_text (gemini_reply text) = Ret (Some text)).
Proof.
  split; [|split].
  - intros H. unfold response_text.
    rewrite get_prop_unreadable by (unfold readable; congruence). eauto.
  - intros H. unfold response_text.
    destruct (get_prop_readable data "candidates" H) as [candidates ->].
    destruct (truthy candidates) eqn:Hc; cbn [negb]; [|now left].
    destruct (candidate_text_total candidates Hc) as [found ->].
    destruct (truthy found) eqn:Ht; [right; eauto|now left].
  - intros H. rewrite response_text_reply. now rewrite H.
Qed.

Lemma response_text_safe_witness :
  response_text (gemini_reply (VStr "Calm. Steady."))
  = Ret (Some (VStr "Calm. Steady.")).
Proof.
  apply (proj2 (proj2 (response_text_safe VNull (VStr "Calm. Steady.")))).
  reflexivity.
Defined.

(** X12.  A reply in the format the prompt asks for is split in two:
    when the model answers with a text that reads, once trimmed, as a
    keyword in any capitalisation, a period and an advice, the analysis
    of the element succeeds with the keyword in lower case as expression
    and the trimmed advice as analysis, after one call. *)
Theorem analyzeWithGemini_formatted_reply {rt : Runtime}
  (heartRate breathRate image : value) (contentMode : string) (env : Env)
  (w : world) (r : FetchResponse) (text word advice : string) :
  image_ok image ->
  let req := gemini_request env
               (request_parts heartRate breathRate image contentMode)
               (num_ratio 7 10) 100 in
  net w (List.length (log w)) req = Resolved r ->
  resp_ok r = true ->
  json_parse (resp_text r) = Ret (gemini_reply (VStr text)) ->
  trim text = (word ++ "." ++ advice)%string ->
  includes word "." = false ->
  In (toLowerCase word) emotionKeywords ->
  analyzeWithGemini heartRate breathRate image contentMode env w
  = (Ret (Success (trim advice) (toLowerCase word)),
     {| net := net w; log := log w ++ [req] |}).
Proof.
  intros Himage req Hnet Hok Hparse Htrim Hword Hkey.
  rewrite (analyzeWithGemini_run _ _ _ contentMode env w Himage).
  fold req. rewrite Hnet. unfold analysis_of_outcome.
  rewrite Hok, Hparse, response_text_reply.
  assert (Ht : truthy (VStr text) = true).
  { destruct text; [|reflexivity]. destruct word; discriminate Htrim. }
  rewrite Ht. cbn [call_trim]. rewrite Htrim.
  rewrite (after_first_period_rest _ _ Hword).
  now rewrite (extractExpression_any_case _ _ Hkey).
Qed.

Lemma analyzeWithGemini_formatted_reply_witness :
  fst (analyzeWithGemini (rt := Fixture.runtime) (VNum (num_of_Z 72))
         (VNum (num_of_Z 16)) (VStr "") "facts" Fixture.env Fixture.healthy)
  = Ret (Success "Keep the current pace." "calm").
Proof.
  rewrite (analyzeWithGemini_formatted_reply (rt := Fixture.runtime)
             (VNum (num_of_Z 72)) (VNum (num_of_Z 16)) (VStr "") "facts"
             Fixture.env Fixture.healthy
             {| resp_ok := true; resp_status := 200; resp_statusText := "OK";
                resp_text := Fixture.reply_text;
                resp_arrayBuffer := Fixture.audio_bytes |}
             "Calm. Keep the current pace." "Calm" " Keep the current pace.");
    try reflexivity.
  simpl; tauto.
Defined.

(** ** The prompts *)

Section Prompts.
Context {rt : Runtime}.

Lemma includes_append_r (a t s : string) :
  includes t s = true -> includes (a ++ t) s = true.
Proof.
  intros H. induction a as [|c a IH]; [exact H|].
  cbn [append]. now apply includes_later.
Qed.

Lemma includes_append_l (t b s : string) :
  includes t s = true -> includes (t ++ b) s = true.
Proof.
  revert s. induction t as [|c t IH]; intros s H.
  - destruct s; [apply includes_here, prefix_nil|discriminate].
  - apply includes_inv in H as [Hp|Hl].
    + apply includes_here. eapply prefix_trans; [exact Hp|].
      clear. cbn [append]. apply prefix_cons. split; [reflexivity|].
      induction t as [|d t IHt]; [apply prefix_nil|].
      cbn [append]. apply prefix_cons. now split.
    + cbn [append]. apply includes_later. now apply IH.
Qed.

End Prompts.

(** X13.  Whatever the content mode, the prompt shows the two readings
    and the list of the sixteen words of the vocabulary; and every mode
    other than "facts" gets the prompt of the mode "suggestions". *)
Theorem buildVisionPrompt_contents {rt : Runtime} (heartRate breathRate : value)
  (contentMode : string) :
  includes (buildVisionPrompt heartRate breathRate contentMode)
    (metrics_text heartRate breathRate) = true
  /\ includes (buildVisionPrompt heartRate breathRate contentMode)
       (String.concat ", " promptVocabulary) = true
  /\ (contentMode <> "facts" ->
      buildVisionPrompt heartRate breathRate contentMode
      = buildVisionPrompt heartRate breathRate "suggestions").
Proof.
  assert (Hvoc : includes vocabulary_line (String.concat ", " promptVocabulary)
                 = true) by reflexivity.
  unfold buildVisionPrompt. fold (metrics_text heartRate breathRate).
  split; [|split].
  - destruct (String.eqb contentMode "facts"); apply includes_append.
  - destruct (String.eqb contentMode "facts");
      apply includes_append_r, includes_append_r, includes_append_r;
      apply includes_append_l; exact Hvoc.
  - intros Hmode. apply String.eqb_neq in Hmode. now rewrite Hmode.
Qed.

Lemma buildVisionPrompt_contents_witness :
  buildVisionPrompt (rt := Fixture.runtime) (VNum (num_of_Z 72))
    (VNum (num_of_Z 16)) "anything"
  = buildVisionPrompt (rt := Fixture.runtime) (VNum (num_of_Z 72))
      (VNum (num_of_Z 16)) "suggestions".
Proof.
  apply (proj2 (proj2 (buildVisionPrompt_contents (rt := Fixture.runtime)
                         (VNum (num_of_Z 72)) (VNum (num_of_Z 16))
                         "anything"))).
  discriminate.
Defined.

(** ** The summary and its one call *)

Section SummaryCall.
Context {rt : Runtime}.

Lemma summary_of_outcome_status (answer : value -> Response)
  (o : fetch_outcome) (resp : Response) :
  (forall summary, status (answer summary) = 200) ->
  summary_of_outcome answer o = Ret resp -> status resp = 200.
Proof.
  intros Hans. unfold summary_of_outcome.
  destruct o as [reason|r]; [discriminate|].
  destruct (resp_ok r); [|discriminate].
  destruct (json_parse (resp_text r)) as [data|e]; [|discriminate].
  destruct (response_text data) as [[summary|]|e]; try discriminate.
  intros H. injection H as <-. apply Hans.
Qed.

End SummaryCall.

(** X14.  Whatever the request and the upstream, the summary handler
    makes no call or one call, which is a POST to the model with
    temperature 0.8 and at most 300 output tokens; it never repeats a
    call, and every response it returns itself has status 200. *)
Theorem handleSummary_at_most_one_call {rt : Runtime} (request : Request)
  (env : Env) (corsHeaders : list (string * string)) (w : world) :
  let run := handleSummary request env corsHeaders w in
  (snd run = w
   \/ exists prompt, snd run = called w (summary_request env prompt))
  /\ (forall resp, fst run = Ret resp -> status resp = 200).
Proof.
  destruct request as [[body|e] mode]; cbn zeta.
  2:{ unfold handleSummary. cbn [req_json]. rewrite bind_lift_throw.
      split; [now left|discriminate]. }
  destruct (not_a_filled_array body) eqn:Hfilled.
  - unfold handleSummary. cbn [req_json]. rewrite bind_lift_ret, Hfilled.
    split; [now left|]. intros resp H. now injection H as <-.
  - destruct body as [| | | | |items|]; try discriminate Hfilled.
    assert (Hne : items <> []) by (destruct items; [discriminate|discriminate]).
    destruct (handleSummary_run items mode env corsHeaders Hne)
      as [[e He]|(lines & sum & avg & pulses & mx & mn & duration & seconds
                  & Hc)].
    + rewrite He. split; [now left|discriminate].
    + rewrite (handleSummary_tail _ _ _ _ _ _ _ _ _ _ _ _ w Hne Hc).
      cbn [fst snd]. split; [right; eexists; reflexivity|].
      intros resp. now apply summary_of_outcome_status.
Qed.

(** X15.  When the summary handler reaches its call (a non-empty array
    of elements without null, every time absent or a number and the
    last one a number, every pulse and breath converting to a string,
    and no more elements than a call can spread), a failure of that one
    call is fatal for the whole request: the route answers 500 with the
    reason of a rejected call, with the status text and the body of a
    non-success response, or with "Invalid response from Gemini API"
    when the reply has no text; the call is made once and never
    repeated. *)
Theorem post_summary_upstream_failure {rt : Runtime} (items : list value)
  (mode : option string) (env : Env) (w : world) (o : fetch_outcome) :
  items <> [] ->
  Forall renderable items ->
  (List.length items <= max_arguments)%nat ->
  numeric_time (nth (List.length items - 1) items VUndef) ->
  (forall req, net w (List.length (log w)) req = o) ->
  let run :=
    post_summary {| req_json := Ret (VArr items); req_contentMode := mode |}
      env w in
  (exists prompt, snd run = called w (summary_request env prompt))
  /\ (forall reason, o = Rejected reason -> fst run = Ret (route_error reason))
  /\ (forall r, o = Resolved r -> resp_ok r = false ->
      fst run
      = Ret (route_error (Error ("Gemini API error: " ++ resp_statusText r
                                 ++ " - " ++ resp_text r))))
  /\ (forall r data, o = Resolved r -> resp_ok r = true ->
      json_parse (resp_text r) = Ret data ->
      response_text data = Ret None ->
      fst run = Ret (route_error (Error "Invalid response from Gemini API"))).
Proof.
  intros Hne Hren Hlen Hlast Hnet run.
  destruct (handleSummary_computes items Hne Hren Hlen Hlast)
    as (lines & sum & avg & pulses & mx & mn & duration & seconds & Hc).
  subst run. unfold post_summary, try_catch.
  rewrite (handleSummary_tail _ _ _ _ _ _ _ _ _ _ _ _ w Hne Hc), Hnet.
  split; [|split; [|split]].
  - eexists. destruct (summary_of_outcome _ o); reflexivity.
  - now intros reason ->.
  - intros r -> Hok. cbn [summary_of_outcome]. now rewrite Hok.
  - intros r data -> Hok Hparse Htext. cbn [summary_of_outcome].
    now rewrite Hok, Hparse, Htext.
Qed.

Lemma post_summary_upstream_failure_witness :
  fst (post_summary (rt := Fixture.runtime)
         (Fixture.posted (VArr [Fixture.sample 72 16 3]))
         Fixture.env Fixture.refusing)
  = Ret (route_error
           (Error "Gemini API error: Unauthorized - invalid api key")).
Proof.
  unfold Fixture.posted.
  apply (proj1 (proj2 (proj2
           (post_summary_upstream_failure (rt := Fixture.runtime)
              [Fixture.sample 72 16 3] None Fixture.env Fixture.refusing
              (net Fixture.refusing 0
                 (summary_request (rt := Fixture.runtime) Fixture.env ""))
              ltac:(discriminate)
              ltac:(repeat constructor)
              ltac:(apply Nat.leb_le; reflexivity)
              ltac:(now eexists)
              ltac:(reflexivity)))) _ eq_refl eq_refl).
Defined.

(** ** Single speech requests *)

Section SingleSpeech.
Context {rt : Runtime}.

Lemma handleSingleTTS_audio (body text voice : value) (id : string)
  (env : Env) (cors : list (string * string)) (w : world)
  (r : FetchResponse) :
  get_prop body "text" = Ret text -> get_prop body "voice" = Ret voice ->
  truthy text = true ->
  to_string (or_else voice (VStr default_voice)) = Ret id ->
  net w (List.length (log w)) (tts_request id text env) = Resolved r ->
  resp_ok r = true ->
  handleSingleTTS body env cors w
  = (Ret (audio_response cors (resp_arrayBuffer r)),
     called w (tts_request id text env)).
Proof.
  intros Ht Hv Htruthy Hid Hnet Hok.
  rewrite (handleSingleTTS_calls _ _ _ _ _ _ _ Ht Hv Htruthy Hid).
  rewrite (bind_run _ _ _ _ _ (fetch_resolved _ _ _ Hnet)).
  now rewrite Hok.
Qed.

Lemma handleSingleTTS_rejected (body text voice : value) (id : string)
  (env : Env) (cors : list (string * string)) (w : world) (reason : exn) :
  get_prop body "text" = Ret text -> get_prop body "voice" = Ret voice ->
  truthy text = true ->
  to_string (or_else voice (VStr default_voice)) = Ret id ->
  net w (List.length (log w)) (tts_request id text env) = Rejected reason ->
  handleSingleTTS body env cors w
  = (Throw reason, called w (tts_request id text env)).
Proof.
  intros Ht Hv Htruthy Hid Hnet.
  rewrite (handleSingleTTS_calls _ _ _ _ _ _ _ Ht Hv Htruthy Hid).
  now rewrite (bind_run_throw _ _ _ _ _ (fetch_rejected _ _ _ Hnet)).
Qed.

(** A voice that does not convert makes the template of the URL throw,
    before the call. *)
Lemma handleSingleTTS_voice (body text voice : value) (env : Env)
  (cors : list (string * string)) (w : world) :
  get_prop body "text" = Ret text -> get_prop body "voice" = Ret voice ->
  truthy text = true ->
  convertible (or_else voice (VStr default_voice)) = false ->
  handleSingleTTS body env cors w = (Throw cannot_convert, w).
Proof.
  intros Ht Hv Htruthy Hvoice. unfold handleSingleTTS.
  rewrite (destructure_readable _ _ _ Ht Hv), bind_lift_ret.
  cbn [fst snd]. rewrite Htruthy. cbn [negb].
  now rewrite (to_string_inconvertible _ Hvoice), bind_lift_throw.
Qed.

End SingleSpeech.

(** X16.  A single speech request with a text makes at most one call,
    for the voice of the body or, when it has none, the default voice.
    When the voice converts to a string, the call is made: if the
    service answers with success, the handler answers 200 with the
    audio bytes themselves as the body, not JSON; if the call is
    rejected, the handler throws the reason and the route answers 500
    with its message.  When the voice does not convert, the template of
    the URL throws before the call, and the route answers 500. *)
Theorem handleTTS_single_audio {rt : Runtime} (body text voice : value)
  (mode : option string) (env : Env) (corsHeaders : list (string * string))
  (w : world) :
  is_array body = false ->
  get_prop body "text" = Ret text -> truthy text = true ->
  get_prop body "voice" = Ret voice ->
  let request := {| req_json := Ret body; req_contentMode := mode |} in
  let voiceId := or_else voice (VStr default_voice) in
  let req := tts_request (string_of voiceId) text env in
  (convertible voiceId = true ->
   (forall r, net w (List.length (log w)) req = Resolved r ->
              resp_ok r = true ->
              handleTTS request env corsHeaders w
              = (Ret (audio_response corsHeaders (resp_arrayBuffer r)),
                 called w req))
   /\ (forall reason, net w (List.length (log w)) req = Rejected reason ->
         handleTTS request env corsHeaders w = (Throw reason, called w req)
         /\ post_tts request env w
            = (Ret (route_error reason), called w req)))
  /\ (convertible voiceId = false ->
      handleTTS request env corsHeaders w = (Throw cannot_convert, w)
      /\ post_tts request env w = (Ret (route_error cannot_convert), w))
  /\ (truthy voice = false ->
      fr_url req
      = "https://api.elevenlabs.io/v1/text-to-speech/pNInz6obpgDQGcFmaJgB").
Proof.
  intros Harr Ht Htruthy Hv request voiceId req.
  assert (Hsingle : forall cors,
             handleTTS request env cors w = handleSingleTTS body env cors w).
  { intros cors. unfold handleTTS. cbn [req_json request].
    now rewrite bind_lift_ret, Harr. }
  split; [|split].
  - intros Hvoice. pose proof (to_string_convertible _ Hvoice) as Hid.
    split.
    + intros r Hnet Hok. rewrite Hsingle.
      eapply handleSingleTTS_audio; eassumption.
    + intros reason Hnet.
      assert (Hrun : forall cors,
                 handleTTS request env cors w = (Throw reason, called w req)).
      { intros cors. rewrite Hsingle.
        eapply handleSingleTTS_rejected; eassumption. }
      split; [apply Hrun|].
      unfold post_tts. now rewrite (try_catch_run_throw _ _ _ _ _ (Hrun [])).
  - intros Hvoice.
    assert (Hrun : forall cors,
               handleTTS request env cors w = (Throw cannot_convert, w)).
    { intros cors. rewrite Hsingle.
      eapply handleSingleTTS_voice; eassumption. }
    split; [apply Hrun|].
    unfold post_tts. now rewrite (try_catch_run_throw _ _ _ _ _ (Hrun [])).
  - intros Hfalsy. subst req voiceId. unfold or_else. rewrite Hfalsy.
    reflexivity.
Qed.

Lemma handleTTS_single_audio_witness :
  handleTTS (rt := Fixture.runtime)
    (Fixture.posted (VObj [("text", VStr "Hello")])) Fixture.env []
    Fixture.healthy
  = (Ret (audio_response [] Fixture.audio_bytes),
     called Fixture.healthy
       (tts_request default_voice (VStr "Hello") Fixture.env)).
Proof.
  unfold Fixture.posted.
  apply (proj1 (proj1 (handleTTS_single_audio (rt := Fixture.runtime)
                         (VObj [("text", VStr "Hello")]) (VStr "Hello") VUndef
                         None Fixture.env [] Fixture.healthy
                         eq_refl eq_refl eq_refl eq_refl) eq_refl)
           _ eq_refl eq_refl).
Defined.

(** ** The routes *)

Section Routes.
Context {rt : Runtime}.

Lemma handleAnalyze_answers (request : Request) (env : Env)
  (cors : list (string * string)) (w : world) :
  exists resp w', handleAnalyze request env cors w = (Ret resp, w').
Proof. unfold handleAnalyze. apply try_catch_total. Qed.

End Routes.

(** X18.  Every route answers, whatever the request and the upstream:
    no exception leaves a route.  The analysis handler never throws, so
    its route returns the answer of the handler and the catch of the
    route is never taken.  A body that is not JSON is answered 500
    without an upstream call: by the analysis handler with the message
    and the stack, by the two other routes with the message alone; and
    so is a speech request whose body is null. *)
Theorem routes_always_answer {rt : Runtime} (request : Request) (env : Env)
  (w : world) (e : exn) (mode : option string) :
  ((exists resp w', post_analyze request env w = (Ret resp, w'))
   /\ (exists resp w', post_tts request env w = (Ret resp, w'))
   /\ (exists resp w', post_summary request env w = (Ret resp, w')))
  /\ post_analyze request env w = handleAnalyze request env [] w
  /\ (let broken := {| req_json := Throw e; req_contentMode := mode |} in
      post_analyze broken env w
      = (Ret (json_response 500 []
                (VObj [("error", VStr (message e));
                       ("stack", VStr (stack e))])), w)
      /\ post_tts broken env w = (Ret (route_error e), w)
      /\ post_summary broken env w = (Ret (route_error e), w))
  /\ post_tts {| req_json := Ret VNull; req_contentMode := mode |} env w
     = (Ret (route_error
               (TypeError "Cannot destructure property 'text' of 'body' as it is null.")),
        w).
Proof.
  split; [|split; [|split]].
  - split; [|split]; apply try_catch_total.
  - destruct (handleAnalyze_answers request env [] w) as (resp & w' & Hrun).
    unfold post_analyze. rewrite Hrun. now apply try_catch_run.
  - cbn zeta. split; [|split]; reflexivity.
  - reflexivity.
Qed.

(** ** Failures of one analysis *)

Section AnalysisFailures.
Context {rt : Runtime}.

Lemma analyzeWithGemini_calls (heartRate breathRate image : value)
  (contentMode : string) (env : Env) (w : world) :
  let run := analyzeWithGemini heartRate breathRate image contentMode env w in
  (exists error, run = (Ret (Failure error None), w))
  \/ (exists parts,
         run
         = (Ret (analysis_of_outcome
                   (net w (List.length (log w))
                      (gemini_request env parts (num_ratio 7 10) 100))),
            called w (gemini_request env parts (num_ratio 7 10) 100))).
Proof.
  cbn zeta. unfold analyzeWithGemini, called.
  destruct (truthy image) eqn:Htruthy.
  2:{ right. eexists. rewrite <- analyze_after_fetch. reflexivity. }
  destruct (get_prop image "length") as [len|e] eqn:Hlen.
  2:{ left. eexists. reflexivity. }
  destruct (gt_zero len) as [[|]|e] eqn:Hgt.
  - destruct (call_replace_data_url "imageBase64.replace" image)
      as [clean|e] eqn:Hclean.
    + right. eexists. rewrite <- analyze_after_fetch.
      unfold try_catch, bind at 1 2 3. cbn [lift].
      rewrite ?Hclean. reflexivity.
    + left. eexists. unfold try_catch, bind at 1 2 3. cbn [lift].
      rewrite ?Hclean. reflexivity.
  - right. eexists. rewrite <- analyze_after_fetch. reflexivity.
  - left. eexists. reflexivity.
Qed.

End AnalysisFailures.

(** X19.  One analysis never throws and makes no call or one call,
    whatever the readings, the image and the upstream.  With an image
    that is absent or a string, it makes its one call and turns each
    failure of it into a failure of this element alone: a rejected call
    gives the message of the reason; a non-success response gives
    "Gemini API error: " with the status and the status text, and the
    body as details; a reply that is not JSON gives the message of the
    parser; a reply without a text gives "Invalid response from Gemini
    API" (with details that no caller reads and that are left open
    here). *)
Theorem analyzeWithGemini_failures {rt : Runtime}
  (heartRate breathRate image : value) (contentMode : string) (env : Env)
  (w : world) :
  let run := analyzeWithGemini heartRate breathRate image contentMode env w in
  let req := gemini_request env
               (request_parts heartRate breathRate image contentMode)
               (num_ratio 7 10) 100 in
  ((exists result, fst run = Ret result)
   /\ (snd run = w
       \/ exists parts,
           snd run = called w (gemini_request env parts (num_ratio 7 10) 100)))
  /\ (image_ok image ->
      snd run = called w req
      /\ (forall reason, net w (List.length (log w)) req = Rejected reason ->
          fst run = Ret (Failure (message reason) None))
      /\ (forall r, net w (List.length (log w)) req = Resolved r ->
          (resp_ok r = false ->
           fst run
           = Ret (Failure ("Gemini API error: " ++ nat_to_string (resp_status r)
                           ++ " " ++ resp_statusText r)
                    (Some (resp_text r))))
          /\ (forall e, resp_ok r = true ->
                json_parse (resp_text r) = Throw e ->
                fst run = Ret (Failure (message e) None))
          /\ (forall data, resp_ok r = true ->
                json_parse (resp_text r) = Ret data ->
                response_text data = Ret None ->
                exists details,
                  fst run
                  = Ret (Failure "Invalid response from Gemini API"
                           details)))).
Proof.
  intros run req. split.
  - destruct (analyzeWithGemini_calls heartRate breathRate image contentMode
                env w) as [[error Hrun]|[parts Hrun]];
      fold run in Hrun; rewrite Hrun; cbn [fst snd].
    + split; [eauto|now left].
    + split; [eauto|right; now exists parts].
  - intros Himage.
    pose proof (analyzeWithGemini_run heartRate breathRate image contentMode
                  env w Himage) as Hrun.
    cbn zeta in Hrun. fold req in Hrun. fold run in Hrun.
    rewrite Hrun. cbn [fst snd]. split; [reflexivity|]. split.
    + now intros reason ->.
    + intros r ->. cbn [analysis_of_outcome]. split; [|split].
      * now intros ->.
      * intros e -> Hparse. now rewrite Hparse.
      * intros data -> Hparse Htext. rewrite Hparse, Htext. now eexists.
Qed.

Lemma analyzeWithGemini_failures_witness :
  fst (analyzeWithGemini (rt := Fixture.runtime) (VNum (num_of_Z 72))
         (VNum (num_of_Z 16)) (VStr "") "facts" Fixture.env Fixture.refusing)
  = Ret (Failure "Gemini API error: 401 Unauthorized"
           (Some "invalid api key")).
Proof.
  apply (proj1 (proj2 (proj2 (proj2
           (analyzeWithGemini_failures (rt := Fixture.runtime)
              (VNum (num_of_Z 72)) (VNum (num_of_Z 16)) (VStr "") "facts"
              Fixture.env Fixture.refusing)
           ltac:(reflexivity))) _ eq_refl) eq_refl).
Defined.
